(** * landscape-client: package skeleton hashing and the Apt facade

    A shallow embedding of [landscape/package/skeleton.py] and of the
    [AptFacade] class of [landscape/package/facade.py], with the properties
    of the transaction reconciler and of the skeleton hash proved over it.

    Conventions.
    - Python 2 [str] values are [string] (a sequence of 8-bit characters);
      integers are [Z].
    - A raised exception is a value of [exn]; a method of the facade is a
      function from the state before the call to an outcome and the state
      after it, so every mutation made before a [raise] is kept.
    - python-apt and dpkg are outside the repository: what the facade uses
      of them are the fields of the class [Facade.Apt], and every property
      of the facade is proved for all instances of it.  [Toy] is one
      instance, on which the facade runs. *)

From Stdlib Require Import ZArith Lia Strings.String Strings.Ascii.
From Stdlib Require Import Numbers.DecimalString Sorting.Sorted.
From stdpp Require Import base option list strings sorting gmap.

Open Scope Z_scope.

(** ** Python string primitives *)

Module Py.

(** ["%d" % n] for an integer. *)
Definition fmt_d (n : Z) : string := NilZero.string_of_int (Z.to_int n).

(** [sep.join(parts)]. *)
Fixpoint join (sep : string) (parts : list string) : string :=
  match parts with
  | [] => ""
  | [p] => p
  | p :: rest => p +:+ sep +:+ join sep rest
  end.

(** [text.split(sep)] for a one-character separator [sep]: the pieces
    between the occurrences of [sep], of which there is always one more
    than there are occurrences. *)
Fixpoint split (sep : ascii) (text : string) : list string :=
  match text with
  | EmptyString => [""]
  | String c rest =>
      if Ascii.eqb c sep then "" :: split sep rest
      else match split sep rest with
           | [] => [String c ""]
           | piece :: pieces => String c piece :: pieces
           end
  end.

(** [x in xs] on a list of strings. *)
Definition contains (x : string) (xs : list string) : bool :=
  existsb (String.eqb x) xs.

(** Whether the character occurs in the text. *)
Fixpoint has_char (ch : ascii) (text : string) : bool :=
  match text with
  | EmptyString => false
  | String c rest => Ascii.eqb c ch || has_char ch rest
  end.

(** [part in text] for texts. *)
Fixpoint occurs (part text : string) : bool :=
  String.prefix part text
  || match text with
     | EmptyString => false
     | String _ rest => occurs part rest
     end.

(** The line feed, ["\n"]. *)
Definition LF : ascii := ascii_of_nat 10.
Definition newline : string := String LF "".

(** [" " * n]. *)
Fixpoint spaces (n : nat) : string :=
  match n with
  | O => ""
  | S n' => String " " (spaces n')
  end.

(** The bytes of a [str]. *)
Fixpoint bytes (s : string) : list Z :=
  match s with
  | EmptyString => []
  | String c rest => Z.of_N (N_of_ascii c) :: bytes rest
  end.

(** [sorted(xs)] / [xs.sort()]: Python's sort is stable and compares with
    [<] only.  An element is put in front of the first later element that
    is not smaller than it, so equal elements keep their order. *)
Section Sort.
Context {A : Type} (lt : A → A → bool).

Fixpoint insort (x : A) (xs : list A) : list A :=
  match xs with
  | [] => [x]
  | y :: ys => if lt y x then y :: insort x ys else x :: y :: ys
  end.

Fixpoint sorted (xs : list A) : list A :=
  match xs with
  | [] => []
  | x :: rest => insort x (sorted rest)
  end.
End Sort.

(** [<] on tuples [(int, str)]: the first components decide unless they are
    equal. *)
Definition pair_lt (a b : Z * string) : bool :=
  (a.1 <? b.1)%Z || ((a.1 =? b.1)%Z && String.ltb a.2 b.2).

End Py.

(** ** SHA-1

    [landscape.lib.hashlib.sha1] is Python's [hashlib.sha1].  Words are
    32-bit integers in [Z] with the wrap-around written out. *)

Module SHA1.

Definition mask32 : Z := 0xFFFFFFFF.
Definition w32 (x : Z) : Z := Z.land x mask32.
Definition add32 (x y : Z) : Z := w32 (x + y).
Definition rotl (n x : Z) : Z :=
  w32 (Z.lor (Z.shiftl x n) (Z.shiftr x (32 - n))).
Definition not32 (x : Z) : Z := Z.lxor x mask32.

(** Big-endian bytes of a word of [n] bytes. *)
Fixpoint be_bytes (n : nat) (x : Z) : list Z :=
  match n with
  | O => []
  | S n' => Z.land (Z.shiftr x (8 * Z.of_nat n')) 0xFF :: be_bytes n' x
  end.

Fixpoint be_word (bs : list Z) (acc : Z) : Z :=
  match bs with
  | [] => acc
  | b :: rest => be_word rest (Z.lor (Z.shiftl acc 8) b)
  end.

(** Message padding: a 1 bit, zeros up to 56 modulo 64, then the length in
    bits as a 64-bit big-endian integer. *)
Definition pad (msg : list Z) : list Z :=
  let len := Z.of_nat (length msg) in
  let zeros := Z.to_nat ((55 - len) mod 64) in
  msg ++ [0x80] ++ replicate zeros 0 ++ be_bytes 8 (8 * len).

(** The words of a block, four bytes each. *)
Fixpoint words (n : nat) (bs : list Z) : list Z :=
  match n with
  | O => []
  | S n' => be_word (take 4 bs) 0 :: words n' (drop 4 bs)
  end.

Record state := State { ha : Z; hb : Z; hc : Z; hd : Z; he : Z }.

Definition init : state :=
  State 0x67452301 0xEFCDAB89 0x98BADCFE 0x10325476 0xC3D2E1F0.

Definition f (t : nat) (b c d : Z) : Z :=
  if (t <? 20)%nat then Z.lor (Z.land b c) (Z.land (not32 b) d)
  else if (t <? 40)%nat then Z.lxor (Z.lxor b c) d
  else if (t <? 60)%nat then
    Z.lor (Z.lor (Z.land b c) (Z.land b d)) (Z.land c d)
  else Z.lxor (Z.lxor b c) d.

Definition k (t : nat) : Z :=
  if (t <? 20)%nat then 0x5A827999
  else if (t <? 40)%nat then 0x6ED9EBA1
  else if (t <? 60)%nat then 0x8F1BBCDC
  else 0xCA62C1D6.

Definition nth_word (i : nat) (w : list Z) : Z := nth i w 0.

(** Rounds [t], [t+1], ... (there are [n] of them left); [w] holds the
    sixteen schedule words W(t) ... W(t+15). *)
Fixpoint rounds (n t : nat) (w : list Z) (s : state) : state :=
  match n with
  | O => s
  | S n' =>
      let wt := nth_word 0 w in
      let next :=
        rotl 1 (Z.lxor (Z.lxor (nth_word 13 w) (nth_word 8 w))
                       (Z.lxor (nth_word 2 w) wt)) in
      let temp :=
        add32 (add32 (add32 (add32 (rotl 5 (ha s)) (f t (hb s) (hc s) (hd s)))
                            (he s)) (k t)) wt in
      rounds n' (S t) (drop 1 w ++ [next])
             (State temp (ha s) (rotl 30 (hb s)) (hc s) (hd s))
  end.

Definition compress (s : state) (block : list Z) : state :=
  let r := rounds 80 0 (words 16 block) s in
  State (add32 (ha s) (ha r)) (add32 (hb s) (hb r)) (add32 (hc s) (hc r))
        (add32 (hd s) (hd r)) (add32 (he s) (he r)).

Fixpoint blocks (n : nat) (bs : list Z) (s : state) : state :=
  match n with
  | O => s
  | S n' => blocks n' (drop 64 bs) (compress s (take 64 bs))
  end.

Definition output (s : state) : list Z :=
  be_bytes 4 (ha s) ++ be_bytes 4 (hb s) ++ be_bytes 4 (hc s)
  ++ be_bytes 4 (hd s) ++ be_bytes 4 (he s).

(** Modelled from the spec: [landscape.lib.hashlib.sha1], which is not among
    the sources.  The spec asks for SHA-1 semantics (a 160-bit digest with a
    fixed 20-byte output); this is the digest of FIPS 180-4 for a message
    given as bytes. *)
Definition hash (msg : list Z) : list Z :=
  let padded := pad msg in
  output (blocks (length padded / 64)%nat padded init).

(** The hash object of [hashlib]: the data fed so far.  [update] calls are
    equivalent to one call with the concatenation of their arguments. *)
Record t := Hasher { fed : string }.

Definition new (data : string) : t := Hasher data.
Definition update (h : t) (data : string) : t := Hasher (fed h +:+ data).
Definition digest (h : t) : list Z := hash (Py.bytes (fed h)).

End SHA1.

#[global] Arguments SHA1.hash : simpl never.

(** ** [landscape/package/skeleton.py] *)

Module Skeleton.

Definition PACKAGE : Z := Z.shiftl 1 0.
Definition PROVIDES : Z := Z.shiftl 1 1.
Definition REQUIRES : Z := Z.shiftl 1 2.
Definition UPGRADES : Z := Z.shiftl 1 3.
Definition CONFLICTS : Z := Z.shiftl 1 4.

Definition DEB_PACKAGE : Z := Z.lor (Z.shiftl 1 16) PACKAGE.
Definition DEB_PROVIDES : Z := Z.lor (Z.shiftl 2 16) PROVIDES.
Definition DEB_NAME_PROVIDES : Z := Z.lor (Z.shiftl 3 16) PROVIDES.
Definition DEB_REQUIRES : Z := Z.lor (Z.shiftl 4 16) REQUIRES.
Definition DEB_OR_REQUIRES : Z := Z.lor (Z.shiftl 5 16) REQUIRES.
Definition DEB_UPGRADES : Z := Z.lor (Z.shiftl 6 16) UPGRADES.
Definition DEB_CONFLICTS : Z := Z.lor (Z.shiftl 7 16) CONFLICTS.

(** A relation is a tuple [(type, info)]. *)
Definition relation : Type := Z * string.

(** [class PackageSkeleton].  The five class attributes default to [None]. *)
Record PackageSkeleton := mkSkeleton {
  type : Z;
  name : string;
  version : string;
  relations : list relation;
  section : option string;
  summary : option string;
  description : option string;
  size : option Z;
  installed_size : option Z
}.

(** [PackageSkeleton.__init__]. *)
Definition new (type : Z) (name version : string) : PackageSkeleton :=
  mkSkeleton type name version [] None None None None None.

Definition set_relations (rels : list relation) (s : PackageSkeleton)
  : PackageSkeleton :=
  mkSkeleton (type s) (name s) (version s) rels (section s) (summary s)
             (description s) (size s) (installed_size s).

(** [PackageSkeleton.add_relation]. *)
Definition add_relation (s : PackageSkeleton) (type : Z) (info : string)
  : PackageSkeleton :=
  set_relations (relations s ++ [(type, info)]) s.

(** ["[%d %s %s]" % (type, name, version)] and ["[%d %s]" % pair]. *)
Definition fmt_header (type : Z) (name version : string) : string :=
  "[" +:+ Py.fmt_d type +:+ " " +:+ name +:+ " " +:+ version +:+ "]".
Definition fmt_pair (pair : relation) : string :=
  "[" +:+ Py.fmt_d pair.1 +:+ " " +:+ pair.2 +:+ "]".

(** [PackageSkeleton.get_hash].  The method sorts [self.relations] in
    place, so it returns the digest together with the skeleton as the call
    leaves it. *)
Definition get_hash (s : PackageSkeleton) : list Z * PackageSkeleton :=
  let digest := SHA1.new (fmt_header (type s) (name s) (version s)) in
  let s' := set_relations (Py.sorted Py.pair_lt (relations s)) s in
  let digest :=
    fold_left (λ d pair, SHA1.update d (fmt_pair pair)) (relations s') digest in
  (SHA1.digest digest, s').

(** [relation_to_string]: an apt relation [(name, version, relation)]. *)
Definition relation_to_string (relation_tuple : string * string * string)
  : string :=
  let '(name, version, relation_type) := relation_tuple in
  if String.eqb relation_type "" then name
  else name +:+ " " +:+ relation_type +:+ " " +:+ version.

(** What [build_skeleton_apt] reads of an [apt.package.Version]: [v_str]
    is the text that [%s] gives for the object itself (the source formats
    [version], not [version_string], into the two relations it adds),
    [v_record] is [None] when the object has no [record] attribute, and
    [record.get(field, "")] is the function applied to the field. *)
Record AptVersion := mkAptVersion {
  v_package_name : string;
  v_version : string;
  v_str : string;
  v_record : option (string → string);
  v_section : string;
  v_summary : string;
  v_description : string;
  v_size : Z;
  v_installed_size : Z
}.

(** A relation as [parse_record_field] makes it: its type is [None] where
    the entry has alternatives and the caller gave no [or_relation_type]. *)
Definition record_relation : Type := option Z * string.

(** [<] of Python 2 on the types, where [None] is smaller than every
    number, and on the tuples [(type, info)]. *)
Definition type_lt (a b : option Z) : bool :=
  match a, b with
  | None, Some _ => true
  | Some x, Some y => (x <? y)%Z
  | _, _ => false
  end.

Definition record_relation_lt (a b : record_relation) : bool :=
  type_lt a.1 b.1 || (bool_decide (a.1 = b.1) && String.ltb a.2 b.2).

(** A [PackageSkeleton] as [build_skeleton_apt] leaves it: the type of a
    relation may be [None]. *)
Record AptSkeleton := mkAptSkeleton {
  apt_type : Z;
  apt_name : string;
  apt_version : string;
  apt_relations : list record_relation;
  apt_section : option string;
  apt_summary : option string;
  apt_description : option string;
  apt_size : option Z;
  apt_installed_size : option Z
}.

Definition set_apt_relations (rels : list record_relation) (s : AptSkeleton)
  : AptSkeleton :=
  mkAptSkeleton (apt_type s) (apt_name s) (apt_version s) rels
    (apt_section s) (apt_summary s) (apt_description s) (apt_size s)
    (apt_installed_size s).

(** The loop of [get_hash] over such relations: ["[%d %s]" % pair] raises
    [TypeError] for a type that is [None], and the result is [None]
    then. *)
Fixpoint update_all (digest : SHA1.t) (pairs : list record_relation)
  : option SHA1.t :=
  match pairs with
  | [] => Some digest
  | (Some type, info) :: rest =>
      update_all (SHA1.update digest (fmt_pair (type, info))) rest
  | (None, _) :: _ => None
  end.

(** [PackageSkeleton.get_hash] on a skeleton made by [build_skeleton_apt]:
    the digest, or [None] for the [TypeError] of the loop, and the skeleton
    as the call leaves it. *)
Definition get_hash_apt (s : AptSkeleton) : option (list Z) * AptSkeleton :=
  let digest :=
    SHA1.new (fmt_header (apt_type s) (apt_name s) (apt_version s)) in
  let s' :=
    set_apt_relations (Py.sorted record_relation_lt (apt_relations s)) s in
  (SHA1.digest <$> update_all digest (apt_relations s'), s').

(** The relation with a type that is a number, and the skeleton whose
    relations all are such. *)
Definition typed (r : relation) : record_relation := (Some r.1, r.2).

Definition of_skeleton (s : PackageSkeleton) : AptSkeleton :=
  mkAptSkeleton (type s) (name s) (version s) (typed <$> relations s)
    (section s) (summary s) (description s) (size s) (installed_size s).

Section Build.
(** [apt_pkg.parse_depends]: for each relation of the field, its
    alternatives as tuples [(name, version, relation)]. *)
Variable parse_depends : string → list (list (string * string * string)).

(** [parse_record_field]; [or_relation_type] is [None] where the caller
    leaves it out. *)
Definition parse_record_field (record : string → string)
    (record_field : string) (relation_type : Z) (or_relation_type : option Z)
  : gset record_relation :=
  let values := parse_depends (record record_field) in
  fold_left
    (λ (relations : gset record_relation) value,
       let value_strings := map relation_to_string value in
       let value_relation_type :=
         if (1 <? length value_strings)%nat then or_relation_type
         else Some relation_type in
       let relation_string := Py.join " | " value_strings in
       relations ∪ {[ (value_relation_type, relation_string) ]})
    values ∅.

Definition record_relations (version : AptVersion)
    (record_field : string) (relation_type : Z) (or_relation_type : option Z)
  : gset record_relation :=
  match v_record version with
  | Some record =>
      parse_record_field record record_field relation_type or_relation_type
  | None => ∅
  end.

(** [build_skeleton_apt].  Both [str] and [unicode] texts are [string]
    here and the texts are taken to be ASCII, so [with_unicode] converts
    nothing.  [v_str version] is what ["%s"] makes of the [Version] object
    itself in the two name relations. *)
Definition build_skeleton_apt (version : AptVersion)
    (with_info with_unicode : bool) : AptSkeleton :=
  let name := v_package_name version in
  let version_string := v_version version in
  let skeleton :=
    mkAptSkeleton DEB_PACKAGE name version_string [] None None None None
      None in
  let relations : gset record_relation := ∅ in
  let relations :=
    relations ∪ record_relations version "Provides" DEB_PROVIDES None in
  let relations :=
    relations
    ∪ {[ (Some DEB_NAME_PROVIDES, name +:+ " = " +:+ v_str version) ]} in
  let relations :=
    relations
    ∪ record_relations version "Pre-Depends" DEB_REQUIRES
        (Some DEB_OR_REQUIRES) in
  let relations :=
    relations
    ∪ record_relations version "Depends" DEB_REQUIRES
        (Some DEB_OR_REQUIRES) in
  let relations :=
    relations
    ∪ {[ (Some DEB_UPGRADES, name +:+ " < " +:+ v_str version) ]} in
  let relations :=
    relations ∪ record_relations version "Conflicts" DEB_CONFLICTS None in
  let relations :=
    relations ∪ record_relations version "Breaks" DEB_CONFLICTS None in
  let skeleton :=
    set_apt_relations (Py.sorted record_relation_lt (elements relations))
      skeleton in
  if with_info then
    mkAptSkeleton (apt_type skeleton) (apt_name skeleton)
      (apt_version skeleton) (apt_relations skeleton)
      (Some (v_section version)) (Some (v_summary version))
      (Some (v_description version)) (Some (v_size version))
      (if 0 <? v_installed_size version
       then Some (v_installed_size version) else None)
  else skeleton.
End Build.

(** The type that [build_skeleton_apt] gives an entry of a field of the
    record with the given number of alternatives. *)
Definition field_type (field : string) (alternatives : nat) : option Z :=
  if String.eqb field "Provides"
  then (if (1 <? alternatives)%nat then None else Some DEB_PROVIDES)
  else if String.eqb field "Pre-Depends" || String.eqb field "Depends"
  then Some (if (1 <? alternatives)%nat then DEB_OR_REQUIRES
             else DEB_REQUIRES)
  else (if (1 <? alternatives)%nat then None else Some DEB_CONFLICTS).

(** The five fields of the record that [build_skeleton_apt] reads. *)
Definition record_fields : list string :=
  ["Provides"; "Pre-Depends"; "Depends"; "Conflicts"; "Breaks"].

End Skeleton.

(** ** The order of the relations *)

(** The order [Py.pair_lt] is the strict part of: [a <= b] when [b < a]
    fails. *)
Definition pair_le (a b : Z * string) : Prop := Py.pair_lt b a = false.

(** Lexicographic order on [(kind, description)], stated on its own. *)
Definition lex_le (a b : Z * string) : Prop :=
  a.1 < b.1 ∨ (a.1 = b.1 ∧ String.le a.2 b.2).

(** The order of Python 2 on [(type, info)] where the type may be
    [None], stated on its own: [None] comes before every number. *)
Definition record_le (a b : Skeleton.record_relation) : Prop :=
  match a.1, b.1 with
  | None, None => String.le a.2 b.2
  | None, Some _ => True
  | Some _, None => False
  | Some x, Some y => x < y ∨ (x = y ∧ String.le a.2 b.2)
  end.

(** ** Skeletons for the examples *)

(** Two skeletons with the same relations, added in different orders; the
    second has its information fields filled in. *)
Definition skeleton_ab : Skeleton.PackageSkeleton :=
  Skeleton.add_relation
    (Skeleton.add_relation (Skeleton.new Skeleton.DEB_PACKAGE "foo" "1.0")
       Skeleton.DEB_REQUIRES "libc6")
    Skeleton.DEB_PROVIDES "bar".

Definition skeleton_ba_info : Skeleton.PackageSkeleton :=
  let s :=
    Skeleton.add_relation
      (Skeleton.add_relation (Skeleton.new Skeleton.DEB_PACKAGE "foo" "1.0")
         Skeleton.DEB_PROVIDES "bar")
      Skeleton.DEB_REQUIRES "libc6" in
  Skeleton.mkSkeleton (Skeleton.type s) (Skeleton.name s) (Skeleton.version s)
    (Skeleton.relations s) (Some "utils") (Some "Foo") (Some "Foo tool")
    (Some 1024) (Some 4096).

(** An Apt version with a [Depends] field, and what [apt_pkg.parse_depends]
    makes of that field. *)
Definition foo_depends : string := "libc6 (>= 2.4), debconf | cdebconf".

Definition parse_foo (field : string)
  : list (list (string * string * string)) :=
  if String.eqb field foo_depends
  then [[("libc6", "2.4", ">=")]; [("debconf", "", ""); ("cdebconf", "", "")]]
  else [].

Definition foo_version : Skeleton.AptVersion :=
  Skeleton.mkAptVersion "foo" "1.0" "foo=1.0"
    (Some (λ field, if String.eqb field "Depends" then foo_depends else ""))
    "utils" "Foo" "The foo tool" 1024 4096.

(** An Apt version whose [Conflicts] field has an entry with
    alternatives. *)
Definition mail_conflicts : string := "sendmail | postfix".

Definition parse_mail (field : string)
  : list (list (string * string * string)) :=
  if String.eqb field mail_conflicts
  then [[("sendmail", "", ""); ("postfix", "", "")]]
  else [].

Definition exim_version : Skeleton.AptVersion :=
  Skeleton.mkAptVersion "exim" "4.0" "exim=4.0"
    (Some (λ field,
             if String.eqb field "Conflicts" then mail_conflicts else ""))
    "mail" "Exim" "The exim mailer" 2048 8192.

(** A relation added twice is hashed twice: the relation lists of these two
    skeletons are equal as sets, and the hashes differ. *)
Definition skeleton_once : Skeleton.PackageSkeleton :=
  Skeleton.add_relation (Skeleton.new Skeleton.DEB_PACKAGE "foo" "1.0")
    Skeleton.DEB_REQUIRES "libc6".

Definition skeleton_twice : Skeleton.PackageSkeleton :=
  Skeleton.add_relation skeleton_once Skeleton.DEB_REQUIRES "libc6".

(** ** [landscape/package/facade.py] *)

Module Facade.

(** *** Apt objects *)

(** An [apt.package.Package] as a value: its [name], and its [shortname]
    where the release has that attribute.  What Apt knows about the package
    (installed version, marks, ...) is read from the cache. *)
Record Package := mkPackage { name : string; shortname : option string }.

(** An [apt.package.Version]: the [package] it belongs to and its
    [version] text.  python-apt compares versions by their text; the facade
    compares a version with the installed version of its own package, or
    compares tuples of package and version, and both are the equality of
    these records for versions that Apt gives under their own package. *)
Record Version := mkVersion { package : Package; version : string }.

#[global] Instance Package_eq_dec : EqDecision Package.
Proof. solve_decision. Defined.

#[global] Instance Package_countable : Countable Package.
Proof.
  apply (inj_countable' (λ p, (name p, shortname p))
                        (λ t, mkPackage t.1 t.2)).
  by intros [].
Defined.

#[global] Instance Version_eq_dec : EqDecision Version.
Proof. solve_decision. Defined.

#[global] Instance Version_countable : Countable Version.
Proof.
  apply (inj_countable' (λ v, (package v, version v))
                        (λ t, mkVersion t.1 t.2)).
  by intros [].
Defined.

(** One alternative of a dependency (an [apt_pkg.Dependency]):
    [all_targets] lists the [parent_pkg] of each version that
    [all_targets()] returns, and [target_ver] is empty for a dependency on
    a name only. *)
Record DepRelation := mkDepRelation {
  target_pkg : Package;
  target_ver : string;
  comp_type : string;
  all_targets : list Package
}.

(** A dependency is the list of its alternatives. *)
Definition Dependency : Type := list DepRelation.

(** [apt_pkg.SELSTATE_HOLD] and [apt_pkg.CURSTATE_INSTALLED]. *)
Definition SELSTATE_HOLD : Z := 2.
Definition CURSTATE_INSTALLED : Z := 6.

(** What [cache.commit] leaves behind: the cache, the text of the fetch
    progress, the text dpkg wrote, the message of the [SystemError] it
    raised if it did, and whether dpkg exited ([dpkg_exited]). *)
Record Commit (Cache : Type) := mkCommit {
  commit_cache : Cache;
  fetch_output : string;
  install_output : string;
  commit_error : option string;
  dpkg_exited : bool
}.
Arguments mkCommit {Cache}.
Arguments commit_cache {Cache}.
Arguments fetch_output {Cache}.
Arguments install_output {Cache}.
Arguments commit_error {Cache}.
Arguments dpkg_exited {Cache}.

(** What the facade uses of python-apt and of [landscape.constants].  The
    state of the cache, of its dependency cache and of the problem resolver
    made for it is one value of [Cache]; reading an attribute is a function
    of it, and an operation returns the new value. *)
Class Apt (Cache : Type) := {
  (** [landscape.constants.UBUNTU_PATH] *)
  UBUNTU_PATH : string;
  (** [<] on versions ([apt_pkg.version_compare]) *)
  version_lt : Version → Version → bool;
  (** [name in cache] and [cache[name]] *)
  cache_lookup : Cache → string → option Package;
  (** attributes of a package *)
  installed : Cache → Package → option Version;
  candidate : Cache → Package → option Version;
  marked_install : Cache → Package → bool;
  marked_upgrade : Cache → Package → bool;
  marked_downgrade : Cache → Package → bool;
  marked_delete : Cache → Package → bool;
  is_inst_broken : Cache → Package → bool;
  selected_state : Cache → Package → Z;
  current_state : Cache → Package → Z;
  (** [package.candidate._cand.depends_list.get(dep_type, [])] *)
  depends_list : Cache → Package → string → list Dependency;
  (** [cache.get_changes()] *)
  get_changes : Cache → list Package;
  (** [version.package.candidate = version] *)
  set_candidate : Version → Cache → Cache;
  (** [package.mark_install(auto_fix=False)] *)
  package_mark_install : Package → Cache → Cache;
  (** [package.mark_delete(auto_fix=False)] *)
  package_mark_delete : Package → Cache → Cache;
  (** [cache.upgrade(dist_upgrade=True)] *)
  cache_upgrade : Cache → Cache;
  (** [cache.clear()] *)
  cache_clear : Cache → Cache;
  (** [apt_pkg.ProblemResolver(depcache)] and its methods; [resolve]
      gives the message of the [SystemError] it raises, if it does *)
  fixer_new : Cache → Cache;
  fixer_clear : Package → Cache → Cache;
  fixer_protect : Package → Cache → Cache;
  fixer_remove : Package → Cache → Cache;
  fixer_install_protect : Cache → Cache;
  fixer_resolve : Cache → option string * Cache;
  (** [cache.commit(fetch_progress, install_progress)] *)
  cache_commit : Cache → Commit Cache
}.

(** *** Exceptions and outcomes *)

Inductive exn :=
| TransactionError (message : string)
| DependencyError (packages : list (option Version))
| ChannelError (message : string)
| TypeError
| AttributeError.

Inductive result (A : Type) :=
| Ok (value : A)
| Raise (error : exn).
Arguments Ok {A} value.
Arguments Raise {A} error.

#[global] Instance result_ret : MRet result := λ A a, Ok a.
#[global] Instance result_bind : MBind result := λ A B k r,
  match r with
  | Ok a => k a
  | Raise e => Raise e
  end.

(** The calls the facade makes that change something outside of it: the
    operations of the cache and of the resolver, and the [dpkg
    --set-selections] subprocess with the text it is given. *)
Inductive call :=
| CallSetCandidate (v : Version)
| CallMarkInstall (p : Package)
| CallMarkDelete (p : Package)
| CallUpgrade
| CallClear
| CallFixerNew
| CallFixerClear (p : Package)
| CallFixerProtect (p : Package)
| CallFixerRemove (p : Package)
| CallFixerInstallProtect
| CallFixerResolve
| CallCommit
| CallDpkgSetSelections (selection : string).

#[global] Instance call_eq_dec : EqDecision call.
Proof. solve_decision. Defined.

Section AptFacade.
Context {Cache : Type} `{!Apt Cache}.

(** The attributes of an [AptFacade] that the methods below use, and what
    they reach outside of the object: [os.environ], the [DPkg::options]
    list of [apt_pkg.config], the internal sources file ([None] when it
    does not exist), and the calls made so far. *)
Record State := mkState {
  _cache : Cache;
  _hash2pkg : gmap (list Z) Version;
  _version_installs : list Version;
  _global_upgrade : bool;
  _version_removals : list Version;
  _version_hold_creations : list Version;
  _version_hold_removals : list Version;
  environ : gmap string string;
  dpkg_options : list string;
  sources_file : option string;
  calls : list call
}.

Definition set_cache (c : Cache) (s : State) : State :=
  mkState c (_hash2pkg s) (_version_installs s) (_global_upgrade s)
    (_version_removals s) (_version_hold_creations s)
    (_version_hold_removals s) (environ s) (dpkg_options s) (sources_file s)
    (calls s).

Definition set_marks (installs : list Version) (global_upgrade : bool)
    (removals hold_creations hold_removals : list Version) (s : State)
  : State :=
  mkState (_cache s) (_hash2pkg s) installs global_upgrade removals
    hold_creations hold_removals (environ s) (dpkg_options s)
    (sources_file s) (calls s).

Definition set_environ (env : gmap string string) (s : State) : State :=
  mkState (_cache s) (_hash2pkg s) (_version_installs s) (_global_upgrade s)
    (_version_removals s) (_version_hold_creations s)
    (_version_hold_removals s) env (dpkg_options s) (sources_file s)
    (calls s).

Definition set_dpkg_options (options : list string) (s : State) : State :=
  mkState (_cache s) (_hash2pkg s) (_version_installs s) (_global_upgrade s)
    (_version_removals s) (_version_hold_creations s)
    (_version_hold_removals s) (environ s) options (sources_file s)
    (calls s).

Definition set_sources_file (file : option string) (s : State) : State :=
  mkState (_cache s) (_hash2pkg s) (_version_installs s) (_global_upgrade s)
    (_version_removals s) (_version_hold_creations s)
    (_version_hold_removals s) (environ s) (dpkg_options s) file (calls s).

Definition add_call (c : call) (s : State) : State :=
  mkState (_cache s) (_hash2pkg s) (_version_installs s) (_global_upgrade s)
    (_version_removals s) (_version_hold_creations s)
    (_version_hold_removals s) (environ s) (dpkg_options s) (sources_file s)
    (calls s ++ [c]).

(** A method: from the state before to the outcome and the state after. *)
Definition M (A : Type) : Type := State → result A * State.

#[global] Instance M_ret : MRet M := λ A a s, (Ok a, s).
#[global] Instance M_bind : MBind M := λ A B k m s,
  match m s with
  | (Ok a, s') => k a s'
  | (Raise e, s') => (Raise e, s')
  end.

Definition raise {A : Type} (e : exn) : M A := λ s, (Raise e, s).
Definition get : M State := λ s, (Ok s, s).
Definition modify (f : State → State) : M unit := λ s, (Ok tt, f s).
Definition lift {A : Type} (r : result A) : M A := λ s, (r, s).

(** [for x in xs: body]. *)
Fixpoint for_each {A : Type} (xs : list A) (body : A → M unit) : M unit :=
  match xs with
  | [] => mret tt
  | x :: rest => body x ;; for_each rest body
  end.

(** An operation of the cache or of the resolver. *)
Definition cache_call (c : call) (f : Cache → Cache) : M unit :=
  modify (λ s, set_cache (f (_cache s)) (add_call c s)).

(** [get_packages]: the values of [_hash2pkg]. *)
Definition get_packages (s : State) : list Version :=
  (map_to_list (_hash2pkg s)).*2.

(** [_set_dpkg_selections]: runs [dpkg --set-selections] on the text.  The
    cache keeps the selection states it read when it was opened. *)
Definition _set_dpkg_selections (selection : string) : M unit :=
  modify (add_call (CallDpkgSetSelections selection)).

(** [is_package_installed]: [version == version.package.installed]. *)
Definition is_package_installed (s : State) (v : Version) : bool :=
  bool_decide (installed (_cache s) (package v) = Some v).

(** [_is_package_held]. *)
Definition _is_package_held (s : State) (p : Package) : bool :=
  selected_state (_cache s) p =? SELSTATE_HOLD.

(** [set_package_hold]. *)
Definition set_package_hold (v : Version) : M unit :=
  _set_dpkg_selections (name (package v) +:+ " hold").

(** [remove_package_hold]. *)
Definition remove_package_hold (v : Version) : M unit :=
  s ← get;
  if negb (is_package_installed s v) || negb (_is_package_held s (package v))
  then mret tt
  else _set_dpkg_selections (name (package v) +:+ " install").

(** [_is_main_architecture]. *)
Definition _is_main_architecture (p : Package) : bool :=
  match shortname p with
  | None => true
  | Some short => String.eqb (name p) short
  end.

(** [_get_broken_packages]. *)
Definition _get_broken_packages (s : State) : gset Package :=
  list_to_set
    (package <$> filter (λ v, is_inst_broken (_cache s) (package v) = true)
                        (get_packages s)).

(** [_get_changed_versions]; the result is [None] where the source
    returns [None]. *)
Definition _get_changed_versions (c : Cache) (p : Package)
  : option (list (option Version)) :=
  if marked_install c p then Some [candidate c p]
  else if marked_upgrade c p || marked_downgrade c p
       then Some [installed c p; candidate c p]
  else if marked_delete c p then Some [installed c p]
  else None.

(** The loop of [_check_changes] over [get_changes()].  Iterating over
    [None] raises [TypeError]. *)
Fixpoint collect_changes (c : Cache) (packages : list Package)
    (versions_to_be_changed : gset (Package * option Version))
  : result (gset (Package * option Version)) :=
  match packages with
  | [] => Ok versions_to_be_changed
  | p :: rest =>
      if negb (_is_main_architecture p)
      then collect_changes c rest versions_to_be_changed
      else match _get_changed_versions c p with
           | None => Raise TypeError
           | Some versions =>
               collect_changes c rest
                 (versions_to_be_changed
                  ∪ list_to_set ((λ v, (p, v)) <$> versions))
           end
  end.

(** [_check_changes]. *)
Definition _check_changes (requested_changes : list Version) : M bool :=
  s ← get;
  let all_changes : list (Package * option Version) :=
    (λ v, (package v, Some v)) <$> requested_changes in
  versions_to_be_changed ←
    lift (collect_changes (_cache s) (get_changes (_cache s)) ∅);
  let dependencies := versions_to_be_changed ∖ list_to_set all_changes in
  if negb (bool_decide (dependencies = ∅))
  then raise (DependencyError ((elements dependencies).*2))
  else mret (bool_decide (0 < size versions_to_be_changed)%nat).

(** The text of [version.version] for a version that may be [None]. *)
Definition version_text (v : option Version) : result string :=
  match v with
  | Some v => Ok (version v)
  | None => Raise AttributeError
  end.

(** [_get_unmet_relation_info]. *)
Definition _get_unmet_relation_info (c : Cache) (dep_relation : DepRelation)
  : result string :=
  let info := name (target_pkg dep_relation) in
  let info :=
    if negb (String.eqb (target_ver dep_relation) "")
    then info +:+ " (" +:+ comp_type dep_relation +:+ " "
              +:+ target_ver dep_relation +:+ ")"
    else info in
  reason ←
    match cache_lookup c (name (target_pkg dep_relation)) with
    | Some dep_package =>
        if bool_decide (is_Some (installed c dep_package))
           || marked_install c dep_package
        then
          version ← version_text (candidate c dep_package);
          version ←
            (if negb (bool_decide (dep_package ∈ get_changes c))
             then version_text (installed c dep_package)
             else Ok version);
          Ok (" but " +:+ version +:+ " is to be installed")
        else Ok " but is not installable"
    | None => Ok " but is not installable"
    end;
  Ok (info +:+ reason).

(** The loop over the targets of one alternative: [Some r] when the loop
    returns [r], [None] when it runs to its end. *)
Fixpoint scan_targets (c : Cache) (is_positive : bool)
    (targets : list Package) : option bool :=
  match targets with
  | [] => None
  | p :: rest =>
      if ((current_state c p =? CURSTATE_INSTALLED) || marked_install c p)
         && negb (marked_delete c p)
      then Some is_positive
      else scan_targets c is_positive rest
  end.

Fixpoint scan_dependency (c : Cache) (is_positive : bool)
    (dependency : Dependency) : option bool :=
  match dependency with
  | [] => None
  | or_dep :: rest =>
      match scan_targets c is_positive (all_targets or_dep) with
      | Some r => Some r
      | None => scan_dependency c is_positive rest
      end
  end.

(** [_is_dependency_satisfied]. *)
Definition _is_dependency_satisfied (c : Cache) (dependency : Dependency)
    (dep_type : string) : bool :=
  let is_positive := negb (Py.contains dep_type ["Breaks"; "Conflicts"]) in
  match scan_dependency c is_positive dependency with
  | Some r => r
  | None => negb is_positive
  end.

(** [[f(x) for x in xs]] for an [f] that may raise. *)
Fixpoint map_result {A B : Type} (f : A → result B) (xs : list A)
  : result (list B) :=
  match xs with
  | [] => Ok []
  | x :: rest => y ← f x; ys ← map_result f rest; Ok (y :: ys)
  end.

(** The lines of the report for the dependencies of one kind of one
    package. *)
Fixpoint unmet_lines (c : Cache) (p : Package) (dep_type : string)
    (dependencies : list Dependency) : result (list string) :=
  match dependencies with
  | [] => Ok []
  | dependency :: rest =>
      if _is_dependency_satisfied c dependency dep_type
      then unmet_lines c p dep_type rest
      else
        relation_infos ← map_result (_get_unmet_relation_info c) dependency;
        let info := "  " +:+ name p +:+ ": " +:+ dep_type +:+ ": " in
        let or_divider :=
          " or" +:+ Py.newline +:+ Py.spaces (String.length info) in
        lines ← unmet_lines c p dep_type rest;
        Ok ((info +:+ Py.join or_divider relation_infos) :: lines)
  end.

(** [_get_unmet_dependency_info]. *)
Definition _get_unmet_dependency_info (s : State) : result string :=
  let c := _cache s in
  let broken_packages := _get_broken_packages s in
  if bool_decide (broken_packages = ∅) then Ok ""
  else
    per_package ←
      map_result
        (λ p,
           per_type ←
             map_result
               (λ dep_type,
                  match candidate c p with
                  | None => Raise AttributeError
                  | Some _ =>
                      unmet_lines c p dep_type (depends_list c p dep_type)
                  end)
               ["PreDepends"; "Depends"; "Conflicts"; "Breaks"];
           Ok (concat per_type))
        (Py.sorted (λ a b, String.ltb (name a) (name b))
                   (elements broken_packages));
    Ok (Py.join Py.newline
          ("The following packages have unmet dependencies:"
           :: concat per_package)).

(** [os.environ[key] = value]. *)
Definition setenv (key value : string) : M unit :=
  modify (λ s, set_environ (<[key := value]> (environ s)) s).

(** The first lines of [perform_changes]: the frontends are made
    non-interactive, [PATH] gets a value if it has none, and
    [DPkg::options] is cleared and given [--force-confold]. *)
Definition enforce_non_interactivity : M unit :=
  setenv "DEBIAN_FRONTEND" "noninteractive" ;;
  setenv "APT_LISTCHANGES_FRONTEND" "none" ;;
  setenv "APT_LISTBUGS_FRONTEND" "none" ;;
  s ← get;
  (if bool_decide (environ s !! "PATH" = None)
   then setenv "PATH" UBUNTU_PATH
   else mret tt) ;;
  modify (set_dpkg_options []) ;;
  modify (λ s, set_dpkg_options (dpkg_options s ++ ["--force-confold"]) s).

(** The body of [if hold_changes:] in [perform_changes]. *)
Definition change_holds : M unit :=
  s ← get;
  let not_installed :=
    filter (λ v, is_package_installed s v = false)
           (_version_hold_creations s) in
  (if negb (bool_decide (not_installed = []))
   then raise (TransactionError
                 ("Cannot perform the changes, since the following "
                  +:+ ("packages are not installed: "
                       +:+ Py.join ", "
                             ((λ v, name (package v))
                                <$> Py.sorted version_lt not_installed))))
   else for_each (_version_hold_creations s) set_package_hold) ;;
  for_each (_version_hold_removals s) remove_package_hold.

(** The loop over [_version_removals] in [perform_changes];
    [held_package_names] is the set the loop adds to. *)
Fixpoint mark_removals (removals : list Version)
    (package_upgrades : gset Package) (held_package_names : gset string)
  : M (gset string) :=
  match removals with
  | [] => mret held_package_names
  | v :: rest =>
      s ← get;
      let held_package_names :=
        if _is_package_held s (package v)
        then held_package_names ∪ {[ name (package v) ]}
        else held_package_names in
      (if bool_decide (package v ∈ package_upgrades)
       then mret tt
       else
         cache_call (CallMarkDelete (package v))
                    (package_mark_delete (package v)) ;;
         cache_call (CallFixerClear (package v)) (fixer_clear (package v)) ;;
         cache_call (CallFixerProtect (package v))
                    (fixer_protect (package v)) ;;
         cache_call (CallFixerRemove (package v)) (fixer_remove (package v)) ;;
         cache_call CallFixerInstallProtect fixer_install_protect) ;;
      mark_removals rest package_upgrades held_package_names
  end.

(** [fixer.resolve(True)] with the handler of [SystemError] around it. *)
Definition resolve_problems : M unit :=
  s ← get;
  let '(failure, c) := fixer_resolve (_cache s) in
  modify (λ s, set_cache c (add_call CallFixerResolve s)) ;;
  match failure with
  | None => mret tt
  | Some message =>
      s ← get;
      info ← lift (_get_unmet_dependency_info s);
      raise (TransactionError (message +:+ Py.newline +:+ info))
  end.

(** [perform_changes] from the making of the resolver up to the call of
    [_check_changes]: the marks are applied to the cache, removals of held
    packages are refused, and the resolver runs if the set of broken
    packages changed. *)
Definition mark_versions (package_upgrades : gset Package) : M unit :=
  cache_call CallFixerNew fixer_new ;;
  s ← get;
  let already_broken_packages := _get_broken_packages s in
  for_each (_version_installs s)
    (λ v,
       cache_call (CallSetCandidate v) (set_candidate v) ;;
       cache_call (CallMarkInstall (package v))
                  (package_mark_install (package v)) ;;
       cache_call (CallFixerClear (package v)) (fixer_clear (package v)) ;;
       cache_call (CallFixerProtect (package v))
                  (fixer_protect (package v))) ;;
  (if _global_upgrade s then cache_call CallUpgrade cache_upgrade
   else mret tt) ;;
  held_package_names ←
    mark_removals (_version_removals s) package_upgrades ∅;
  (if negb (bool_decide (held_package_names = ∅))
   then raise (TransactionError
                 ("Can't perform the changes, since the following packages"
                  +:+ (" are held: "
                       +:+ Py.join ", "
                             (Py.sorted String.ltb
                                        (elements held_package_names)))))
   else mret tt) ;;
  s ← get;
  let now_broken_packages := _get_broken_packages s in
  if negb (bool_decide (now_broken_packages = already_broken_packages))
  then resolve_problems
  else mret tt.

(** The end of [perform_changes]: the commit with its handlers.  The
    redirection of the output of dpkg to a temporary file is left out; what
    that file holds afterwards is [install_output]. *)
Definition commit_changes : M (option string) :=
  s ← get;
  let done := cache_commit (_cache s) in
  modify (λ s, set_cache (commit_cache done) (add_call CallCommit s)) ;;
  let failure :=
    match commit_error done with
    | Some message => Some message
    | None =>
        if negb (dpkg_exited done) then Some "dpkg didn't exit cleanly."
        else None
    end in
  let result_text := fetch_output done +:+ install_output done in
  match failure with
  | Some message =>
      raise (TransactionError
               (message
                +:+ (Py.newline +:+ Py.newline +:+ "Package operation log:"
                     +:+ Py.newline)
                +:+ result_text))
  | None => mret (Some result_text)
  end.

(** [package_upgrades] of [perform_changes]. *)
Definition package_upgrades_of (s : State) : gset Package :=
  let package_installs : gset Package :=
    list_to_set (package <$> _version_installs s) in
  list_to_set
    (package <$> filter (λ v, package v ∈ package_installs)
                        (_version_removals s)).

(** [perform_changes].  [None] is the result for nothing to do.  When the
    version block is skipped, [result_text] is the text the hold block
    gave it. *)
Definition perform_changes : M (option string) :=
  enforce_non_interactivity ;;
  s ← get;
  let package_upgrades := package_upgrades_of s in
  let version_changes := _version_installs s ++ _version_removals s in
  let hold_changes :=
    _version_hold_creations s ++ _version_hold_removals s in
  if bool_decide (hold_changes = []) && bool_decide (version_changes = [])
     && negb (_global_upgrade s)
  then mret None
  else
    (if negb (bool_decide (hold_changes = [])) then change_holds
     else mret tt) ;;
    if negb (bool_decide (version_changes = [])) || _global_upgrade s
    then
      mark_versions package_upgrades ;;
      changed ← _check_changes version_changes;
      if negb changed then mret None else commit_changes
    else mret (Some "Package holds successfully changed.").

(** [reset_marks]. *)
Definition reset_marks : M unit :=
  modify (set_marks [] false [] [] []) ;;
  cache_call CallClear cache_clear.

(** [mark_install]. *)
Definition mark_install (v : Version) : M unit :=
  modify (λ s, set_marks (_version_installs s ++ [v]) (_global_upgrade s)
                 (_version_removals s) (_version_hold_creations s)
                 (_version_hold_removals s) s).

(** [mark_global_upgrade]. *)
Definition mark_global_upgrade : M unit :=
  modify (λ s, set_marks (_version_installs s) true (_version_removals s)
                 (_version_hold_creations s) (_version_hold_removals s) s).

(** [mark_remove]. *)
Definition mark_remove (v : Version) : M unit :=
  modify (λ s, set_marks (_version_installs s) (_global_upgrade s)
                 (_version_removals s ++ [v]) (_version_hold_creations s)
                 (_version_hold_removals s) s).

(** [mark_create_hold]. *)
Definition mark_create_hold (v : Version) : M unit :=
  modify (λ s, set_marks (_version_installs s) (_global_upgrade s)
                 (_version_removals s) (_version_hold_creations s ++ [v])
                 (_version_hold_removals s) s).

(** [mark_remove_hold]. *)
Definition mark_remove_hold (v : Version) : M unit :=
  modify (λ s, set_marks (_version_installs s) (_global_upgrade s)
                 (_version_removals s) (_version_hold_creations s)
                 (_version_hold_removals s ++ [v]) s).

(** The line [add_channel_apt_deb] makes of its arguments; [components] is
    [None] when it is left out. *)
Definition sources_line (url codename : string)
    (components : option (list string)) : string :=
  let line := "deb " +:+ url +:+ " " +:+ codename in
  match components with
  | Some (c :: cs) => line +:+ " " +:+ Py.join " " (c :: cs)
  | _ => line
  end.

(** Modelled from the spec: [landscape.lib.fs.append_file], which is not
    among the sources.  As the re-adding of a line needs it, the text is
    put at the end of the file, and a file that does not exist is made. *)
Definition append_file (text : string) : M unit :=
  modify (λ s, set_sources_file
                 (Some (from_option id "" (sources_file s) +:+ text)) s).

(** [add_channel_apt_deb], on the internal sources file. *)
Definition add_channel_apt_deb (url codename : string)
    (components : option (list string)) : M unit :=
  s ← get;
  let sources_line := sources_line url codename components in
  let found :=
    match sources_file s with
    | Some current =>
        Py.contains sources_line (Py.split Py.LF current)
    | None => false
    end in
  if found then mret tt
  else append_file (sources_line +:+ Py.newline).

(** [clear_channels]. *)
Definition clear_channels : M unit := modify (set_sources_file None).

(** [perform_changes] up to its call of [_check_changes], for a queue that
    holds version changes or the global upgrade. *)
Definition before_check : M unit :=
  enforce_non_interactivity ;;
  s ← get;
  (if negb (bool_decide
              (_version_hold_creations s ++ _version_hold_removals s = []))
   then change_holds
   else mret tt) ;;
  mark_versions (package_upgrades_of s).

(** The environment as the first lines of [perform_changes] leave it. *)
Definition frontends (env : gmap string string) : gmap string string :=
  <["APT_LISTBUGS_FRONTEND" := "none"]>
    (<["APT_LISTCHANGES_FRONTEND" := "none"]>
       (<["DEBIAN_FRONTEND" := "noninteractive"]> env)).

Definition non_interactive_environ (env : gmap string string)
  : gmap string string :=
  let env := frontends env in
  if bool_decide (env !! "PATH" = None) then <["PATH" := UBUNTU_PATH]> env
  else env.

(** The state as the first lines of [perform_changes] leave it: only
    [os.environ] and [DPkg::options] differ. *)
Definition non_interactive (s : State) : State :=
  mkState (_cache s) (_hash2pkg s) (_version_installs s) (_global_upgrade s)
    (_version_removals s) (_version_hold_creations s)
    (_version_hold_removals s) (non_interactive_environ (environ s))
    ["--force-confold"] (sources_file s) (calls s).

(** The pending marks: the four collections and the flag. *)
Definition pending_marks (s : State)
  : list Version * list Version * list Version * list Version * bool :=
  (_version_installs s, _version_removals s, _version_hold_creations s,
   _version_hold_removals s, _global_upgrade s).

(** The marks are the same in two states. *)
Definition same_marks (s s' : State) : Prop :=
  pending_marks s' = pending_marks s.

(** Between two states calls were made, none of them the commit. *)
Definition no_commit (s s' : State) : Prop :=
  ∃ made, calls s' = calls s ++ made ∧ CallCommit ∉ made.

(** Every package has the installed version and the selection state in the
    second state that it has in the first. *)
Definition same_packages (s s' : State) : Prop :=
  ∀ p, installed (_cache s') p = installed (_cache s) p
       ∧ selected_state (_cache s') p = selected_state (_cache s) p.

(** No mark is taken away between two states: each collection of the first
    begins the collection of the second, and the flag stays set. *)
Definition marks_kept (s s' : State) : Prop :=
  _version_installs s `prefix_of` _version_installs s'
  ∧ _version_removals s `prefix_of` _version_removals s'
  ∧ _version_hold_creations s `prefix_of` _version_hold_creations s'
  ∧ _version_hold_removals s `prefix_of` _version_hold_removals s'
  ∧ (_global_upgrade s = true → _global_upgrade s' = true).

(** The package has one of the four marks of Apt that stand for a change:
    install, upgrade, downgrade or delete. *)
Definition marked (c : Cache) (p : Package) : Prop :=
  marked_install c p = true ∨ marked_upgrade c p = true
  ∨ marked_downgrade c p = true ∨ marked_delete c p = true.

(** What Apt will do with the versions of a package, read from the marks
    of Apt alone: a package marked for install gets its candidate; a
    package marked for upgrade or downgrade loses its installed version and
    gets its candidate; a package marked for deletion loses its installed
    version.  Where several marks are set, the first in this order
    counts. *)
Definition apt_changes (c : Cache) (p : Package) (v : option Version)
  : Prop :=
  (marked_install c p = true ∧ v = candidate c p)
  ∨ (marked_install c p = false
     ∧ (marked_upgrade c p = true ∨ marked_downgrade c p = true)
     ∧ (v = installed c p ∨ v = candidate c p))
  ∨ (marked_install c p = false ∧ marked_upgrade c p = false
     ∧ marked_downgrade c p = false ∧ marked_delete c p = true
     ∧ v = installed c p).

(** A version that Apt will change, of a package of the main architecture
    that is in Apt's list of changes. *)
Definition planned (c : Cache) (pv : Package * option Version) : Prop :=
  pv.1 ∈ get_changes c
  ∧ _is_main_architecture pv.1 = true
  ∧ apt_changes c pv.1 pv.2.

(** A version that Apt will change, of a package of any architecture. *)
Definition in_change_plan (c : Cache) (pv : Package * option Version)
  : Prop :=
  pv.1 ∈ get_changes c ∧ apt_changes c pv.1 pv.2.

(** A version that was marked for install or for removal, with its
    package. *)
Definition requested (s : State) (pv : Package * option Version) : Prop :=
  ∃ v, v ∈ _version_installs s ++ _version_removals s
       ∧ pv = (package v, Some v).

(** The names of the held packages among the versions marked for
    removal. *)
Definition held_removals (s : State) : gset string :=
  list_to_set
    ((λ w, name (package w))
       <$> filter (λ w, _is_package_held s (package w) = true)
                  (_version_removals s)).

(** The text of the error for removals of held packages. *)
Definition held_message (names : list string) : string :=
  "Can't perform the changes, since the following packages are held: "
  +:+ Py.join ", " names.

(** Two states with the same cache and the same marks. *)
Definition same_inputs (s s' : State) : Prop :=
  _cache s' = _cache s ∧ pending_marks s' = pending_marks s.

(** A method respects a relation between the state before and the state
    after when every run of it does, whatever its outcome. *)
Definition respects (R : State → State → Prop) {A : Type} (m : M A)
  : Prop :=
  ∀ s r s', m s = (r, s') → R s s'.

(** A method that returns on every state. *)
Definition succeeds {A : Type} (m : M A) : Prop :=
  ∀ s, ∃ a s', m s = (Ok a, s').

(** The methods above that take no result out of the facade, as values. *)
Inductive method :=
| PerformChanges
| ResetMarks
| MarkInstall (v : Version)
| MarkGlobalUpgrade
| MarkRemove (v : Version)
| MarkCreateHold (v : Version)
| MarkRemoveHold (v : Version)
| AddChannelAptDeb (url codename : string) (components : option (list string))
| ClearChannels.

Definition invoke (m : method) : M unit :=
  match m with
  | PerformChanges => perform_changes ;; mret tt
  | ResetMarks => reset_marks
  | MarkInstall v => mark_install v
  | MarkGlobalUpgrade => mark_global_upgrade
  | MarkRemove v => mark_remove v
  | MarkCreateHold v => mark_create_hold v
  | MarkRemoveHold v => mark_remove_hold v
  | AddChannelAptDeb url codename components =>
      add_channel_apt_deb url codename components
  | ClearChannels => clear_channels
  end.

(** A target counts for a dependency when its package is installed or
    marked for install, and is not marked for deletion. *)
Definition target_counts (c : Cache) (p : Package) : Prop :=
  (current_state c p = CURSTATE_INSTALLED ∨ marked_install c p = true)
  ∧ marked_delete c p = false.

(** Some target of some alternative of the dependency counts. *)
Definition some_target_counts (c : Cache) (dependency : Dependency) : Prop :=
  ∃ or_dep p,
    or_dep ∈ dependency ∧ p ∈ all_targets or_dep ∧ target_counts c p.

(** An operation of the cache that leaves the installed version and the
    selection state of every package as they are. *)
Definition keeps_packages (f : Cache → Cache) : Prop :=
  ∀ c p, installed (f c) p = installed c p
         ∧ selected_state (f c) p = selected_state c p.

(** Marking and resolving only plan: what is installed and what is held
    changes when dpkg runs, not before. *)
Class Planning := {
  plan_set_candidate : ∀ v, keeps_packages (set_candidate v);
  plan_mark_install : ∀ p, keeps_packages (package_mark_install p);
  plan_mark_delete : ∀ p, keeps_packages (package_mark_delete p);
  plan_upgrade : keeps_packages cache_upgrade;
  plan_fixer_new : keeps_packages fixer_new;
  plan_fixer_clear : ∀ p, keeps_packages (fixer_clear p);
  plan_fixer_protect : ∀ p, keeps_packages (fixer_protect p);
  plan_fixer_remove : ∀ p, keeps_packages (fixer_remove p);
  plan_fixer_install_protect : keeps_packages fixer_install_protect;
  plan_fixer_resolve : keeps_packages (λ c, (fixer_resolve c).2)
}.

(** *** The calls of a transaction *)

(** The state with more calls in its log. *)
Definition with_calls (made : list call) (s : State) : State :=
  mkState (_cache s) (_hash2pkg s) (_version_installs s) (_global_upgrade s)
    (_version_removals s) (_version_hold_creations s)
    (_version_hold_removals s) (environ s) (dpkg_options s) (sources_file s)
    (calls s ++ made).

(** What the hold block gives to dpkg: [hold] for every version queued for
    a hold, then [install] for every version queued for the removal of its
    hold that is installed and held. *)
Definition hold_calls (s : State) : list call :=
  ((λ v, CallDpkgSetSelections (name (package v) +:+ " hold"))
     <$> _version_hold_creations s)
  ++ ((λ v, CallDpkgSetSelections (name (package v) +:+ " install"))
        <$> filter (λ v, is_package_installed s v
                         && _is_package_held s (package v) = true)
                   (_version_hold_removals s)).

(** The calls for one version marked for install, and for one package
    marked for deletion. *)
Definition install_calls (v : Version) : list call :=
  [CallSetCandidate v; CallMarkInstall (package v);
   CallFixerClear (package v); CallFixerProtect (package v)].

Definition removal_calls (p : Package) : list call :=
  [CallMarkDelete p; CallFixerClear p; CallFixerProtect p; CallFixerRemove p;
   CallFixerInstallProtect].

(** The calls that apply the marks to the cache: the resolver is made, the
    installs are marked, then the global upgrade, then the removals whose
    package is not upgraded. *)
Definition marking_calls (package_upgrades : gset Package) (s : State)
  : list call :=
  [CallFixerNew]
  ++ (_version_installs s ≫= install_calls)
  ++ (if _global_upgrade s then [CallUpgrade] else [])
  ++ (filter (λ v, package v ∉ package_upgrades) (_version_removals s)
        ≫= λ v, removal_calls (package v)).

(** The versions queued for a hold that are not installed. *)
Definition holds_not_installed (s : State) : list Version :=
  filter (λ v, is_package_installed s v = false) (_version_hold_creations s).

(** Calls of [add_channel_apt_deb], one after the other, each with its
    arguments. *)
Definition add_channels
    (channels : list (string * string * option (list string))) (s : State)
  : State :=
  foldl (λ s '(url, codename, components),
           (add_channel_apt_deb url codename components s).2)
        s channels.

(** The line of a channel given by its arguments. *)
Definition channel_line (channel : string * string * option (list string))
  : string :=
  sources_line channel.1.1 channel.1.2 channel.2.

(** The text of a file made of the lines, each ended by a line feed. *)
Definition lines_text (lines : list string) : string :=
  foldr (λ line text, line +:+ Py.newline +:+ text) "" lines.

End AptFacade.

Arguments State Cache : clear implicits.
Arguments M Cache A : clear implicits.
Arguments Planning Cache {_}.

End Facade.

(** ** A small cache

    An instance of [Apt] to run the facade on: packages are marked by
    putting them on a list, marking a package for install also marks the
    packages it needs (as Apt's automatic installation does), and the
    commit installs the candidates of the marked packages and removes the
    packages marked for deletion. *)

Module Toy.
Import Facade.

Record cache := mkCache {
  known : list Package;
  inst : list Version;
  cand : list Version;
  to_install : list Package;
  to_delete : list Package;
  held : list Package;
  broken : list Package;
  needs : list (Package * Package);
  depends : list (Package * string * list Dependency);
  resolver_failure : option string;
  dpkg_exits : bool
}.

Definition version_of (vs : list Version) (p : Package) : option Version :=
  find (λ v, bool_decide (package v = p)) vs.

Definition mem (p : Package) (ps : list Package) : bool :=
  bool_decide (p ∈ ps).

Definition set_marked (installs deletes : list Package) (c : cache) : cache :=
  mkCache (known c) (inst c) (cand c) installs deletes (held c) (broken c)
    (needs c) (depends c) (resolver_failure c) (dpkg_exits c).

(** A package can be marked for install when it has a candidate that is
    not the installed version. *)
Definition installable (c : cache) (p : Package) : bool :=
  match version_of (cand c) p with
  | Some v => negb (bool_decide (version_of (inst c) p = Some v))
  | None => false
  end.

Definition toy_mark_install (p : Package) (c : cache) : cache :=
  if installable c p then
    let needed :=
      filter (λ q, installable c q = true)
             ((λ pq, pq.2) <$> filter (λ pq, pq.1 = p) (needs c)) in
    set_marked (remove_dups (to_install c ++ p :: needed))
               (filter (λ q, q ≠ p) (to_delete c)) c
  else c.

Definition toy_mark_delete (p : Package) (c : cache) : cache :=
  if bool_decide (is_Some (version_of (inst c) p)) then
    set_marked (filter (λ q, q ≠ p) (to_install c))
               (remove_dups (to_delete c ++ [p])) c
  else c.

Definition toy_upgrade (c : cache) : cache :=
  let upgradable :=
    filter (λ p, is_Some (version_of (inst c) p) ∧ installable c p = true)
           (known c) in
  set_marked (remove_dups (to_install c ++ upgradable)) (to_delete c) c.

Definition toy_set_candidate (v : Version) (c : cache) : cache :=
  mkCache (known c) (inst c)
    (v :: filter (λ w, package w ≠ package v) (cand c))
    (to_install c) (to_delete c) (held c) (broken c) (needs c) (depends c)
    (resolver_failure c) (dpkg_exits c).

Definition toy_commit (c : cache) : Commit cache :=
  let gone := to_install c ++ to_delete c in
  let installed_now :=
    filter (λ v, package v ∉ gone) (inst c)
    ++ omap (version_of (cand c)) (to_install c) in
  mkCommit
    (mkCache (known c) installed_now (cand c) [] [] (held c) (broken c)
       (needs c) (depends c) (resolver_failure c) (dpkg_exits c))
    "" "" None (dpkg_exits c).

#[global] Instance toy_apt : Apt cache := {|
  UBUNTU_PATH := "/usr/local/sbin:/usr/local/bin:/usr/sbin:/usr/bin:/sbin:/bin";
  version_lt := λ v w, String.ltb (version v) (version w);
  cache_lookup := λ c n, find (λ p, String.eqb (name p) n) (known c);
  installed := λ c, version_of (inst c);
  candidate := λ c, version_of (cand c);
  marked_install := λ c p,
    mem p (to_install c) && negb (bool_decide (is_Some (version_of (inst c) p)));
  marked_upgrade := λ c p,
    mem p (to_install c) && bool_decide (is_Some (version_of (inst c) p));
  marked_downgrade := λ c p, false;
  marked_delete := λ c p, mem p (to_delete c);
  is_inst_broken := λ c p, mem p (broken c);
  selected_state := λ c p, if mem p (held c) then SELSTATE_HOLD else 1;
  current_state := λ c p,
    if bool_decide (is_Some (version_of (inst c) p)) then CURSTATE_INSTALLED
    else 0;
  depends_list := λ c p dep_type,
    from_option (λ entry, entry.2) []
      (find (λ entry, bool_decide (entry.1 = (p, dep_type))) (depends c));
  get_changes := λ c, remove_dups (to_install c ++ to_delete c);
  set_candidate := toy_set_candidate;
  package_mark_install := toy_mark_install;
  package_mark_delete := toy_mark_delete;
  cache_upgrade := toy_upgrade;
  cache_clear := set_marked [] [];
  fixer_new := id;
  fixer_clear := λ _, id;
  fixer_protect := λ _, id;
  fixer_remove := λ _, id;
  fixer_install_protect := id;
  fixer_resolve := λ c, (resolver_failure c, c);
  cache_commit := toy_commit
|}.

(** Packages and versions for the examples. *)
Definition pkg (n : string) : Package := mkPackage n (Some n).
Definition ver (n v : string) : Version := mkVersion (pkg n) v.

(** A package of a foreign architecture: its name carries the
    architecture, its short name does not. *)
Definition foreign (n arch : string) : Package :=
  mkPackage (n +:+ ":" +:+ arch) (Some n).

Definition empty_cache : cache :=
  mkCache [] [] [] [] [] [] [] [] [] None true.

(** A machine for the examples: [bash] is installed and held, [curl] is
    installed, [vim] needs [vim-runtime], and [wget] needs a library of a
    foreign architecture. *)
Definition libfoo_i386 : Package := foreign "libfoo" "i386".

Definition machine : cache :=
  mkCache
    [pkg "bash"; pkg "curl"; pkg "vim"; pkg "vim-runtime"; pkg "wget";
     libfoo_i386]
    [ver "bash" "5.0"; ver "curl" "7.0"]
    [ver "bash" "5.0"; ver "curl" "7.0"; ver "vim" "8.0";
     ver "vim-runtime" "8.0"; ver "wget" "1.0"; mkVersion libfoo_i386 "1.0"]
    [] [] [pkg "bash"] []
    [(pkg "vim", pkg "vim-runtime"); (pkg "wget", libfoo_i386)]
    [] None true.

(** The same machine with [vim] broken: it depends on a version of
    [vim-runtime] that is not to be installed, and on [bash]. *)
Definition needs_runtime : Dependency :=
  [mkDepRelation (pkg "vim-runtime") "8.0" ">=" [pkg "vim-runtime"]].
Definition needs_bash : Dependency :=
  [mkDepRelation (pkg "bash") "" "" [pkg "bash"]].

Definition broken_machine : cache :=
  mkCache (known machine) (inst machine) (cand machine) [] [] (held machine)
    [pkg "vim"] (needs machine)
    [((pkg "vim", "Depends"), [needs_runtime; needs_bash])]
    (Some "E: Unable to correct problems") true.

Definition catalogue : list Version :=
  [ver "bash" "5.0"; ver "curl" "7.0"; ver "vim" "8.0";
   ver "vim-runtime" "8.0"; ver "wget" "1.0"].

(** A facade with nothing marked, on the given cache and catalogue. *)
Definition facade (c : cache) (catalogue : list Version) : State cache :=
  mkState c
    (list_to_map
       ((λ v, ((Skeleton.get_hash
                  (Skeleton.new Skeleton.DEB_PACKAGE (name (package v))
                                (version v))).1, v)) <$> catalogue))
    [] false [] [] [] ∅ [] None [].

(** The state after the methods of the list were called, one after the
    other. *)
Definition after (methods : list method) (s : State cache) : State cache :=
  foldl (λ s m, (invoke m s).2) s methods.

Definition idle : State cache := facade machine catalogue.

(** [vim] is marked for install, [vim-runtime] is not. *)
Definition wants_vim : State cache :=
  after [MarkInstall (ver "vim" "8.0")] idle.

(** [wget] is marked for install. *)
Definition wants_wget : State cache :=
  after [MarkInstall (ver "wget" "1.0")] idle.

(** [vim], [vim-runtime] and the installed version of [curl] are marked for
    install. *)
Definition wants_vim_and_curl : State cache :=
  after [MarkInstall (ver "vim" "8.0"); MarkInstall (ver "vim-runtime" "8.0");
         MarkInstall (ver "curl" "7.0")] idle.

(** The held [bash] is marked for removal. *)
Definition removes_bash : State cache :=
  after [MarkRemove (ver "bash" "5.0")] idle.

(** A hold is queued for [vim], which is not installed. *)
Definition holds_vim : State cache :=
  after [MarkCreateHold (ver "vim" "8.0")] idle.

(** Both: the hold for [vim] and the removal of [bash]. *)
Definition holds_vim_removes_bash : State cache :=
  after [MarkCreateHold (ver "vim" "8.0"); MarkRemove (ver "bash" "5.0")] idle.

(** Holds only: a hold is queued for the installed [curl], and the removal
    of the hold of [bash]. *)
Definition changes_holds : State cache :=
  after [MarkCreateHold (ver "curl" "7.0"); MarkRemoveHold (ver "bash" "5.0")]
        idle.

(** A hold is queued for the installed [curl], and the held [bash] is
    marked for removal. *)
Definition holds_curl_removes_bash : State cache :=
  after [MarkCreateHold (ver "curl" "7.0"); MarkRemove (ver "bash" "5.0")]
        idle.

(** Channels for the examples: the second is added twice. *)
Definition channels : list (string * string * option (list string)) :=
  [("http://archive.ubuntu.com/ubuntu", "lucid", Some ["main"; "universe"]);
   ("http://ppa.launchpad.net/landscape/trunk/ubuntu", "lucid", None);
   ("http://ppa.launchpad.net/landscape/trunk/ubuntu", "lucid", None)].

End Toy.

(** ** [AptFacade]: the channels and the index of hashes *)

Module Catalogue.
Import Facade.

(** How [cache.update] ends: it returns, or raises [TypeError] (an old
    python-apt refuses the [sources_list] argument), or raises
    [FetchFailedException]; each with the cache it leaves. *)
Inductive update_outcome (Cache : Type) :=
| Updated (c : Cache)
| UpdateTypeError (c : Cache)
| FetchFailed (c : Cache).
Arguments Updated {Cache} c.
Arguments UpdateTypeError {Cache} c.
Arguments FetchFailed {Cache} c.

(** What [reload_channels] uses of python-apt besides [Apt]. *)
Class Channels (Cache : Type) := {
  (** [cache.open(None)] *)
  cache_open : Cache → Cache;
  (** [cache.update(sources_list=...)], and [cache.update()] for [None] *)
  cache_update : option string → Cache → update_outcome Cache;
  (** [for package in cache] *)
  cache_packages : Cache → list Package;
  (** [package.versions] *)
  package_versions : Cache → Package → list Version;
  (** what [build_skeleton_apt] reads of a version *)
  apt_version : Cache → Version → Skeleton.AptVersion;
  (** [apt_pkg.parse_depends] *)
  parse_depends : string → list (list (string * string * string));
  (** [_get_internal_sources_list()] *)
  internal_sources_list : string;
  (** [repr(self.get_channels())] *)
  channels_repr : Cache → string
}.

Section Catalogue.
Context {Cache : Type} `{!Apt Cache} `{!Channels Cache}.

(** An [AptFacade] with the attributes of the index: [base] holds the
    attributes modelled above, [_hash2pkg] among them. *)
Record AptFacade := mkAptFacade {
  base : State Cache;
  _pkg2hash : gmap (Package * Version) (list Z);
  _channels_loaded : bool;
  refetch_package_index : bool
}.

Definition with_cache (c : Cache) (f : AptFacade) : AptFacade :=
  mkAptFacade (set_cache c (base f)) (_pkg2hash f) (_channels_loaded f)
    (refetch_package_index f).

Definition set_hash2pkg (hash2pkg : gmap (list Z) Version) (s : State Cache)
  : State Cache :=
  mkState (_cache s) hash2pkg (_version_installs s) (_global_upgrade s)
    (_version_removals s) (_version_hold_creations s)
    (_version_hold_removals s) (environ s) (dpkg_options s) (sources_file s)
    (calls s).

(** [get_package_skeleton]. *)
Definition get_package_skeleton (c : Cache) (pkg : Version) (with_info : bool)
  : Skeleton.AptSkeleton :=
  Skeleton.build_skeleton_apt parse_depends (apt_version c pkg) with_info true.

(** The update inside [reload_channels], with its two handlers. *)
Definition update_channels (new_apt_args : option string) (c : Cache)
  : result unit * Cache :=
  let failed (c : Cache) :=
    (Raise (ChannelError
              ("Apt failed to reload channels (" +:+ channels_repr c +:+ ")")),
     c) in
  match cache_update new_apt_args c with
  | Updated c => (Ok tt, c)
  | UpdateTypeError c =>
      match cache_update None c with
      | Updated c => (Ok tt, c)
      | UpdateTypeError c => (Raise TypeError, c)
      | FetchFailed c => failed c
      end
  | FetchFailed c => failed c
  end.

(** [get_package_skeleton(version, with_info=False).get_hash()], the hash
    that the index gives a version; [None] where [get_hash] raises
    [TypeError]. *)
Definition version_hash (c : Cache) (version : Version) : option (list Z) :=
  (Skeleton.get_hash_apt (get_package_skeleton c version false)).1.

(** The two dictionaries of the index. *)
Definition Index : Type :=
  gmap (Package * Version) (list Z) * gmap (list Z) Version.

(** The body of the inner loop of [reload_channels]: the two dictionaries
    get the hash of the version, unless computing it raises. *)
Definition index_version (c : Cache) (package : Package) (index : Index)
    (version : Version) : result unit * Index :=
  match version_hash c version with
  | Some hash =>
      (Ok tt,
       (<[(package, version) := hash]> index.1, <[hash := version]> index.2))
  | None => (Raise TypeError, index)
  end.

(** The inner loop: it stops at the first version whose hash raises. *)
Fixpoint index_versions (c : Cache) (package : Package)
    (versions : list Version) (index : Index) : result unit * Index :=
  match versions with
  | [] => (Ok tt, index)
  | version :: rest =>
      match index_version c package index version with
      | (Ok _, index) => index_versions c package rest index
      | (Raise e, index) => (Raise e, index)
      end
  end.

(** The outer loop. *)
Fixpoint index_packages (c : Cache) (packages : list Package)
    (index : Index) : result unit * Index :=
  match packages with
  | [] => (Ok tt, index)
  | package :: rest =>
      if negb (_is_main_architecture package)
      then index_packages c rest index
      else
        match index_versions c package (package_versions c package) index with
        | (Ok _, index) => index_packages c rest index
        | (Raise e, index) => (Raise e, index)
        end
  end.

(** [reload_channels].  The two dictionaries are cleared before the loops,
    and [_channels_loaded] is set after them: where a hash raises, the
    dictionaries hold what the loops had entered and the flag is as it
    was. *)
Definition reload_channels (force_reload_binaries : bool) (f : AptFacade)
  : result unit * AptFacade :=
  let f := with_cache (cache_open (_cache (base f))) f in
  let '(updated, f) :=
    if refetch_package_index f
       || (force_reload_binaries
           && bool_decide (is_Some (sources_file (base f))))
    then
      let new_apt_args :=
        if force_reload_binaries && negb (refetch_package_index f)
        then Some internal_sources_list else None in
      match update_channels new_apt_args (_cache (base f)) with
      | (Ok _, c) => (Ok tt, with_cache (cache_open c) f)
      | (Raise e, c) => (Raise e, with_cache c f)
      end
    else (Ok tt, f) in
  match updated with
  | Raise e => (Raise e, f)
  | Ok _ =>
      let c := _cache (base f) in
      match index_packages c (cache_packages c) (∅, ∅) with
      | (Ok _, index) =>
          (Ok tt,
           mkAptFacade (set_hash2pkg index.2 (base f)) index.1 true
             (refetch_package_index f))
      | (Raise e, index) =>
          (Raise e,
           mkAptFacade (set_hash2pkg index.2 (base f)) index.1
             (_channels_loaded f) (refetch_package_index f))
      end
  end.

(** [ensure_channels_reloaded]. *)
Definition ensure_channels_reloaded (f : AptFacade)
  : result unit * AptFacade :=
  if _channels_loaded f then (Ok tt, f) else reload_channels false f.

(** [get_package_hash]. *)
Definition get_package_hash (f : AptFacade) (version : Version)
  : option (list Z) :=
  _pkg2hash f !! (package version, version).

(** [get_package_by_hash]. *)
Definition get_package_by_hash (f : AptFacade) (hash : list Z)
  : option Version :=
  _hash2pkg (base f) !! hash.

(** A version that the loops of [reload_channels] reach, with the package
    it is reached from. *)
Definition indexed (c : Cache) (pv : Package * Version) : Prop :=
  pv.1 ∈ cache_packages c
  ∧ _is_main_architecture pv.1 = true
  ∧ pv.2 ∈ package_versions c pv.1.

(** The update is tried: the index is to be fetched again, or the binaries
    are to be reloaded and the internal sources file exists. *)
Definition update_tried (force_reload_binaries : bool) (f : AptFacade)
  : Prop :=
  refetch_package_index f = true
  ∨ (force_reload_binaries = true ∧ is_Some (sources_file (base f))).

End Catalogue.

Arguments AptFacade Cache : clear implicits.

End Catalogue.

(** A machine off the network: it knows no package, and every fetch
    fails. *)
Module Offline.
Import Facade Catalogue.

#[global] Instance offline_apt : Apt unit := {|
  UBUNTU_PATH := "/usr/sbin:/usr/bin:/sbin:/bin";
  version_lt := λ v w, String.ltb (version v) (version w);
  cache_lookup := λ _ _, None;
  installed := λ _ _, None;
  candidate := λ _ _, None;
  marked_install := λ _ _, false;
  marked_upgrade := λ _ _, false;
  marked_downgrade := λ _ _, false;
  marked_delete := λ _ _, false;
  is_inst_broken := λ _ _, false;
  selected_state := λ _ _, 0;
  current_state := λ _ _, 0;
  depends_list := λ _ _ _, [];
  get_changes := λ _, [];
  set_candidate := λ _, id;
  package_mark_install := λ _, id;
  package_mark_delete := λ _, id;
  cache_upgrade := id;
  cache_clear := id;
  fixer_new := id;
  fixer_clear := λ _, id;
  fixer_protect := λ _, id;
  fixer_remove := λ _, id;
  fixer_install_protect := id;
  fixer_resolve := λ c, (None, c);
  cache_commit := λ c, mkCommit c "" "" None true
|}.

#[global] Instance offline_channels : Channels unit := {|
  cache_open := id;
  cache_update := λ _ c, FetchFailed c;
  cache_packages := λ _, [];
  package_versions := λ _ _, [];
  apt_version := λ _ v,
    Skeleton.mkAptVersion (name (package v)) (version v)
      (name (package v) +:+ "=" +:+ version v) None "" "" "" 0 0;
  parse_depends := λ _, [];
  internal_sources_list :=
    "/etc/apt/sources.list.d/_landscape-internal-facade.list";
  channels_repr := λ _, "[]"
|}.

(** A facade on it that fetches the package index again on a reload. *)
Definition refetching : AptFacade unit :=
  mkAptFacade
    (mkState tt ∅ [] false [] [] [] ∅ [] None [])
    ∅ false true.

End Offline.

(** The small cache as a catalogue: the versions of a package are its
    installed version and its candidate, and nothing needs fetching. *)
Module ToyCatalogue.
Import Facade Catalogue Toy.

#[global] Instance toy_channels : Channels cache := {|
  cache_open := id;
  cache_update := λ _ c, Updated c;
  cache_packages := known;
  package_versions := λ c p,
    remove_dups (filter (λ v, package v = p) (inst c ++ cand c));
  apt_version := λ _ v,
    Skeleton.mkAptVersion (name (package v)) (version v)
      (name (package v) +:+ "=" +:+ version v)
      (if String.eqb (name (package v)) "exim"
       then Some (λ field,
                    if String.eqb field "Conflicts" then mail_conflicts
                    else "")
       else None)
      "" "" "" 0 0;
  parse_depends := parse_mail;
  internal_sources_list :=
    "/etc/apt/sources.list.d/_landscape-internal-facade.list";
  channels_repr := λ _, "[]"
|}.

(** A new facade on the machine of the examples: nothing is indexed. *)
Definition fresh : AptFacade cache :=
  mkAptFacade (mkState machine ∅ [] false [] [] [] ∅ [] None []) ∅ false false.

(** A machine that knows [exim], whose [Conflicts] field has an entry
    with alternatives, and a new facade on it. *)
Definition mail_server : cache :=
  mkCache [pkg "bash"; pkg "exim"] [ver "bash" "5.0"]
    [ver "bash" "5.0"; ver "exim" "4.0"] [] [] [] [] [] [] None true.

Definition fresh_mail : AptFacade cache :=
  mkAptFacade (mkState mail_server ∅ [] false [] [] [] ∅ [] None []) ∅ false
    false.

End ToyCatalogue.

(** ** [SmartFacade] and [build_skeleton] *)

Module Smart.

(** The operations and the caching modes of [smart.const], which are
    distinct values, and the policies of [smart.transaction]. *)
Inductive Oper := INSTALL | REMOVE | UPGRADE.
Inductive Caching := ALWAYS | OPTIONAL | NEVER.
Inductive Policy := PolicyInstall | PolicyUpgrade | PolicyRemove.

#[global] Instance Oper_eq_dec : EqDecision Oper.
Proof. solve_decision. Defined.
#[global] Instance Caching_eq_dec : EqDecision Caching.
Proof. solve_decision. Defined.
#[global] Instance Policy_eq_dec : EqDecision Policy.
Proof. solve_decision. Defined.

(** An element of [pkg.upgrades]: its text, and for every relation in
    [providedby] the [packages] of that relation. *)
Record Upgrade (Pkg : Type) := mkUpgrade {
  upgrade_str : string;
  providedby : list (list Pkg)
}.
Arguments mkUpgrade {Pkg}.
Arguments upgrade_str {Pkg}.
Arguments providedby {Pkg}.

(** What [getInfo(pkg)] of the first loader gives; [sizes] lists
    [getSize(url)] for the URLs. *)
Record Info := mkInfo {
  group : string;
  info_summary : string;
  info_description : string;
  sizes : list Z;
  info_installed_size : Z
}.

(** What [commitChangeSet] leaves: the control object, the message of the
    [smart.Error] it raised if it did, and what the interface gives
    afterwards as output and as failure flag. *)
Record Committed (Ctrl : Type) := mkCommitted {
  commit_ctrl : Ctrl;
  commit_error : option string;
  commit_output : string;
  commit_failed : bool
}.
Arguments mkCommitted {Ctrl}.
Arguments commit_ctrl {Ctrl}.
Arguments commit_error {Ctrl}.
Arguments commit_output {Ctrl}.
Arguments commit_failed {Ctrl}.

(** What the facade and [build_skeleton] use of Smart. *)
Class Backend (Pkg Ctrl : Type) `{Countable Pkg} := {
  (** [isinstance(pkg, DebPackage)] *)
  is_deb_package : Pkg → bool;
  pkg_name : Pkg → string;
  pkg_version : Pkg → string;
  (** [pkg.provides]: whether the relation is a [DebNameProvides], and its
      text *)
  pkg_provides : Pkg → list (bool * string);
  (** [pkg.requires]: whether the relation is a [DebOrDepends], and its
      text *)
  pkg_requires : Pkg → list (bool * string);
  pkg_upgrades : Pkg → list (Upgrade Pkg);
  pkg_conflicts : Pkg → list string;
  (** [pkg.loaders.keys()[0].getInfo(pkg)], if there is a loader *)
  pkg_info : Pkg → option Info;
  (** [package.installed] *)
  pkg_installed : Pkg → bool;
  (** [loader.getInstalled()] for the loaders of the package *)
  loaders_installed : Pkg → list bool;
  (** [ctrl.getCache().getPackages()] *)
  cache_get_packages : Ctrl → list Pkg;
  (** [ctrl.reloadChannels(caching=...)]: its result, or [None] when it
      raises [smart.Error] *)
  reload_channels_ctrl : Caching → Ctrl → option bool * Ctrl;
  (** [smart.sysconf.get("channels")] as [%s] gives it *)
  channels_text : Ctrl → string;
  (** a transaction on the cache with the policy and the queue, run: the
      message of [Failed], or the items of the change set *)
  transaction_run :
    Ctrl → Policy → list (Pkg * Oper) → string + list (Pkg * Oper);
  (** [ctrl.commitChangeSet(changeset)] *)
  commit_change_set : Ctrl → list (Pkg * Oper) → Committed Ctrl
}.

Inductive exn (Pkg : Type) :=
| TransactionError (message : string)
| DependencyError (packages : list Pkg)
| SmartError (output : string)
| ChannelError (message : string)
| PackageTypeError
| IndexError.
Arguments TransactionError {Pkg} message.
Arguments DependencyError {Pkg} packages.
Arguments SmartError {Pkg} output.
Arguments ChannelError {Pkg} message.
Arguments PackageTypeError {Pkg}.
Arguments IndexError {Pkg}.

Inductive result (Pkg A : Type) :=
| Ok (value : A)
| Raise (error : exn Pkg).
Arguments Ok {Pkg A} value.
Arguments Raise {Pkg A} error.

Section SmartFacade.
Context {Pkg Ctrl : Type} `{Backend Pkg Ctrl}.

(** [build_skeleton] of [skeleton.py].  As in [build_skeleton_apt],
    [with_unicode] converts nothing here. *)
Definition build_skeleton (pkg : Pkg) (with_info with_unicode : bool)
  : result Pkg Skeleton.PackageSkeleton :=
  if negb (is_deb_package pkg) then Raise PackageTypeError
  else
    let skeleton :=
      Skeleton.new Skeleton.DEB_PACKAGE (pkg_name pkg) (pkg_version pkg) in
    let relations : gset Skeleton.relation := ∅ in
    let relations :=
      foldl (λ relations (relation : bool * string),
               if relation.1
               then relations ∪ {[ (Skeleton.DEB_NAME_PROVIDES, relation.2) ]}
               else relations ∪ {[ (Skeleton.DEB_PROVIDES, relation.2) ]})
            relations (pkg_provides pkg) in
    let relations :=
      foldl (λ relations (relation : bool * string),
               if relation.1
               then relations ∪ {[ (Skeleton.DEB_OR_REQUIRES, relation.2) ]}
               else relations ∪ {[ (Skeleton.DEB_REQUIRES, relation.2) ]})
            relations (pkg_requires pkg) in
    let relations :=
      foldl (λ relations (relation : Upgrade Pkg),
               relations ∪ {[ (Skeleton.DEB_UPGRADES, upgrade_str relation) ]})
            relations (pkg_upgrades pkg) in
    let relations :=
      foldl (λ relations (relation : string),
               relations ∪ {[ (Skeleton.DEB_CONFLICTS, relation) ]})
            relations (pkg_conflicts pkg) in
    let skeleton :=
      Skeleton.set_relations (Py.sorted Py.pair_lt (elements relations))
        skeleton in
    if with_info then
      match pkg_info pkg with
      | None => Raise IndexError
      | Some info =>
          Ok (Skeleton.mkSkeleton (Skeleton.type skeleton)
                (Skeleton.name skeleton) (Skeleton.version skeleton)
                (Skeleton.relations skeleton)
                (Some (group info)) (Some (info_summary info))
                (Some (info_description info))
                (Some (foldl Z.add 0 (sizes info)))
                (Some (info_installed_size info)))
      end
    else Ok skeleton.

(** A [SmartFacade]; [_ctrl] is the control object once it is made, and
    [committed] lists the change sets that were given to
    [commitChangeSet]. *)
Record SmartFacade := mkSmartFacade {
  _ctrl : Ctrl;
  _pkg2hash : gmap Pkg (list Z);
  _hash2pkg : gmap (list Z) Pkg;
  _marks : gmap Pkg Oper;
  _caching : Caching;
  _channels_reloaded : bool;
  committed : list (list (Pkg * Oper))
}.

Definition set_index (pkg2hash : gmap Pkg (list Z))
    (hash2pkg : gmap (list Z) Pkg) (f : SmartFacade) : SmartFacade :=
  mkSmartFacade (_ctrl f) pkg2hash hash2pkg (_marks f) (_caching f)
    (_channels_reloaded f) (committed f).

Definition set_marks (marks : gmap Pkg Oper) (f : SmartFacade)
  : SmartFacade :=
  mkSmartFacade (_ctrl f) (_pkg2hash f) (_hash2pkg f) marks (_caching f)
    (_channels_reloaded f) (committed f).

(** [get_packages]. *)
Definition get_packages (f : SmartFacade) : list Pkg :=
  filter (λ pkg, is_deb_package pkg = true) (cache_get_packages (_ctrl f)).

(** [get_package_skeleton]. *)
Definition get_package_skeleton (pkg : Pkg) (with_info : bool)
  : result Pkg Skeleton.PackageSkeleton :=
  build_skeleton pkg with_info false.

(** [get_package_skeleton(pkg, False).get_hash()], where the skeleton is
    made. *)
Definition package_hash (pkg : Pkg) : option (list Z) :=
  match get_package_skeleton pkg false with
  | Ok skeleton => Some (Skeleton.get_hash skeleton).1
  | Raise _ => None
  end.

(** The loop of [reload_channels] over the packages: the dictionaries as
    the loop leaves them, also when [get_package_skeleton] raises. *)
Fixpoint index_packages (packages : list Pkg)
    (index : gmap (list Z) Pkg * gmap Pkg (list Z))
  : result Pkg unit * (gmap (list Z) Pkg * gmap Pkg (list Z)) :=
  match packages with
  | [] => (Ok tt, index)
  | pkg :: rest =>
      match get_package_skeleton pkg false with
      | Raise e => (Raise e, index)
      | Ok skeleton =>
          let hash := (Skeleton.get_hash skeleton).1 in
          index_packages rest (<[hash := pkg]> index.1, <[pkg := hash]> index.2)
      end
  end.

(** [reload_channels]. *)
Definition reload_channels (f : SmartFacade) : result Pkg unit * SmartFacade :=
  let '(reload_result, ctrl) := reload_channels_ctrl (_caching f) (_ctrl f) in
  let f :=
    mkSmartFacade ctrl (_pkg2hash f) (_hash2pkg f) (_marks f) (_caching f)
      (_channels_reloaded f) (committed f) in
  let failed :=
    match reload_result with
    | None => true
    | Some reload_result =>
        negb reload_result && bool_decide (_caching f = NEVER)
    end in
  if failed
  then (Raise (ChannelError
                 ("Smart failed to reload channels (" +:+ channels_text ctrl
                  +:+ ")")), f)
  else
    let '(r, index) := index_packages (get_packages f) (∅, ∅) in
    (r, set_index index.2 index.1 f).

(** [ensure_channels_reloaded]. *)
Definition ensure_channels_reloaded (f : SmartFacade)
  : result Pkg unit * SmartFacade :=
  if _channels_reloaded f then (Ok tt, f)
  else
    reload_channels
      (mkSmartFacade (_ctrl f) (_pkg2hash f) (_hash2pkg f) (_marks f)
         (_caching f) true (committed f)).

(** [get_package_hash] and [get_package_by_hash]. *)
Definition get_package_hash (f : SmartFacade) (pkg : Pkg) : option (list Z) :=
  _pkg2hash f !! pkg.

Definition get_package_by_hash (f : SmartFacade) (hash : list Z)
  : option Pkg :=
  _hash2pkg f !! hash.

(** [mark_install], [mark_remove], [mark_upgrade]. *)
Definition mark_install (pkg : Pkg) (f : SmartFacade) : SmartFacade :=
  set_marks (<[pkg := INSTALL]> (_marks f)) f.

Definition mark_remove (pkg : Pkg) (f : SmartFacade) : SmartFacade :=
  set_marks (<[pkg := REMOVE]> (_marks f)) f.

Definition mark_upgrade (pkg : Pkg) (f : SmartFacade) : SmartFacade :=
  set_marks (<[pkg := UPGRADE]> (_marks f)) f.

(** [is_package_installed]. *)
Definition is_package_installed (package : Pkg) : bool :=
  pkg_installed package.

(** [mark_global_upgrade]. *)
Definition mark_global_upgrade (f : SmartFacade) : SmartFacade :=
  foldl (λ f package,
           if is_package_installed package then mark_upgrade package f else f)
        f (get_packages f).

(** [reset_marks]. *)
Definition reset_marks (f : SmartFacade) : SmartFacade := set_marks ∅ f.

(** The first loop of [perform_changes], over the items of [_marks]: the
    policy and the flag [only_remove] after it. *)
Definition scan_marks (items : list (Pkg * Oper)) : Policy * bool :=
  foldl (λ (state : Policy * bool) (item : Pkg * Oper),
           let policy :=
             if bool_decide (item.2 = UPGRADE) then PolicyUpgrade
             else state.1 in
           let only_remove :=
             if negb (bool_decide (item.2 = REMOVE)) then false
             else state.2 in
           (policy, only_remove))
        (PolicyInstall, true) items.

(** The policy that [perform_changes] sets. *)
Definition choose_policy (items : list (Pkg * Oper)) : Policy :=
  let '(policy, only_remove) := scan_marks items in
  if only_remove then PolicyRemove else policy.

(** [missing] of [perform_changes]. *)
Definition missing_marks (marks : gmap Pkg Oper)
    (changeset : list (Pkg * Oper)) : list Pkg :=
  (filter (λ change : Pkg * Oper, marks !! change.1 ≠ Some change.2)
          changeset).*1.

(** [perform_changes]; the items of [_marks] are taken in the order of
    [map_to_list]. *)
Definition perform_changes (f : SmartFacade)
  : result Pkg (option string) * SmartFacade :=
  let items := map_to_list (_marks f) in
  let policy := choose_policy items in
  match transaction_run (_ctrl f) policy items with
  | inl message => (Raise (TransactionError message), f)
  | inr changeset =>
      if bool_decide (changeset = []) then (Ok None, f)
      else
        let missing := missing_marks (_marks f) changeset in
        if negb (bool_decide (missing = []))
        then (Raise (DependencyError missing), f)
        else
          let done := commit_change_set (_ctrl f) changeset in
          let f :=
            mkSmartFacade (commit_ctrl done) (_pkg2hash f) (_hash2pkg f)
              (_marks f) (_caching f) (_channels_reloaded f)
              (committed f ++ [changeset]) in
          match commit_error done with
          | Some message => (Raise (TransactionError message), f)
          | None =>
              if commit_failed done
              then (Raise (SmartError (commit_output done)), f)
              else (Ok (Some (commit_output done)), f)
          end
  end.

(** [is_package_available]. *)
Fixpoint scan_loaders (loaders : list bool) : bool :=
  match loaders with
  | [] => false
  | installed :: rest => if negb installed then true else scan_loaders rest
  end.

Definition is_package_available (package : Pkg) : bool :=
  scan_loaders (loaders_installed package).

(** The three loops of [is_package_upgrade]: each gives the value of
    [is_upgrade] after it, and whether it was left by [break]. *)
Fixpoint scan_provides_packages (packages : list Pkg) (is_upgrade : bool)
  : bool * bool :=
  match packages with
  | [] => (is_upgrade, false)
  | provides_package :: rest =>
      if pkg_installed provides_package then (true, true)
      else scan_provides_packages rest is_upgrade
  end.

Fixpoint scan_providedby (provides : list (list Pkg)) (is_upgrade : bool)
  : bool * bool :=
  match provides with
  | [] => (is_upgrade, false)
  | packages :: rest =>
      let '(is_upgrade, broke) :=
        scan_provides_packages packages is_upgrade in
      if negb broke then scan_providedby rest is_upgrade
      else (is_upgrade, true)
  end.

Fixpoint scan_upgrades (upgrades : list (Upgrade Pkg)) (is_upgrade : bool)
  : bool * bool :=
  match upgrades with
  | [] => (is_upgrade, false)
  | upgrade :: rest =>
      let '(is_upgrade, broke) :=
        scan_providedby (providedby upgrade) is_upgrade in
      if negb broke then scan_upgrades rest is_upgrade
      else (is_upgrade, true)
  end.

(** [is_package_upgrade]. *)
Definition is_package_upgrade (package : Pkg) : bool :=
  (scan_upgrades (pkg_upgrades package) false).1.

(** An installed package is among those that provide what the package
    upgrades. *)
Definition upgrades_installed (package : Pkg) : Prop :=
  ∃ upgrade packages provides_package,
    upgrade ∈ pkg_upgrades package
    ∧ packages ∈ providedby upgrade
    ∧ provides_package ∈ packages
    ∧ pkg_installed provides_package = true.

End SmartFacade.

Arguments SmartFacade Pkg Ctrl {_ _}.

End Smart.

(** A small Smart: packages are their names; the change set of a
    transaction is its queue, with [vim-runtime] added when [vim] is to be
    installed. *)
Module ToySmart.
Import Smart.

#[global] Instance toy_backend : Backend string unit := {|
  is_deb_package := λ _, true;
  pkg_name := λ pkg, pkg;
  pkg_version := λ _, "1.0";
  pkg_provides := λ pkg, [(true, pkg +:+ " = 1.0")];
  pkg_requires := λ pkg,
    if String.eqb pkg "vim" then [(false, "vim-runtime")] else [];
  pkg_upgrades := λ pkg,
    [mkUpgrade (pkg +:+ " < 1.0")
       (if String.eqb pkg "bash" then [["dash"]; ["bash"]] else [])];
  pkg_conflicts := λ _, [];
  pkg_info := λ _, None;
  pkg_installed := λ pkg, String.eqb pkg "bash";
  loaders_installed := λ pkg, [String.eqb pkg "bash"];
  cache_get_packages := λ _, ["bash"; "vim"; "vim-runtime"];
  reload_channels_ctrl := λ caching c,
    (if bool_decide (caching = NEVER) then None else Some true, c);
  channels_text := λ _, "{}";
  transaction_run := λ _ _ items,
    inr (items
         ++ (if bool_decide (("vim", INSTALL) ∈ items)
             then [("vim-runtime", INSTALL)] else []));
  commit_change_set := λ c _, mkCommitted c None "done" false
|}.

Definition fresh : SmartFacade string unit :=
  mkSmartFacade tt ∅ ∅ ∅ ALWAYS false [].

(** Off the network: the channels are to be fetched and cannot be. *)
Definition fetching : SmartFacade string unit :=
  mkSmartFacade tt ∅ ∅ ∅ NEVER false [].

Definition wants_vim : SmartFacade string unit := mark_install "vim" fresh.

Definition wants_vim_with_runtime : SmartFacade string unit :=
  mark_install "vim-runtime" (mark_install "vim" fresh).

End ToySmart.

(** * Properties *)

(** ** Order and sorting *)

Lemma string_ltb_leb (s1 s2 : string) :
  String.ltb s2 s1 = negb (String.leb s1 s2).
Proof.
  unfold String.ltb, String.leb. rewrite (String.compare_antisym s1 s2).
  by destruct (String.compare s2 s1).
Qed.

Lemma pair_le_lex (a b : Z * string) : pair_le a b ↔ lex_le a b.
Proof.
  unfold pair_le, lex_le, Py.pair_lt, String.le.
  rewrite string_ltb_leb. destruct a as [k1 d1], b as [k2 d2]; simpl.
  destruct (Z.ltb_spec k2 k1), (Z.eqb_spec k2 k1),
    (String.leb d1 d2); simpl; split; intros; try done; try lia;
    try (right; split; [lia | done]); try (left; lia).
  all: destruct H1 as [? | [? ?]]; try lia; done.
Qed.

#[local] Instance lex_le_trans : Transitive lex_le.
Proof.
  intros a b c [Hab | [Hab Hab']] [Hbc | [Hbc Hbc']]; unfold lex_le.
  - left; lia.
  - left; lia.
  - left; lia.
  - right; split; [lia | by etrans].
Qed.

#[local] Instance lex_le_antisym : AntiSymm eq lex_le.
Proof.
  intros [k1 d1] [k2 d2] [H1 | [H1 H1']] [H2 | [H2 H2']]; simpl in *; try lia.
  f_equal; [done | by apply (anti_symm String.le)].
Qed.

#[local] Instance pair_le_trans : Transitive pair_le.
Proof. intros a b c. rewrite !pair_le_lex. apply lex_le_trans. Qed.

#[local] Instance pair_le_antisym : AntiSymm eq pair_le.
Proof. intros a b. rewrite !pair_le_lex. apply lex_le_antisym. Qed.

Lemma pair_lt_asym (a b : Z * string) :
  Py.pair_lt a b = true → Py.pair_lt b a = false.
Proof.
  intros Hab. destruct (Py.pair_lt b a) eqn:Hba; [| done].
  unfold Py.pair_lt in *. destruct a as [k1 d1], b as [k2 d2]; simpl in *.
  apply orb_true_iff in Hab as [Hab | [Hab Hab']%andb_true_iff];
    apply orb_true_iff in Hba as [Hba | [Hba Hba']%andb_true_iff]; try lia.
  unfold String.ltb in *. rewrite (String.compare_antisym d2 d1) in Hba'.
  by destruct (String.compare d1 d2).
Qed.

Section SortFacts.
Context {A : Type} (lt : A → A → bool).

Lemma insort_perm (x : A) (xs : list A) : Py.insort lt x xs ≡ₚ x :: xs.
Proof.
  induction xs as [| y ys IH]; simpl; [done |].
  destruct (lt y x); [| done]. rewrite IH. apply Permutation_swap.
Qed.

Lemma sorted_perm (xs : list A) : Py.sorted lt xs ≡ₚ xs.
Proof.
  induction xs as [| x xs IH]; simpl; [done |].
  by rewrite insort_perm, IH.
Qed.

Hypothesis lt_asym : ∀ x y, lt x y = true → lt y x = false.

Let le (x y : A) : Prop := lt y x = false.

Lemma insort_Sorted (x : A) (xs : list A) :
  Sorted le xs → Sorted le (Py.insort lt x xs).
Proof.
  induction xs as [| y ys IH]; simpl; intros Hs.
  - by repeat constructor.
  - destruct (lt y x) eqn:Hyx.
    + apply Sorted_inv in Hs as [Hs Hhd]. constructor; [by apply IH |].
      destruct ys as [| z zs]; simpl.
      * constructor. by apply lt_asym.
      * destruct (lt z x); constructor.
        -- by inversion Hhd.
        -- by apply lt_asym.
    + constructor; [done |]. by constructor.
Qed.

Lemma sorted_Sorted (xs : list A) : Sorted le (Py.sorted lt xs).
Proof.
  induction xs as [| x xs IH]; simpl; [constructor |].
  by apply insort_Sorted.
Qed.
End SortFacts.

Lemma Sorted_weaken {A : Type} (R R' : A → A → Prop) (xs : list A) :
  (∀ x y, R x y → R' x y) → Sorted R xs → Sorted R' xs.
Proof.
  intros Himp. induction 1 as [| x xs Hs IH Hhd]; constructor; [done |].
  destruct Hhd; constructor. by apply Himp.
Qed.

(** Sorting relations gives the one sorted arrangement of the list. *)
Lemma sorted_relations_Sorted (rels : list (Z * string)) :
  Sorted pair_le (Py.sorted Py.pair_lt rels).
Proof. apply sorted_Sorted, pair_lt_asym. Qed.

Lemma sorted_relations_perm_eq (l1 l2 : list (Z * string)) :
  l1 ≡ₚ l2 → Py.sorted Py.pair_lt l1 = Py.sorted Py.pair_lt l2.
Proof.
  intros Hp. apply (Sorted_unique pair_le); try apply sorted_relations_Sorted.
  by rewrite !sorted_perm.
Qed.

Lemma sorted_relations_idem (rels : list (Z * string)) :
  Py.sorted Py.pair_lt (Py.sorted Py.pair_lt rels) = Py.sorted Py.pair_lt rels.
Proof.
  apply (Sorted_unique pair_le); try apply sorted_relations_Sorted.
  apply sorted_perm.
Qed.

(** ** The skeleton hash *)

Lemma str_app_assoc (a b c : string) : (a +:+ b) +:+ c = a +:+ (b +:+ c).
Proof.
  induction a as [| ch a IH]; [done |].
  change (String ch ((a +:+ b) +:+ c) = String ch (a +:+ (b +:+ c))).
  by rewrite IH.
Qed.

Lemma str_app_nil_r (a : string) : a +:+ "" = a.
Proof.
  induction a as [| ch a IH]; [done |].
  change (String ch (a +:+ "") = String ch a). by rewrite IH.
Qed.

(** Feeding the pairs one by one is feeding their concatenation. *)
Lemma fed_fold_update (rels : list Skeleton.relation) (d : SHA1.t) :
  SHA1.fed (fold_left (λ d pair, SHA1.update d (Skeleton.fmt_pair pair)) rels d)
  = SHA1.fed d +:+ String.concat "" (map Skeleton.fmt_pair rels).
Proof.
  revert d. induction rels as [| r rels IH]; intros d; simpl.
  - by rewrite str_app_nil_r.
  - rewrite IH. simpl. rewrite str_app_assoc. f_equal.
    destruct rels as [| r' rels']; simpl; [by rewrite str_app_nil_r | done].
Qed.

Lemma be_bytes_length (n : nat) (x : Z) : length (SHA1.be_bytes n x) = n.
Proof. induction n as [| n IH]; simpl; [done | by rewrite IH]. Qed.

Lemma be_bytes_range (n : nat) (x : Z) :
  Forall (λ b, 0 ≤ b < 256) (SHA1.be_bytes n x).
Proof.
  induction n as [| n IH]; simpl; constructor; [| done].
  change 255 with (Z.ones 8). rewrite Z.land_ones by lia.
  apply Z.mod_pos_bound. lia.
Qed.

Lemma sha1_length (msg : list Z) : length (SHA1.hash msg) = 20%nat.
Proof.
  unfold SHA1.hash, SHA1.output. by rewrite !length_app, !be_bytes_length.
Qed.

Lemma sha1_range (msg : list Z) : Forall (λ b, 0 ≤ b < 256) (SHA1.hash msg).
Proof.
  unfold SHA1.hash, SHA1.output.
  repeat (apply Forall_app; split); apply be_bytes_range.
Qed.

(** The digests of FIPS 180 for ["abc"], for the empty message and for a
    message of two blocks. *)
Example sha1_abc :
  SHA1.hash (Py.bytes "abc")
  = [0xa9; 0x99; 0x3e; 0x36; 0x47; 0x06; 0x81; 0x6a; 0xba; 0x3e;
     0x25; 0x71; 0x78; 0x50; 0xc2; 0x6c; 0x9c; 0xd0; 0xd8; 0x9d].
Proof. vm_compute. reflexivity. Qed.

Example sha1_empty :
  SHA1.hash (Py.bytes "")
  = [0xda; 0x39; 0xa3; 0xee; 0x5e; 0x6b; 0x4b; 0x0d; 0x32; 0x55;
     0xbf; 0xef; 0x95; 0x60; 0x18; 0x90; 0xaf; 0xd8; 0x07; 0x09].
Proof. vm_compute. reflexivity. Qed.

Example sha1_two_blocks :
  SHA1.hash
    (Py.bytes "abcdbcdecdefdefgefghfghighijhijkijkljklmklmnlmnomnopnopq")
  = [0x84; 0x98; 0x3e; 0x44; 0x1c; 0x3b; 0xd2; 0x6e; 0xba; 0xae;
     0x4a; 0xa1; 0xf9; 0x51; 0x29; 0xe5; 0xe5; 0x46; 0x70; 0xf1].
Proof. vm_compute. reflexivity. Qed.

(** The digest as a function of the sorted relations. *)
Lemma get_hash_unfold (s : Skeleton.PackageSkeleton) :
  (Skeleton.get_hash s).1
  = SHA1.hash (Py.bytes
      (Skeleton.fmt_header (Skeleton.type s) (Skeleton.name s)
                           (Skeleton.version s)
       +:+ String.concat ""
             (map Skeleton.fmt_pair
                  (Py.sorted Py.pair_lt (Skeleton.relations s))))).
Proof.
  unfold Skeleton.get_hash, SHA1.digest; simpl. by rewrite fed_fold_update.
Qed.

Lemma get_hash_skeleton (s : Skeleton.PackageSkeleton) :
  (Skeleton.get_hash s).2
  = Skeleton.set_relations (Py.sorted Py.pair_lt (Skeleton.relations s)) s.
Proof. done. Qed.

(** C3: the hash of a skeleton is the 20-byte SHA-1 digest of
    ["[type name version]"] followed by ["[kind description]"] for each of
    the skeleton's relations, taken in the lexicographic order of (kind,
    description), with nothing in between. *)
Theorem get_hash_is_sha1_of_sorted_serialization
    (s : Skeleton.PackageSkeleton) :
  ∃ rels : list (Z * string),
    rels ≡ₚ Skeleton.relations s
    ∧ Sorted lex_le rels
    ∧ (Skeleton.get_hash s).1
      = SHA1.hash (Py.bytes
          (("[" +:+ Py.fmt_d (Skeleton.type s) +:+ " " +:+ Skeleton.name s
            +:+ " " +:+ Skeleton.version s +:+ "]")
           +:+ String.concat ""
                 (map (λ r, "[" +:+ Py.fmt_d r.1 +:+ " " +:+ r.2 +:+ "]")
                      rels)))
    ∧ length (Skeleton.get_hash s).1 = 20%nat
    ∧ Forall (λ b, 0 ≤ b < 256) (Skeleton.get_hash s).1.
Proof.
  exists (Py.sorted Py.pair_lt (Skeleton.relations s)).
  split; [apply sorted_perm |]. split.
  - apply (Sorted_weaken pair_le); [| apply sorted_relations_Sorted].
    intros a b. by rewrite pair_le_lex.
  - split; [apply get_hash_unfold |].
    rewrite get_hash_unfold. split; [apply sha1_length | apply sha1_range].
Qed.

(** C10: a second call of [get_hash] returns the digest of the first.  The
    first call leaves the relations sorted, the second finds them sorted and
    leaves the skeleton as it is, and the value has 20 bytes. *)
Theorem get_hash_repeated (s : Skeleton.PackageSkeleton) :
  let first := Skeleton.get_hash s in
  let second := Skeleton.get_hash first.2 in
  second.1 = first.1
  ∧ Skeleton.relations first.2 = Py.sorted Py.pair_lt (Skeleton.relations s)
  ∧ Sorted lex_le (Skeleton.relations first.2)
  ∧ second.2 = first.2
  ∧ length first.1 = 20%nat.
Proof.
  cbv zeta. rewrite !get_hash_unfold, !get_hash_skeleton.
  unfold Skeleton.set_relations; simpl.
  rewrite sorted_relations_idem.
  split; [done |]. split; [done |]. split; [| split; [done |]].
  - apply (Sorted_weaken pair_le); [| apply sorted_relations_Sorted].
    intros a b. by rewrite pair_le_lex.
  - done.
Qed.

(** The hash does not read the five information fields. *)
Lemma get_hash_ignores_info (s : Skeleton.PackageSkeleton)
    (section summary description : option string)
    (size installed_size : option Z) :
  (Skeleton.get_hash
     (Skeleton.mkSkeleton (Skeleton.type s) (Skeleton.name s)
        (Skeleton.version s) (Skeleton.relations s)
        section summary description size installed_size)).1
  = (Skeleton.get_hash s).1.
Proof. by rewrite !get_hash_unfold. Qed.

(** C2, as the code has it: skeletons that agree on type, name and version
    and whose relation lists hold the same relations the same number of
    times (in any order) have the same hash, whatever their information
    fields hold.  Lists without duplicates that are equal as sets are such
    lists. *)
Theorem get_hash_deterministic (s1 s2 : Skeleton.PackageSkeleton) :
  Skeleton.type s1 = Skeleton.type s2 →
  Skeleton.name s1 = Skeleton.name s2 →
  Skeleton.version s1 = Skeleton.version s2 →
  Skeleton.relations s1 ≡ₚ Skeleton.relations s2
  ∨ (NoDup (Skeleton.relations s1) ∧ NoDup (Skeleton.relations s2)
     ∧ ∀ r, r ∈ Skeleton.relations s1 ↔ r ∈ Skeleton.relations s2) →
  (Skeleton.get_hash s1).1 = (Skeleton.get_hash s2).1.
Proof.
  intros Ht Hn Hv Hrel. rewrite !get_hash_unfold, Ht, Hn, Hv.
  assert (Skeleton.relations s1 ≡ₚ Skeleton.relations s2) as Hp.
  { destruct Hrel as [Hp | (Hd1 & Hd2 & Heq)]; [done |].
    by apply NoDup_Permutation. }
  by rewrite (sorted_relations_perm_eq _ _ Hp).
Qed.

(** What [hashlib] gives for ["[65537 foo 1.0][131074 bar][262148 libc6]"]. *)
Example get_hash_skeleton_ab :
  (Skeleton.get_hash skeleton_ab).1
  = [179; 143; 187; 232; 60; 217; 174; 143; 89; 168;
     154; 219; 151; 52; 128; 126; 64; 165; 6; 91].
Proof. vm_compute. reflexivity. Qed.

(** [build_skeleton_apt] gives the same hash, or the same [TypeError], with
    and without the information fields. *)
Lemma build_skeleton_apt_hash_without_info
    (parse_depends : string → list (list (string * string * string)))
    (version : Skeleton.AptVersion) (with_unicode : bool) :
  (Skeleton.get_hash_apt
     (Skeleton.build_skeleton_apt parse_depends version true with_unicode)).1
  = (Skeleton.get_hash_apt
       (Skeleton.build_skeleton_apt parse_depends version false
          with_unicode)).1.
Proof. reflexivity. Qed.

Example build_skeleton_apt_foo :
  Skeleton.apt_relations
    (Skeleton.build_skeleton_apt parse_foo foo_version true true)
  = [(Some Skeleton.DEB_NAME_PROVIDES, "foo = foo=1.0");
     (Some Skeleton.DEB_REQUIRES, "libc6 >= 2.4");
     (Some Skeleton.DEB_OR_REQUIRES, "debconf | cdebconf");
     (Some Skeleton.DEB_UPGRADES, "foo < foo=1.0")].
Proof. vm_compute. reflexivity. Qed.

(** An entry with alternatives in [Conflicts] gets the type [None], which
    sorts first, and [get_hash] raises [TypeError] on it. *)
Example build_skeleton_apt_exim :
  Skeleton.apt_relations
    (Skeleton.build_skeleton_apt parse_mail exim_version false true)
  = [(None, "sendmail | postfix");
     (Some Skeleton.DEB_NAME_PROVIDES, "exim = exim=4.0");
     (Some Skeleton.DEB_UPGRADES, "exim < exim=4.0")]
  ∧ (Skeleton.get_hash_apt
       (Skeleton.build_skeleton_apt parse_mail exim_version false true)).1
    = None.
Proof. split; vm_compute; reflexivity. Qed.

Lemma get_hash_deterministic_witness :
  (Skeleton.get_hash skeleton_ab).1 = (Skeleton.get_hash skeleton_ba_info).1.
Proof.
  apply (get_hash_deterministic skeleton_ab skeleton_ba_info);
    [reflexivity | reflexivity | reflexivity |].
  left. apply Permutation_swap.
Defined.

Lemma skeleton_once_twice_same_set (r : Skeleton.relation) :
  r ∈ Skeleton.relations skeleton_once
  ↔ r ∈ Skeleton.relations skeleton_twice.
Proof. simpl. rewrite !elem_of_cons, elem_of_nil. tauto. Qed.

Lemma get_hash_equal_sets_counterexample :
  ¬ (∀ s1 s2 : Skeleton.PackageSkeleton,
       Skeleton.type s1 = Skeleton.type s2 →
       Skeleton.name s1 = Skeleton.name s2 →
       Skeleton.version s1 = Skeleton.version s2 →
       (∀ r, r ∈ Skeleton.relations s1 ↔ r ∈ Skeleton.relations s2) →
       (Skeleton.get_hash s1).1 = (Skeleton.get_hash s2).1).
Proof.
  intros H.
  assert ((Skeleton.get_hash skeleton_once).1
          ≠ (Skeleton.get_hash skeleton_twice).1) as Hne.
  { vm_compute. discriminate. }
  apply Hne.
  exact (H skeleton_once skeleton_twice eq_refl eq_refl eq_refl
           skeleton_once_twice_same_set).
Qed.

(** ** The facade: running a method *)

Section FacadeFacts.
Import Facade.
Context {Cache : Type} `{!Apt Cache}.

#[local] Abbreviation State := (State Cache).
#[local] Abbreviation M := (M Cache).
#[local] Abbreviation respects := (@respects Cache).
#[local] Abbreviation succeeds := (@succeeds Cache).

Lemma run_bind {A B : Type} (m : M A) (k : A → M B) (s : State) :
  (m ≫= k) s
  = match m s with
    | (Ok a, s') => k a s'
    | (Raise e, s') => (Raise e, s')
    end.
Proof. done. Qed.

Lemma run_bind_ok {A B : Type} (m : M A) (k : A → M B) (s s' : State) (a : A) :
  m s = (Ok a, s') → (m ≫= k) s = k a s'.
Proof. intros Hm. by rewrite run_bind, Hm. Qed.

Lemma run_bind_raise {A B : Type} (m : M A) (k : A → M B) (s s' : State)
    (e : exn) :
  m s = (Raise e, s') → (m ≫= k) s = (Raise e, s').
Proof. intros Hm. by rewrite run_bind, Hm. Qed.

Section Respects.
Context (R : State → State → Prop) `{!Reflexive R} `{!Transitive R}.

Lemma respects_ret {A : Type} (a : A) : respects R (mret a : M A).
Proof. intros s r s' [= <- <-]. reflexivity. Qed.

Lemma respects_raise {A : Type} (e : exn) : respects R (raise e : M A).
Proof. intros s r s' [= <- <-]. reflexivity. Qed.

Lemma respects_get : respects R get.
Proof. intros s r s' [= <- <-]. reflexivity. Qed.

Lemma respects_lift {A : Type} (x : result A) : respects R (lift x).
Proof. intros s r s' [= <- <-]. reflexivity. Qed.

Lemma respects_modify (f : State → State) :
  (∀ s, R s (f s)) → respects R (modify f).
Proof. intros Hf s r s' [= <- <-]. apply Hf. Qed.

Lemma respects_bind {A B : Type} (m : M A) (k : A → M B) :
  respects R m → (∀ a, respects R (k a)) → respects R (m ≫= k).
Proof.
  intros Hm Hk s r s'. rewrite run_bind.
  destruct (m s) as [[a | e] s1] eqn:Hrun.
  - intros Hrun'. etrans; [by eapply Hm | by eapply Hk].
  - intros [= <- <-]. by eapply Hm.
Qed.

Lemma respects_for_each {A : Type} (xs : list A) (body : A → M unit) :
  (∀ x, respects R (body x)) → respects R (for_each xs body).
Proof.
  intros Hbody. induction xs as [| x xs IH]; simpl.
  - apply respects_ret.
  - apply respects_bind; [apply Hbody | intros _; apply IH].
Qed.

Lemma respects_if {A : Type} (b : bool) (m1 m2 : M A) :
  respects R m1 → respects R m2 → respects R (if b then m1 else m2).
Proof. by destruct b. Qed.
End Respects.

(** ** Unmet dependencies *)

Lemma scan_targets_spec (c : Cache) (is_positive : bool)
    (targets : list Package) :
  match scan_targets c is_positive targets with
  | Some r => r = is_positive ∧ ∃ p, p ∈ targets ∧ target_counts c p
  | None => ∀ p, p ∈ targets → ¬ target_counts c p
  end.
Proof.
  induction targets as [| p rest IH]; simpl.
  - intros p Hp. by apply elem_of_nil in Hp.
  - destruct (((current_state c p =? CURSTATE_INSTALLED)
               || marked_install c p) && negb (marked_delete c p)) eqn:Htest.
    + split; [done |]. exists p. split; [by left |].
      apply andb_true_iff in Htest as [Hin Hdel].
      apply orb_true_iff in Hin. apply negb_true_iff in Hdel.
      split; [| done]. destruct Hin as [Hin | Hin]; [left; lia | by right].
    + destruct (scan_targets c is_positive rest) as [r |].
      * destruct IH as [-> (q & Hq & Hcount)]. split; [done |].
        exists q. split; [by right | done].
      * intros q [-> | Hq]%elem_of_cons; [| by apply IH].
        intros [Hin Hdel]. rewrite Hdel in Htest. simpl in Htest.
        rewrite andb_true_r in Htest. apply orb_false_iff in Htest as [H1 H2].
        destruct Hin as [Hin | Hin]; [lia | congruence].
Qed.

Lemma scan_dependency_spec (c : Cache) (is_positive : bool)
    (dependency : Dependency) :
  match scan_dependency c is_positive dependency with
  | Some r => r = is_positive ∧ some_target_counts c dependency
  | None => ¬ some_target_counts c dependency
  end.
Proof.
  induction dependency as [| or_dep rest IH]; simpl.
  - intros (d & p & Hd & _). by apply elem_of_nil in Hd.
  - pose proof (scan_targets_spec c is_positive (all_targets or_dep)) as Ht.
    destruct (scan_targets c is_positive (all_targets or_dep)) as [r |].
    + destruct Ht as [-> (p & Hp & Hcount)]. split; [done |].
      exists or_dep, p. split; [by left | done].
    + destruct (scan_dependency c is_positive rest) as [r |].
      * destruct IH as [-> (d & p & Hd & Hp & Hcount)]. split; [done |].
        exists d, p. split; [by right | done].
      * intros (d & p & [-> | Hd]%elem_of_cons & Hp & Hcount).
        -- by apply (Ht p).
        -- apply IH. by exists d, p.
Qed.

Lemma is_dependency_satisfied_positive (c : Cache) (dependency : Dependency)
    (dep_type : string) :
  Py.contains dep_type ["Breaks"; "Conflicts"] = false →
  _is_dependency_satisfied c dependency dep_type = true
  ↔ some_target_counts c dependency.
Proof.
  intros Hty. unfold _is_dependency_satisfied. rewrite Hty. simpl.
  pose proof (scan_dependency_spec c true dependency) as Hs.
  destruct (scan_dependency c true dependency) as [r |].
  - destruct Hs as [-> Hs]. done.
  - split; [done | intros; by destruct Hs].
Qed.

Lemma is_dependency_satisfied_negative (c : Cache) (dependency : Dependency)
    (dep_type : string) :
  Py.contains dep_type ["Breaks"; "Conflicts"] = true →
  _is_dependency_satisfied c dependency dep_type = true
  ↔ ¬ some_target_counts c dependency.
Proof.
  intros Hty. unfold _is_dependency_satisfied. rewrite Hty. simpl.
  pose proof (scan_dependency_spec c false dependency) as Hs.
  destruct (scan_dependency c false dependency) as [r |].
  - destruct Hs as [-> Hs]. split; [done | intros Hn; by destruct Hn].
  - done.
Qed.

(** C8: for [PreDepends] and [Depends] a dependency is satisfied exactly
    when some target of some alternative is installed or marked for install
    and not marked for deletion; for [Conflicts] and [Breaks] exactly when
    there is no such target.  The report has a line for a dependency exactly
    when it is not satisfied. *)
Theorem is_dependency_satisfied_spec (c : Cache) (dependency : Dependency) :
  (_is_dependency_satisfied c dependency "PreDepends" = true
   ↔ some_target_counts c dependency)
  ∧ (_is_dependency_satisfied c dependency "Depends" = true
     ↔ some_target_counts c dependency)
  ∧ (_is_dependency_satisfied c dependency "Conflicts" = true
     ↔ ¬ some_target_counts c dependency)
  ∧ (_is_dependency_satisfied c dependency "Breaks" = true
     ↔ ¬ some_target_counts c dependency)
  ∧ ∀ (p : Package) (dep_type : string) (rest : list Dependency),
      unmet_lines c p dep_type (dependency :: rest)
      = if _is_dependency_satisfied c dependency dep_type
        then unmet_lines c p dep_type rest
        else
          infos ← map_result (_get_unmet_relation_info c) dependency;
          lines ← unmet_lines c p dep_type rest;
          Ok ((("  " +:+ name p +:+ ": " +:+ dep_type +:+ ": ")
               +:+ Py.join
                     (" or" +:+ Py.newline
                      +:+ Py.spaces
                            (String.length
                               ("  " +:+ name p +:+ ": " +:+ dep_type
                                +:+ ": ")))
                     infos) :: lines).
Proof.
  split; [by apply is_dependency_satisfied_positive |].
  split; [by apply is_dependency_satisfied_positive |].
  split; [by apply is_dependency_satisfied_negative |].
  split; [by apply is_dependency_satisfied_negative |].
  done.
Qed.

(** ** [perform_changes]: the first lines and the hold block *)

Lemma enforce_non_interactivity_run (s : State) :
  enforce_non_interactivity s = (Ok tt, non_interactive s).
Proof.
  unfold enforce_non_interactivity, non_interactive, non_interactive_environ,
    frontends.
  unfold setenv, modify, get. rewrite !run_bind. simpl.
  by destruct (bool_decide _).
Qed.

Lemma frontends_fixpoint (m : gmap string string) :
  m !! "APT_LISTBUGS_FRONTEND" = Some "none" →
  m !! "APT_LISTCHANGES_FRONTEND" = Some "none" →
  m !! "DEBIAN_FRONTEND" = Some "noninteractive" →
  frontends m = m.
Proof.
  intros H1 H2 H3. unfold frontends.
  rewrite (insert_id m "DEBIAN_FRONTEND") by done.
  rewrite (insert_id m "APT_LISTCHANGES_FRONTEND") by done.
  by rewrite (insert_id m "APT_LISTBUGS_FRONTEND").
Qed.

Lemma non_interactive_environ_idem (env : gmap string string) :
  non_interactive_environ (non_interactive_environ env)
  = non_interactive_environ env.
Proof.
  unfold non_interactive_environ. cbv zeta.
  destruct (bool_decide (frontends env !! "PATH" = None)) eqn:Hpath.
  - rewrite frontends_fixpoint by (unfold frontends; by simplify_map_eq).
    rewrite bool_decide_eq_false_2; [done | by simplify_map_eq].
  - rewrite frontends_fixpoint by (unfold frontends; by simplify_map_eq).
    by rewrite Hpath.
Qed.

Lemma non_interactive_idem (s : State) :
  non_interactive (non_interactive s) = non_interactive s.
Proof.
  unfold non_interactive; simpl. by rewrite non_interactive_environ_idem.
Qed.

Lemma run_get {A : Type} (k : State → M A) (s : State) :
  (get ≫= k) s = k s s.
Proof. done. Qed.

Lemma perform_changes_after_settings (s : State) :
  perform_changes s
  = (let s := non_interactive s in
     let version_changes := _version_installs s ++ _version_removals s in
     let hold_changes :=
       _version_hold_creations s ++ _version_hold_removals s in
     if bool_decide (hold_changes = []) && bool_decide (version_changes = [])
        && negb (_global_upgrade s)
     then (Ok None, s)
     else
       ((if negb (bool_decide (hold_changes = [])) then change_holds
         else mret tt) ;;
        if negb (bool_decide (version_changes = [])) || _global_upgrade s
        then
          mark_versions (package_upgrades_of s) ;;
          changed ← _check_changes version_changes;
          if negb changed then mret None else commit_changes
        else mret (Some "Package holds successfully changed.")) s).
Proof.
  unfold perform_changes.
  rewrite (run_bind_ok _ _ _ _ _ (enforce_non_interactivity_run s)).
  rewrite run_get. cbv zeta. by destruct (_ && _ && _).
Qed.

Lemma perform_changes_nothing_to_do (s : State) :
  pending_marks s = ([], [], [], [], false) →
  perform_changes s = (Ok None, non_interactive s).
Proof.
  intros [= Hi Hr Hc Hh Hg]. rewrite perform_changes_after_settings.
  simpl. by rewrite Hi, Hr, Hc, Hh, Hg.
Qed.

(** C7, as the code has it: with nothing marked and no global upgrade,
    [perform_changes] returns [None] (nothing to do) after its first lines
    have set the non-interactive frontends and [DPkg::options]; it makes no
    call to the cache, the resolver or dpkg, and the cache, the marks, the
    catalogue and the sources file stay as they are.  A second call changes
    nothing at all. *)
Theorem perform_changes_nothing_marked (s : State) :
  pending_marks s = ([], [], [], [], false) →
  perform_changes s = (Ok None, non_interactive s)
  ∧ calls (non_interactive s) = calls s
  ∧ _cache (non_interactive s) = _cache s
  ∧ pending_marks (non_interactive s) = pending_marks s
  ∧ _hash2pkg (non_interactive s) = _hash2pkg s
  ∧ sources_file (non_interactive s) = sources_file s
  ∧ dpkg_options (non_interactive s) = ["--force-confold"]
  ∧ environ (non_interactive s) = non_interactive_environ (environ s)
  ∧ perform_changes (non_interactive s) = (Ok None, non_interactive s).
Proof.
  intros Hmarks. split; [by apply perform_changes_nothing_to_do |].
  repeat (split; [done |]).
  rewrite perform_changes_nothing_to_do by done.
  by rewrite non_interactive_idem.
Qed.

Lemma change_holds_not_installed (s : State) :
  filter (λ v, is_package_installed s v = false) (_version_hold_creations s)
  ≠ [] →
  change_holds s
  = (Raise (TransactionError
              ("Cannot perform the changes, since the following packages are not installed: "
               +:+ Py.join ", "
                     ((λ v, name (package v))
                        <$> Py.sorted version_lt
                              (filter (λ v, is_package_installed s v = false)
                                      (_version_hold_creations s))))),
     s).
Proof.
  intros Hne. unfold change_holds. rewrite run_get. cbv zeta.
  rewrite run_bind. rewrite bool_decide_eq_false_2 by done. done.
Qed.

(** C6: when a version queued for a hold is not installed,
    [perform_changes] raises [TransactionError] with the names of all the
    queued versions that are not installed, [dpkg --set-selections] is not
    run (nor anything else called), and the cache, where the holds are read,
    is as before. *)
Theorem hold_creation_of_not_installed_rejected (s : State) (v : Version) :
  v ∈ _version_hold_creations s →
  installed (_cache s) (package v) ≠ Some v →
  ∃ names : list string,
    perform_changes s
    = (Raise (TransactionError
                ("Cannot perform the changes, since the following packages are not installed: "
                 +:+ Py.join ", " names)),
       non_interactive s)
    ∧ names
      ≡ₚ (λ v, name (package v))
           <$> filter (λ v, installed (_cache s) (package v) ≠ Some v)
                      (_version_hold_creations s)
    ∧ name (package v) ∈ names
    ∧ calls (non_interactive s) = calls s
    ∧ _cache (non_interactive s) = _cache s
    ∧ pending_marks (non_interactive s) = pending_marks s.
Proof.
  intros Hv Hnot.
  set (not_installed :=
         filter (λ v, is_package_installed (non_interactive s) v = false)
                (_version_hold_creations s)).
  assert (∀ w, w ∈ not_installed
               ↔ w ∈ filter (λ v, installed (_cache s) (package v) ≠ Some v)
                            (_version_hold_creations s)) as Hsame.
  { intros w. subst not_installed. rewrite !list_elem_of_filter.
    unfold is_package_installed; simpl.
    by rewrite bool_decide_eq_false. }
  assert (not_installed
          = filter (λ v, installed (_cache s) (package v) ≠ Some v)
                   (_version_hold_creations s)) as Heq.
  { subst not_installed. apply list_filter_iff. intros w.
    unfold is_package_installed; simpl. by rewrite bool_decide_eq_false. }
  assert (v ∈ not_installed) as Hin.
  { apply Hsame, list_elem_of_filter. done. }
  exists ((λ v, name (package v)) <$> Py.sorted version_lt not_installed).
  split; [| split; [| split; [| done]]].
  - rewrite perform_changes_after_settings. cbv zeta.
    assert (_version_hold_creations (non_interactive s)
            ++ _version_hold_removals (non_interactive s) ≠ []) as Hne.
    { simpl. intros [Hnil _]%app_eq_nil. rewrite Hnil in Hv.
      by apply elem_of_nil in Hv. }
    rewrite (bool_decide_eq_false_2 _ Hne). simpl andb. cbv iota.
    rewrite run_bind. simpl negb. cbv iota.
    rewrite change_holds_not_installed; [done |].
    intros Hnil. change (not_installed = []) in Hnil.
    rewrite Hnil in Hin. by apply elem_of_nil in Hin.
  - rewrite <- Heq. by rewrite sorted_perm.
  - apply list_elem_of_fmap. exists v. split; [done |].
    by rewrite sorted_perm.
Qed.

(** ** What [perform_changes] leaves alone *)

#[local] Instance same_marks_refl : Reflexive (@same_marks Cache).
Proof. by intros s. Qed.
#[local] Instance same_marks_trans : Transitive (@same_marks Cache).
Proof. unfold same_marks. intros s1 s2 s3 H1 H2. by rewrite H2. Qed.

#[local] Instance no_commit_refl : Reflexive (@no_commit Cache).
Proof.
  intros s. exists []. rewrite app_nil_r. split; [done |]. apply not_elem_of_nil.
Qed.
#[local] Instance no_commit_trans : Transitive (@no_commit Cache).
Proof.
  intros s1 s2 s3 (m1 & H1 & Hn1) (m2 & H2 & Hn2). exists (m1 ++ m2).
  rewrite H2, H1, app_assoc. split; [done |].
  rewrite elem_of_app. tauto.
Qed.

#[local] Instance same_packages_refl : Reflexive (@same_packages Cache _).
Proof. by intros s p. Qed.
#[local] Instance same_packages_trans : Transitive (@same_packages Cache _).
Proof.
  intros s1 s2 s3 H1 H2 p. destruct (H1 p) as [<- <-]. apply H2.
Qed.

(** Takes a method apart down to its [modify] steps. *)
Ltac instances := try (solve [apply _]).

Tactic Notation "respects_with" tactic3(leaf) :=
  repeat first
    [ solve [leaf]
    | apply respects_ret; instances; fail
    | apply respects_raise; instances; fail
    | apply respects_get; instances; fail
    | apply respects_lift; instances; fail
    | apply respects_bind; instances; [| intros ?]
    | apply respects_for_each; instances; intros ?
    | match goal with
      | |- respects _ (if ?b then _ else _) => destruct b
      | |- respects _ (match ?x with _ => _ end) => destruct x
      end ].

Ltac respects_steps :=
  repeat first
    [ apply respects_ret; instances; fail
    | apply respects_raise; instances; fail
    | apply respects_get; instances; fail
    | apply respects_lift; instances; fail
    | apply respects_bind; instances; [| intros ?]
    | apply respects_for_each; instances; intros ?
    | match goal with
      | |- respects _ (if ?b then _ else _) => destruct b
      | |- respects _ (match ?x with _ => _ end) => destruct x
      end ].

Ltac unfold_methods :=
  unfold perform_changes, before_check, enforce_non_interactivity,
    change_holds, mark_versions, resolve_problems, _check_changes,
    commit_changes, setenv, set_package_hold, remove_package_hold,
    _set_dpkg_selections, reset_marks, add_channel_apt_deb, append_file,
    clear_channels; cbv zeta.

Lemma cache_call_same_marks (c : call) (f : Cache → Cache) :
  respects same_marks (cache_call c f).
Proof. by apply respects_modify; instances. Qed.

Lemma mark_removals_same_marks (removals : list Version)
    (package_upgrades : gset Package) (held : gset string) :
  respects same_marks (mark_removals removals package_upgrades held).
Proof.
  revert held. induction removals as [| v rest IH]; intros held; simpl.
  - respects_steps.
  - respects_steps; try apply cache_call_same_marks. apply IH.
Qed.

Lemma perform_changes_same_marks : respects same_marks perform_changes.
Proof.
  unfold_methods.
  respects_steps;
    try apply cache_call_same_marks;
    try apply mark_removals_same_marks;
    try (by apply respects_modify; instances).
Qed.

Lemma invoke_marks_kept (m : method) (s s' : State) (r : result unit) :
  m ≠ ResetMarks → invoke m s = (r, s') → marks_kept s s'.
Proof.
  intros Hm Hrun.
  assert (∀ s s' : State, same_marks s s' → marks_kept s s') as Hsame.
  { intros s1 s2 [= Hi Hr Hc Hh Hg]. unfold marks_kept.
    rewrite Hi, Hr, Hc, Hh, Hg. done. }
  destruct m; simpl in Hrun; try done.
  - apply Hsame. revert Hrun. rewrite run_bind.
    destruct (perform_changes s) as [[a | e] s1] eqn:Hp.
    + intros [= <- <-]. by eapply perform_changes_same_marks.
    + intros [= <- <-]. by eapply perform_changes_same_marks.
  - injection Hrun as <- <-. unfold marks_kept; simpl.
    repeat split; try done. by apply prefix_app_r.
  - injection Hrun as <- <-. unfold marks_kept; simpl. done.
  - injection Hrun as <- <-. unfold marks_kept; simpl.
    repeat split; try done. by apply prefix_app_r.
  - injection Hrun as <- <-. unfold marks_kept; simpl.
    repeat split; try done. by apply prefix_app_r.
  - injection Hrun as <- <-. unfold marks_kept; simpl.
    repeat split; try done. by apply prefix_app_r.
  - apply Hsame. revert Hrun. unfold_methods. rewrite run_get.
    destruct (match sources_file s with Some _ => _ | None => _ end);
      by intros [= <- <-].
  - injection Hrun as <- <-. by apply Hsame.
Qed.

(** C4: when [perform_changes] raises, whatever the exception, the four
    collections of marks and the global-upgrade flag are what they were
    before the call.  Of the mark methods, [perform_changes] and the channel
    methods, none but [reset_marks] takes a mark away, and [reset_marks]
    empties the collections and unsets the flag. *)
Theorem failed_perform_changes_keeps_marks :
  (∀ (s s' : State) (e : exn),
     perform_changes s = (Raise e, s') →
     pending_marks s' = pending_marks s)
  ∧ (∀ (m : method) (s s' : State) (r : result unit),
       m ≠ ResetMarks → invoke m s = (r, s') → marks_kept s s')
  ∧ (∀ s : State,
       ∃ s', reset_marks s = (Ok tt, s')
             ∧ pending_marks s' = ([], [], [], [], false)).
Proof.
  split; [| split].
  - intros s s' e Hrun. by eapply perform_changes_same_marks.
  - apply invoke_marks_kept.
  - intros s. eexists. split; [reflexivity | done].
Qed.

(** ** Before the check: no commit, and the packages as they were *)

Lemma resolve_problems_state (s : State) :
  ∃ r, resolve_problems s
       = (r, set_cache (fixer_resolve (_cache s)).2
               (add_call CallFixerResolve s)).
Proof.
  unfold resolve_problems. rewrite run_get.
  destruct (fixer_resolve (_cache s)) as [failure c] eqn:Hres. simpl.
  rewrite run_bind. simpl. destruct failure as [message |].
  - rewrite run_get, run_bind. unfold lift.
    destruct (_get_unmet_dependency_info _); eexists; reflexivity.
  - eexists; reflexivity.
Qed.

Lemma cache_call_no_commit (c : call) (f : Cache → Cache) :
  c ≠ CallCommit → respects no_commit (cache_call c f).
Proof.
  intros Hc. apply respects_modify. intros s. exists [c]. simpl.
  split; [done |]. by rewrite list_elem_of_singleton.
Qed.

Lemma modify_no_commit (f : State → State) :
  (∀ s, calls (f s) = calls s) → respects no_commit (modify f).
Proof.
  intros Hf. apply respects_modify. intros s. exists [].
  rewrite Hf, app_nil_r. split; [done | apply not_elem_of_nil].
Qed.

Lemma set_dpkg_selections_no_commit (selection : string) :
  respects no_commit (_set_dpkg_selections selection).
Proof.
  apply respects_modify. intros s. exists [CallDpkgSetSelections selection].
  simpl. split; [done |]. by rewrite list_elem_of_singleton.
Qed.

Lemma resolve_problems_no_commit : respects no_commit resolve_problems.
Proof.
  intros s r s' Hrun. destruct (resolve_problems_state s) as [r' Hst].
  rewrite Hst in Hrun. injection Hrun as _ <-.
  exists [CallFixerResolve]. simpl. split; [done |].
  by rewrite list_elem_of_singleton.
Qed.

Ltac no_commit_leaf :=
  first [ apply cache_call_no_commit; discriminate
        | apply set_dpkg_selections_no_commit
        | apply resolve_problems_no_commit
        | apply modify_no_commit; intros ?; reflexivity ].

Lemma mark_removals_no_commit (removals : list Version)
    (package_upgrades : gset Package) (held : gset string) :
  respects no_commit (mark_removals removals package_upgrades held).
Proof.
  revert held. induction removals as [| v rest IH]; intros held; simpl.
  - respects_steps.
  - respects_with first [no_commit_leaf | apply IH].
Qed.

Lemma before_check_no_commit : respects no_commit before_check.
Proof.
  unfold before_check, enforce_non_interactivity, change_holds,
    mark_versions, setenv, set_package_hold, remove_package_hold; cbv zeta.
  respects_with first [no_commit_leaf | apply mark_removals_no_commit].
Qed.

Section WithPlanning.
Context `{!Planning Cache}.

Lemma cache_call_same_packages (c : call) (f : Cache → Cache) :
  keeps_packages f → respects same_packages (cache_call c f).
Proof. intros Hf. apply respects_modify. intros s p. simpl. apply Hf. Qed.

Lemma modify_same_packages (f : State → State) :
  (∀ s, _cache (f s) = _cache s) → respects same_packages (modify f).
Proof.
  intros Hf. apply respects_modify. intros s p. by rewrite Hf.
Qed.

Lemma resolve_problems_same_packages :
  respects same_packages resolve_problems.
Proof.
  intros s r s' Hrun. destruct (resolve_problems_state s) as [r' Hst].
  rewrite Hst in Hrun. injection Hrun as _ <-.
  intros p. simpl. apply (plan_fixer_resolve (_cache s) p).
Qed.

Ltac same_packages_leaf :=
  first [ apply cache_call_same_packages;
          first [ apply plan_set_candidate | apply plan_mark_install
                | apply plan_mark_delete | apply plan_upgrade
                | apply plan_fixer_new | apply plan_fixer_clear
                | apply plan_fixer_protect | apply plan_fixer_remove
                | apply plan_fixer_install_protect ]
        | apply resolve_problems_same_packages
        | apply modify_same_packages; intros ?; reflexivity ].

Lemma mark_removals_same_packages (removals : list Version)
    (package_upgrades : gset Package) (held : gset string) :
  respects same_packages (mark_removals removals package_upgrades held).
Proof.
  revert held. induction removals as [| v rest IH]; intros held; simpl.
  - respects_steps.
  - respects_with first [same_packages_leaf | apply IH].
Qed.

Lemma before_check_same_packages : respects same_packages before_check.
Proof.
  unfold before_check, enforce_non_interactivity, change_holds,
    mark_versions, setenv, set_package_hold, remove_package_hold,
    _set_dpkg_selections; cbv zeta.
  respects_with
    first [same_packages_leaf | apply mark_removals_same_packages].
Qed.

End WithPlanning.

(** ** The check of the changes *)

Lemma run_bind_assoc {A B C : Type} (m : M A) (k : A → M B) (k' : B → M C)
    (s : State) :
  ((m ≫= k) ≫= k') s = (m ≫= (λ a, k a ≫= k')) s.
Proof.
  rewrite !run_bind. destruct (m s) as [[a | e] s1]; [| done].
  by rewrite run_bind.
Qed.

Lemma perform_changes_with_versions (s : State) :
  _version_installs s ++ _version_removals s ≠ []
  ∨ _global_upgrade s = true →
  perform_changes s
  = (before_check ;;
     changed ← _check_changes (_version_installs s ++ _version_removals s);
     if negb changed then mret None else commit_changes) s.
Proof.
  intros Hversions. rewrite perform_changes_after_settings. cbv zeta.
  unfold before_check.
  rewrite run_bind_assoc.
  rewrite (run_bind_ok _ _ _ _ _ (enforce_non_interactivity_run s)).
  rewrite run_bind_assoc, run_get. simpl.
  assert (bool_decide (_version_installs s ++ _version_removals s = [])
          && negb (_global_upgrade s) = false) as Hnot.
  { destruct Hversions as [Hne | ->].
    - by rewrite bool_decide_eq_false_2.
    - by rewrite andb_false_r. }
  rewrite <- andb_assoc, Hnot, andb_false_r.
  assert (negb (bool_decide (_version_installs s ++ _version_removals s = []))
          || _global_upgrade s = true) as ->.
  { destruct (bool_decide _), (_global_upgrade s); done. }
  by rewrite run_bind_assoc.
Qed.

Lemma collect_changes_spec (c : Cache) (packages : list Package)
    (found : gset (Package * option Version)) :
  (∀ p, p ∈ packages → _is_main_architecture p = true →
        is_Some (_get_changed_versions c p)) →
  ∃ plan,
    collect_changes c packages found = Ok plan
    ∧ ∀ pv, pv ∈ plan
            ↔ pv ∈ found
              ∨ (pv.1 ∈ packages
                 ∧ _is_main_architecture pv.1 = true
                 ∧ ∃ versions, _get_changed_versions c pv.1 = Some versions
                               ∧ pv.2 ∈ versions).
Proof.
  revert found. induction packages as [| p rest IH]; intros found Hall; simpl.
  - exists found. split; [done |]. intros pv. split; [by left |].
    intros [? | (Hin & _)]; [done | by apply elem_of_nil in Hin].
  - assert (∀ q, q ∈ rest → _is_main_architecture q = true →
                 is_Some (_get_changed_versions c q)) as Hrest.
    { intros q Hq. apply Hall. by right. }
    destruct (_is_main_architecture p) eqn:Hmain; simpl.
    + destruct (Hall p) as [versions Hv]; [by left | done |].
      rewrite Hv.
      destruct (IH (found ∪ list_to_set ((λ v, (p, v)) <$> versions)) Hrest)
        as (plan & -> & Hplan).
      exists plan. split; [done |]. intros [q ov]. rewrite Hplan. simpl.
      rewrite elem_of_union, elem_of_list_to_set, list_elem_of_fmap.
      rewrite elem_of_cons. split.
      * intros [[Hf | (v & [= -> ->] & Hin)] | (Hq & Hm & Hvs)].
        -- by left.
        -- right. split; [by left |]. split; [done |]. by exists versions.
        -- right. split; [by right | done].
      * intros [Hf | ([-> | Hq] & Hm & (vs & Hvs & Hin))].
        -- by left; left.
        -- left; right. exists ov. split; [done |]. congruence.
        -- right. split; [done |]. split; [done |]. by exists vs.
    + destruct (IH found Hrest) as (plan & -> & Hplan).
      exists plan. split; [done |]. intros [q ov]. rewrite Hplan. simpl.
      rewrite elem_of_cons. split.
      * intros [Hf | (Hq & Hm & Hvs)]; [by left |].
        right. split; [by right | done].
      * intros [Hf | ([-> | Hq] & Hm & Hvs)]; [by left | congruence |].
        right. done.
Qed.

(** [_get_changed_versions] against the marks of Apt. *)
Lemma get_changed_versions_marks (c : Cache) (p : Package) :
  match _get_changed_versions c p with
  | Some versions => marked c p ∧ ∀ v, v ∈ versions ↔ apt_changes c p v
  | None => ¬ marked c p
  end.
Proof.
  unfold _get_changed_versions, marked, apt_changes.
  destruct (marked_install c p) eqn:Hi.
  { split; [by left |]. intros v. rewrite list_elem_of_singleton.
    split; [by left |]. intros [[_ ?] | [[? _] | [? _]]]; done. }
  destruct (marked_upgrade c p) eqn:Hu.
  { simpl. split; [by right; left |]. intros v.
    rewrite !elem_of_cons, elem_of_nil. split.
    - intros [-> | [-> | []]]; right; left; split; [done | | done |];
        (split; [by left |]); [by left | by right].
    - intros [[? _] | [(_ & _ & [-> | ->]) | (_ & ? & _)]]; try done;
        [by left | by right; left]. }
  destruct (marked_downgrade c p) eqn:Hd.
  { simpl. split; [by right; right; left |]. intros v.
    rewrite !elem_of_cons, elem_of_nil. split.
    - intros [-> | [-> | []]]; right; left; split; [done | | done |];
        (split; [by right |]); [by left | by right].
    - intros [[? _] | [(_ & _ & [-> | ->]) | (_ & _ & ? & _)]]; try done;
        [by left | by right; left]. }
  simpl. destruct (marked_delete c p) eqn:Hdel.
  { split; [by right; right; right |]. intros v.
    rewrite list_elem_of_singleton. split.
    - intros ->. right; right. done.
    - intros [[? _] | [(_ & [? | ?] & _) | (_ & _ & _ & _ & ->)]]; done. }
  intros [? | [? | [? | ?]]]; done.
Qed.

Lemma marked_changed_versions (c : Cache) (p : Package) :
  marked c p → is_Some (_get_changed_versions c p).
Proof.
  intros Hmarked. pose proof (get_changed_versions_marks c p) as Hspec.
  destruct (_get_changed_versions c p); [done | by destruct Hspec].
Qed.

Lemma changed_versions_apt_changes (c : Cache) (p : Package)
    (v : option Version) :
  (∃ versions, _get_changed_versions c p = Some versions ∧ v ∈ versions)
  ↔ apt_changes c p v.
Proof.
  pose proof (get_changed_versions_marks c p) as Hspec.
  destruct (_get_changed_versions c p) as [versions |].
  - destruct Hspec as [_ Hspec]. rewrite <- Hspec. split.
    + by intros (vs & [= <-] & Hin).
    + intros Hin. by exists versions.
  - split; [by intros (vs & ? & _) |]. intros Hchanges. destruct Hspec.
    unfold marked. unfold apt_changes in Hchanges.
    destruct Hchanges as [[? _] | [(_ & [? | ?] & _) | (_ & _ & _ & ? & _)]];
      auto.
Qed.

Lemma check_changes_run (s : State) (requested_changes : list Version) :
  (∀ p, p ∈ get_changes (_cache s) → _is_main_architecture p = true →
        marked (_cache s) p) →
  ∃ plan : gset (Package * option Version),
    (∀ pv, pv ∈ plan ↔ planned (_cache s) pv)
    ∧ _check_changes requested_changes s
      = (let dependencies :=
           plan ∖ list_to_set ((λ v, (package v, Some v))
                                 <$> requested_changes) in
         if bool_decide (dependencies = ∅)
         then (Ok (bool_decide (0 < size plan)%nat), s)
         else (Raise (DependencyError ((elements dependencies).*2)), s)).
Proof.
  intros Hall.
  destruct (collect_changes_spec (_cache s) (get_changes (_cache s)) ∅)
    as (plan & Hcollect & Hplan).
  { intros p Hp Hmain. by apply marked_changed_versions, Hall. }
  exists plan. split.
  - intros pv. rewrite Hplan. unfold planned.
    rewrite changed_versions_apt_changes. split; [| by right].
    intros [Hempty | Hp]; [| done]. by apply not_elem_of_empty in Hempty.
  - unfold _check_changes. rewrite run_get. cbv zeta.
    rewrite run_bind. unfold lift. rewrite Hcollect.
    by destruct (bool_decide _).
Qed.

Lemma requested_elem_of (s : State) (pv : Package * option Version) :
  pv ∈ (list_to_set ((λ v, (package v, Some v))
                       <$> (_version_installs s ++ _version_removals s))
          : gset (Package * option Version))
  ↔ requested s pv.
Proof.
  rewrite elem_of_list_to_set, list_elem_of_fmap. unfold requested.
  split; intros (v & H1 & H2); by exists v.
Qed.

(** C1, as the code has it.  Take a call of [perform_changes] with version
    changes or the global upgrade queued.  Up to the check no commit is
    made.  If an earlier step raises, that is the outcome.  Otherwise, with
    every changed package of the main architecture marked in one of the
    four ways the facade knows: if Apt plans a change of a version of a
    main-architecture package that was not marked for install or removal,
    [DependencyError] is raised, its list holds exactly those versions, one
    entry for each unrequested (package, version), and no commit is made;
    and if there is no such change, the commit runs on a plan whose
    main-architecture changes were all marked (or nothing is done when the
    plan is empty). *)
Theorem unrequested_changes_rejected (s : State) :
  _version_installs s ++ _version_removals s ≠ []
  ∨ _global_upgrade s = true →
  let s2 := (before_check s).2 in
  no_commit s s2
  ∧ match (before_check s).1 with
    | Raise e => perform_changes s = (Raise e, s2)
    | Ok _ =>
        (∀ p, p ∈ get_changes (_cache s2) →
              _is_main_architecture p = true →
              marked (_cache s2) p) →
        ((∃ pv, planned (_cache s2) pv ∧ ¬ requested s pv) →
         ∃ excess : list (Package * option Version),
           perform_changes s = (Raise (DependencyError (excess.*2)), s2)
           ∧ NoDup excess
           ∧ ∀ pv, pv ∈ excess ↔ planned (_cache s2) pv ∧ ¬ requested s pv)
        ∧ ((∀ pv, planned (_cache s2) pv → requested s pv) →
           ((∃ pv, planned (_cache s2) pv) →
            perform_changes s = commit_changes s2)
           ∧ ((∀ pv, ¬ planned (_cache s2) pv) →
              perform_changes s = (Ok None, s2)))
    end.
Proof.
  intros Hversions s2. subst s2.
  rewrite (perform_changes_with_versions s Hversions).
  destruct (before_check s) as [[[] | e] s2] eqn:Hbefore; simpl.
  - split; [by eapply before_check_no_commit |].
    intros Hall. rewrite run_bind, Hbefore.
    destruct (check_changes_run s2
                (_version_installs s ++ _version_removals s) Hall)
      as (plan & Hplan & Hcheck).
    rewrite run_bind, Hcheck. cbv zeta.
    set (dependencies := plan ∖ _).
    assert (∀ pv, pv ∈ dependencies
                  ↔ planned (_cache s2) pv ∧ ¬ requested s pv) as Hdeps.
    { intros pv. subst dependencies.
      by rewrite elem_of_difference, Hplan, requested_elem_of. }
    split.
    + intros (pv & Hpv). exists (elements dependencies).
      rewrite bool_decide_eq_false_2.
      * split; [done |]. split; [apply NoDup_elements |].
        intros qv. by rewrite elem_of_elements.
      * intros Hempty. apply Hdeps in Hpv. rewrite Hempty in Hpv.
        by apply not_elem_of_empty in Hpv.
    + intros Hsub. rewrite bool_decide_eq_true_2.
      * split.
        -- intros (pv & Hpv). rewrite bool_decide_eq_true_2; [done |].
           apply Hplan in Hpv.
           destruct (size plan) eqn:Hsize; [| lia].
           apply size_empty_inv in Hsize. by apply Hsize in Hpv.
        -- intros Hnone. rewrite bool_decide_eq_false_2; [done |].
           intros Hsize. apply size_pos_elem_of in Hsize.
           destruct Hsize as (pv & Hpv). apply (Hnone pv). by apply Hplan.
      * apply set_eq. intros pv. rewrite Hdeps. split.
        -- intros [Hp Hr]. destruct Hr. by apply Hsub.
        -- intros Hempty. by apply not_elem_of_empty in Hempty.
  - split; [by eapply before_check_no_commit |].
    by rewrite run_bind, Hbefore.
Qed.

(** ** Removing a held package *)

Lemma succeeds_ret {A : Type} (a : A) : succeeds (mret a : M A).
Proof. intros s. by exists a, s. Qed.

Lemma succeeds_get : succeeds get.
Proof. intros s. by exists s, s. Qed.

Lemma succeeds_modify (f : State → State) : succeeds (modify f).
Proof. intros s. by exists tt, (f s). Qed.

Lemma succeeds_bind {A B : Type} (m : M A) (k : A → M B) :
  succeeds m → (∀ a, succeeds (k a)) → succeeds (m ≫= k).
Proof.
  intros Hm Hk s. destruct (Hm s) as (a & s1 & Hrun).
  destruct (Hk a s1) as (b & s2 & Hrun'). exists b, s2.
  by rewrite (run_bind_ok _ _ _ _ _ Hrun).
Qed.

Lemma succeeds_for_each {A : Type} (xs : list A) (body : A → M unit) :
  (∀ x, succeeds (body x)) → succeeds (for_each xs body).
Proof.
  intros Hbody. induction xs as [| x xs IH]; simpl.
  - apply succeeds_ret.
  - apply succeeds_bind; [apply Hbody | intros _; apply IH].
Qed.

Ltac succeeds_steps :=
  repeat first
    [ apply succeeds_ret
    | apply succeeds_get
    | apply succeeds_modify
    | apply succeeds_bind; [| intros ?]
    | apply succeeds_for_each; intros ?
    | match goal with
      | |- succeeds (if ?b then _ else _) => destruct b
      end ].

#[local] Instance same_inputs_refl : Reflexive (@same_inputs Cache).
Proof. by intros s. Qed.
#[local] Instance same_inputs_trans : Transitive (@same_inputs Cache).
Proof.
  unfold same_inputs. intros s1 s2 s3 [H1 H1'] [H2 H2']. by rewrite H2, H2'.
Qed.

Lemma hold_loops_succeed (creations removals : list Version) :
  succeeds (for_each creations set_package_hold ;;
            for_each removals remove_package_hold).
Proof.
  unfold set_package_hold, remove_package_hold, _set_dpkg_selections.
  succeeds_steps.
Qed.

Lemma hold_loops_same_inputs (creations removals : list Version) :
  respects same_inputs (for_each creations set_package_hold ;;
                        for_each removals remove_package_hold).
Proof.
  unfold set_package_hold, remove_package_hold, _set_dpkg_selections.
  respects_with (by apply respects_modify; instances).
Qed.

Lemma filter_none {A : Type} (P : A → Prop) `{!∀ x, Decision (P x)}
    (xs : list A) :
  (∀ x, x ∈ xs → ¬ P x) → filter P xs = [].
Proof.
  induction xs as [| x xs IH]; intros Hall; [done |].
  rewrite filter_cons_False by (apply Hall; by left).
  apply IH. intros y Hy. apply Hall. by right.
Qed.

Lemma change_holds_all_installed (s : State) :
  (∀ w, w ∈ _version_hold_creations s →
        installed (_cache s) (package w) = Some w) →
  ∃ s', change_holds s = (Ok tt, s') ∧ same_inputs s s'.
Proof.
  intros Hall. unfold change_holds. rewrite run_get. cbv zeta.
  assert (filter (λ v, is_package_installed s v = false)
                 (_version_hold_creations s) = []) as ->.
  { apply filter_none. intros w Hw.
    unfold is_package_installed. rewrite bool_decide_eq_true_2; [done |].
    by apply Hall. }
  rewrite bool_decide_eq_true_2 by done. simpl negb. cbv iota.
  destruct (hold_loops_succeed (_version_hold_creations s)
              (_version_hold_removals s) s) as ([] & s' & Hrun).
  exists s'. split; [done |]. by eapply hold_loops_same_inputs.
Qed.

Section HeldRemovals.
Context `{!Planning Cache}.

Lemma removal_marks_succeed (p : Package) :
  succeeds
    (cache_call (CallMarkDelete p) (package_mark_delete p) ;;
     cache_call (CallFixerClear p) (fixer_clear p) ;;
     cache_call (CallFixerProtect p) (fixer_protect p) ;;
     cache_call (CallFixerRemove p) (fixer_remove p) ;;
     cache_call CallFixerInstallProtect fixer_install_protect).
Proof. unfold cache_call. succeeds_steps. Qed.

Lemma removal_marks_same_packages (p : Package) :
  respects same_packages
    (cache_call (CallMarkDelete p) (package_mark_delete p) ;;
     cache_call (CallFixerClear p) (fixer_clear p) ;;
     cache_call (CallFixerProtect p) (fixer_protect p) ;;
     cache_call (CallFixerRemove p) (fixer_remove p) ;;
     cache_call CallFixerInstallProtect fixer_install_protect).
Proof.
  respects_with
    (apply cache_call_same_packages;
     first [ apply plan_mark_delete | apply plan_fixer_clear
           | apply plan_fixer_protect | apply plan_fixer_remove
           | apply plan_fixer_install_protect ]).
Qed.

Lemma install_marks_succeed (installs : list Version) :
  succeeds
    (for_each installs
       (λ v,
          cache_call (CallSetCandidate v) (set_candidate v) ;;
          cache_call (CallMarkInstall (package v))
                     (package_mark_install (package v)) ;;
          cache_call (CallFixerClear (package v)) (fixer_clear (package v)) ;;
          cache_call (CallFixerProtect (package v))
                     (fixer_protect (package v)))).
Proof. unfold cache_call. succeeds_steps. Qed.

Lemma install_marks_same_packages (installs : list Version) :
  respects same_packages
    (for_each installs
       (λ v,
          cache_call (CallSetCandidate v) (set_candidate v) ;;
          cache_call (CallMarkInstall (package v))
                     (package_mark_install (package v)) ;;
          cache_call (CallFixerClear (package v)) (fixer_clear (package v)) ;;
          cache_call (CallFixerProtect (package v))
                     (fixer_protect (package v)))).
Proof.
  respects_with
    (apply cache_call_same_packages;
     first [ apply plan_set_candidate | apply plan_mark_install
           | apply plan_fixer_clear | apply plan_fixer_protect ]).
Qed.

Lemma held_same_packages (base s : State) (p : Package) :
  same_packages base s → _is_package_held s p = _is_package_held base p.
Proof.
  intros Hsame. unfold _is_package_held. by destruct (Hsame p) as [_ ->].
Qed.

(** The loop over the removals returns the names of the held packages. *)
Lemma mark_removals_run (base : State) (removals : list Version)
    (package_upgrades : gset Package) (held : gset string) (s : State) :
  same_packages base s →
  ∃ s',
    mark_removals removals package_upgrades held s
    = (Ok (held
           ∪ list_to_set
               ((λ w, name (package w))
                  <$> filter (λ w, _is_package_held base (package w) = true)
                             removals)),
       s')
    ∧ same_packages base s'.
Proof.
  revert held s. induction removals as [| v rest IH]; intros held s Hsame.
  - exists s. split; [| done]. simpl. by rewrite (right_id_L ∅ (∪)).
  - simpl. rewrite run_get. cbv zeta.
    rewrite (held_same_packages base s _ Hsame).
    assert (∃ s1,
              (if bool_decide (package v ∈ package_upgrades)
               then mret tt
               else
                 cache_call (CallMarkDelete (package v))
                            (package_mark_delete (package v)) ;;
                 cache_call (CallFixerClear (package v))
                            (fixer_clear (package v)) ;;
                 cache_call (CallFixerProtect (package v))
                            (fixer_protect (package v)) ;;
                 cache_call (CallFixerRemove (package v))
                            (fixer_remove (package v)) ;;
                 cache_call CallFixerInstallProtect fixer_install_protect) s
              = (Ok tt, s1)
              ∧ same_packages s s1) as (s1 & Hbody & Hs1).
    { destruct (bool_decide _).
      - by exists s.
      - destruct (removal_marks_succeed (package v) s) as ([] & s1 & Hrun).
        exists s1. split; [done |].
        by eapply removal_marks_same_packages. }
    rewrite (run_bind_ok _ _ _ _ _ Hbody).
    destruct (IH (if _is_package_held base (package v)
                  then held ∪ {[name (package v)]} else held) s1)
      as (s' & Hrun & Hs'); [by etrans |].
    exists s'. split; [| done]. rewrite Hrun. f_equal. f_equal.
    destruct (_is_package_held base (package v)) eqn:Hheld.
    + rewrite filter_cons_True by done. rewrite fmap_cons, list_to_set_cons.
      by rewrite (assoc_L (∪)).
    + rewrite filter_cons_False by (by rewrite Hheld). done.
Qed.

Lemma mark_versions_held (s : State) (package_upgrades : gset Package) :
  held_removals s ≠ ∅ →
  ∃ s',
    mark_versions package_upgrades s
    = (Raise (TransactionError
                (held_message
                   (Py.sorted String.ltb (elements (held_removals s))))),
       s').
Proof.
  intros Hheld. unfold mark_versions.
  set (sa := set_cache (fixer_new (_cache s)) (add_call CallFixerNew s)).
  rewrite (run_bind_ok (cache_call CallFixerNew fixer_new) _ s sa tt eq_refl).
  rewrite run_get. cbv zeta.
  assert (same_packages s sa) as Hsa.
  { intros p. apply plan_fixer_new. }
  destruct (install_marks_succeed (_version_installs sa) sa)
    as ([] & sb & Hb).
  rewrite (run_bind_ok _ _ _ _ _ Hb).
  assert (same_packages sa sb) as Hsb
    by (by eapply install_marks_same_packages).
  assert (∃ sc,
            (if _global_upgrade sa then cache_call CallUpgrade cache_upgrade
             else mret tt) sb = (Ok tt, sc)
            ∧ same_packages sb sc) as (sc & Hc & Hsc).
  { destruct (_global_upgrade sa).
    - eexists. split; [reflexivity |]. intros p. apply plan_upgrade.
    - by exists sb. }
  rewrite (run_bind_ok _ _ _ _ _ Hc).
  destruct (mark_removals_run s (_version_removals sa) package_upgrades ∅ sc)
    as (sd & Hd & Hsd).
  { etrans; [exact Hsa |]. etrans; [exact Hsb | exact Hsc]. }
  rewrite (run_bind_ok _ _ _ _ _ Hd).
  rewrite (left_id_L ∅ (∪)).
  change (list_to_set _) with (held_removals s).
  rewrite bool_decide_eq_false_2 by done.
  exists sd. done.
Qed.

Lemma held_removals_same_inputs (s s' : State) :
  same_inputs s s' → held_removals s' = held_removals s.
Proof.
  intros [Hcache [= _ Hremovals _ _ _]]. unfold held_removals.
  rewrite Hremovals. f_equal. f_equal. apply list_filter_iff. intros w.
  unfold _is_package_held. by rewrite Hcache.
Qed.

Lemma sorted_names_elem_of (names : gset string) (n : string) :
  n ∈ Py.sorted String.ltb (elements names) ↔ n ∈ names.
Proof. by rewrite sorted_perm, elem_of_elements. Qed.

(** C5, as the code has it: when a version marked for removal belongs to a
    held package and every version queued for a hold is installed,
    [perform_changes] raises [TransactionError] with the names of all the
    held packages that have a version marked for removal, each once.  No
    commit is made, and with Apt only planning until then every version is
    installed afterwards exactly if it was before; so the held packages
    are.  The marks stay. *)
Theorem held_removal_rejected (s : State) (v : Version) :
  v ∈ _version_removals s →
  _is_package_held s (package v) = true →
  (∀ w, w ∈ _version_hold_creations s →
        installed (_cache s) (package w) = Some w) →
  ∃ (names : list string) (s' : State),
    perform_changes s
    = (Raise (TransactionError
                ("Can't perform the changes, since the following packages are held: "
                 +:+ Py.join ", " names)),
       s')
    ∧ (∀ n, n ∈ names
            ↔ ∃ w, w ∈ _version_removals s
                   ∧ _is_package_held s (package w) = true
                   ∧ name (package w) = n)
    ∧ name (package v) ∈ names
    ∧ NoDup names
    ∧ no_commit s s'
    ∧ (∀ w, is_package_installed s' w = is_package_installed s w)
    ∧ (∀ p, _is_package_held s' p = _is_package_held s p)
    ∧ pending_marks s' = pending_marks s.
Proof.
  intros Hv Hheld Hinstalled.
  assert (∀ n, n ∈ held_removals s
               ↔ ∃ w, w ∈ _version_removals s
                      ∧ _is_package_held s (package w) = true
                      ∧ name (package w) = n) as Hnames.
  { intros n. unfold held_removals.
    rewrite elem_of_list_to_set, list_elem_of_fmap. split.
    - intros (w & -> & [Hw1 Hw2]%list_elem_of_filter). by exists w.
    - intros (w & Hw1 & Hw2 & <-). exists w. split; [done |].
      by apply list_elem_of_filter. }
  assert (held_removals s ≠ ∅) as Hne.
  { intros Hempty. assert (name (package v) ∈ held_removals s) as Hin.
    { apply Hnames. by exists v. }
    rewrite Hempty in Hin. by apply not_elem_of_empty in Hin. }
  assert (∃ s1,
            (if negb (bool_decide
                        (_version_hold_creations (non_interactive s)
                         ++ _version_hold_removals (non_interactive s) = []))
             then change_holds else mret tt) (non_interactive s)
            = (Ok tt, s1)
            ∧ same_inputs s s1) as (s1 & Hblock & Hs1).
  { destruct (bool_decide _); simpl.
    - by exists (non_interactive s).
    - by destruct (change_holds_all_installed (non_interactive s) Hinstalled)
        as (s1 & Hrun & Hsame); exists s1. }
  destruct (mark_versions_held s1 (package_upgrades_of (non_interactive s)))
    as (s' & Hmark); [by rewrite (held_removals_same_inputs s s1) |].
  rewrite (held_removals_same_inputs s s1 Hs1) in Hmark.
  assert (before_check s
          = (Raise (TransactionError
                      (held_message
                         (Py.sorted String.ltb (elements (held_removals s))))),
             s')) as Hbefore.
  { unfold before_check.
    rewrite (run_bind_ok _ _ _ _ _ (enforce_non_interactivity_run s)).
    rewrite run_get. by rewrite (run_bind_ok _ _ _ _ _ Hblock). }
  exists (Py.sorted String.ltb (elements (held_removals s))), s'.
  split; [| split; [| split; [| split; [| split; [| split; [| split]]]]]].
  - rewrite perform_changes_with_versions.
    + by rewrite (run_bind_raise _ _ _ _ _ Hbefore).
    + left. intros [_ Hnil]%app_eq_nil. rewrite Hnil in Hv.
      by apply elem_of_nil in Hv.
  - intros n. by rewrite sorted_names_elem_of.
  - apply sorted_names_elem_of, Hnames. by exists v.
  - rewrite sorted_perm. apply NoDup_elements.
  - by eapply before_check_no_commit.
  - intros w. unfold is_package_installed.
    by destruct (before_check_same_packages s _ s' Hbefore (package w))
      as [-> _].
  - intros p. apply held_same_packages.
    by eapply before_check_same_packages.
  - eapply perform_changes_same_marks.
    rewrite perform_changes_with_versions.
    + by rewrite (run_bind_raise _ _ _ _ _ Hbefore).
    + left. intros [_ Hnil]%app_eq_nil. rewrite Hnil in Hv.
      by apply elem_of_nil in Hv.
Qed.

End HeldRemovals.

(** ** The internal sources file *)

Lemma contains_elem_of (x : string) (xs : list string) :
  Py.contains x xs = true ↔ x ∈ xs.
Proof.
  unfold Py.contains. induction xs as [| y ys IH]; simpl.
  - split; [done | intros H; by apply elem_of_nil in H].
  - rewrite orb_true_iff, IH, elem_of_cons, String.eqb_eq. done.
Qed.

Lemma split_not_nil (sep : ascii) (text : string) : Py.split sep text ≠ [].
Proof.
  destruct text as [| c rest]; simpl; [done |].
  destruct (Ascii.eqb c sep); [done |]. by destruct (Py.split sep rest).
Qed.

Lemma split_at_separator (sep : ascii) (before after : string) :
  Py.split sep (before +:+ String sep after)
  = Py.split sep before ++ Py.split sep after.
Proof.
  induction before as [| c rest IH].
  - change ("" +:+ String sep after) with (String sep after). simpl.
    by rewrite Ascii.eqb_refl.
  - change (String c rest +:+ String sep after)
      with (String c (rest +:+ String sep after)).
    simpl. destruct (Ascii.eqb c sep); [by rewrite IH |].
    rewrite IH. pose proof (split_not_nil sep rest) as Hne.
    by destruct (Py.split sep rest).
Qed.

Lemma split_without_separator (sep : ascii) (text : string) :
  Py.has_char sep text = false → Py.split sep text = [text].
Proof.
  induction text as [| c rest IH]; simpl; [done |].
  intros [Hc Hrest]%orb_false_iff. rewrite Hc. by rewrite IH.
Qed.

(** A line that was put at the end of a text of whole lines is one of the
    pieces of the text. *)
Lemma line_found_after_append (current line : string) :
  Py.has_char Py.LF line = false →
  current = "" ∨ (∃ text, current = text +:+ Py.newline) →
  Py.contains line (Py.split Py.LF (current +:+ (line +:+ Py.newline)))
  = true.
Proof.
  intros Hline Hcurrent. apply contains_elem_of.
  assert (Py.split Py.LF (line +:+ Py.newline) = [line; ""]) as Hlast.
  { unfold Py.newline. rewrite split_at_separator.
    by rewrite split_without_separator. }
  destruct Hcurrent as [-> | (text & ->)].
  - change ("" +:+ (line +:+ Py.newline)) with (line +:+ Py.newline).
    rewrite Hlast. by left.
  - rewrite str_app_assoc.
    change (Py.newline +:+ (line +:+ Py.newline))
      with (String Py.LF (line +:+ Py.newline)).
    rewrite split_at_separator, Hlast, elem_of_app. right. by left.
Qed.

(** C9, as the code has it: for arguments whose line has no line feed, and
    an internal sources file that does not exist, is empty or ends with a
    line feed (as it does when only the facade writes it), a second call of
    [add_channel_apt_deb] with the same arguments changes nothing: the line
    is not put in the file twice.  The file is again of that kind
    afterwards. *)
Theorem add_channel_apt_deb_twice (s : State) (url codename : string)
    (components : option (list string)) :
  Py.has_char Py.LF (sources_line url codename components) = false →
  sources_file s = None
  ∨ sources_file s = Some ""
  ∨ (∃ text, sources_file s = Some (text +:+ Py.newline)) →
  ∃ s1,
    add_channel_apt_deb url codename components s = (Ok tt, s1)
    ∧ add_channel_apt_deb url codename components s1 = (Ok tt, s1)
    ∧ (sources_file s1 = Some ""
       ∨ ∃ text, sources_file s1 = Some (text +:+ Py.newline)).
Proof.
  intros Hline Hfile. unfold add_channel_apt_deb. rewrite run_get. cbv zeta.
  set (line := sources_line url codename components) in *.
  destruct (match sources_file s with
            | Some current => Py.contains line (Py.split Py.LF current)
            | None => false
            end) eqn:Hfound.
  - exists s. split; [done |]. rewrite run_get, Hfound. split; [done |].
    destruct Hfile as [Hnone | [Hempty | Htext]]; [| by left | by right].
    by rewrite Hnone in Hfound.
  - unfold append_file, modify.
    set (current := from_option id "" (sources_file s)).
    exists (set_sources_file (Some (current +:+ (line +:+ Py.newline))) s).
    split; [done |]. rewrite run_get. simpl.
    rewrite line_found_after_append; [| done |].
    + split; [done |]. right. exists (current +:+ line).
      by rewrite str_app_assoc.
    + subst current.
      destruct Hfile as [-> | [-> | (text & ->)]]; simpl;
        [by left | by left | right; by exists text].
Qed.

(** ** The calls of a transaction, in their order *)

#[local] Set Warnings "-clear-no-such-hyp".

Lemma with_calls_nil (s : State) : with_calls [] s = s.
Proof. destruct s. unfold with_calls; simpl. by rewrite app_nil_r. Qed.

Lemma with_calls_app (made later : list call) (s : State) :
  with_calls later (with_calls made s) = with_calls (made ++ later) s.
Proof. unfold with_calls; simpl. by rewrite app_assoc. Qed.

Lemma set_holds_run (creations : list Version) (s : State) :
  for_each creations set_package_hold s
  = (Ok tt,
     with_calls
       ((λ v, CallDpkgSetSelections (name (package v) +:+ " hold"))
          <$> creations) s).
Proof.
  revert s. induction creations as [| v rest IH]; intros s; simpl.
  - by rewrite with_calls_nil.
  - rewrite (run_bind_ok (set_package_hold v) _ s
               (with_calls
                  [CallDpkgSetSelections (name (package v) +:+ " hold")] s)
               tt eq_refl).
    by rewrite IH, with_calls_app.
Qed.

Lemma remove_package_hold_run (v : Version) (s : State) :
  remove_package_hold v s
  = (Ok tt,
     if is_package_installed s v && _is_package_held s (package v)
     then with_calls
            [CallDpkgSetSelections (name (package v) +:+ " install")] s
     else s).
Proof.
  unfold remove_package_hold. rewrite run_get.
  by destruct (is_package_installed s v), (_is_package_held s (package v)).
Qed.

Lemma remove_holds_run (removals : list Version) (made : list call)
    (s : State) :
  for_each removals remove_package_hold (with_calls made s)
  = (Ok tt,
     with_calls
       (made
        ++ ((λ v, CallDpkgSetSelections (name (package v) +:+ " install"))
              <$> filter (λ v, is_package_installed s v
                               && _is_package_held s (package v) = true)
                         removals)) s).
Proof.
  revert made. induction removals as [| v rest IH]; intros made; simpl.
  - by rewrite app_nil_r.
  - rewrite (run_bind_ok _ _ _ _ _
               (remove_package_hold_run v (with_calls made s))).
    change (is_package_installed (with_calls made s) v)
      with (is_package_installed s v).
    change (_is_package_held (with_calls made s) (package v))
      with (_is_package_held s (package v)).
    destruct (is_package_installed s v && _is_package_held s (package v))
      eqn:Htest.
    + rewrite filter_cons_True by done.
      rewrite with_calls_app, IH. by rewrite <- app_assoc.
    + rewrite filter_cons_False by (by rewrite Htest).
      apply IH.
Qed.

Lemma change_holds_run (s : State) :
  holds_not_installed s = [] →
  change_holds s = (Ok tt, with_calls (hold_calls s) s).
Proof.
  unfold holds_not_installed. intros Hnone.
  unfold change_holds. rewrite run_get. cbv zeta. rewrite Hnone.
  rewrite bool_decide_eq_true_2 by done. simpl negb. cbv iota.
  rewrite (run_bind_ok _ _ _ _ _ (set_holds_run (_version_hold_creations s) s)).
  apply remove_holds_run.
Qed.

Lemma install_marks_run (installs : list Version) (s : State) :
  ∃ s',
    for_each installs
      (λ v,
         cache_call (CallSetCandidate v) (set_candidate v) ;;
         cache_call (CallMarkInstall (package v))
                    (package_mark_install (package v)) ;;
         cache_call (CallFixerClear (package v)) (fixer_clear (package v)) ;;
         cache_call (CallFixerProtect (package v))
                    (fixer_protect (package v))) s
    = (Ok tt, s')
    ∧ calls s' = calls s ++ (installs ≫= install_calls)
    ∧ pending_marks s' = pending_marks s.
Proof.
  revert s. induction installs as [| v rest IH]; intros s.
  - exists s. simpl. by rewrite app_nil_r.
  - cbn [for_each]. rewrite run_bind.
    match goal with
    | |- context [match ?body s with _ => _ end] =>
        destruct (body s) as [r s1] eqn:Hbody
    end.
    injection Hbody as <- <-.
    match goal with
    | |- context [for_each rest ?body ?s1] =>
        destruct (IH s1) as (s' & -> & Hcalls & Hmarks)
    end.
    exists s'. split; [done |]. rewrite Hcalls, Hmarks. split; [| done].
    rewrite bind_cons. simpl. by rewrite <- !app_assoc.
Qed.

Lemma mark_removals_calls (removals : list Version)
    (package_upgrades : gset Package) (held : gset string) (s : State) :
  ∃ held' s',
    mark_removals removals package_upgrades held s = (Ok held', s')
    ∧ calls s'
      = calls s
        ++ (filter (λ v, package v ∉ package_upgrades) removals
              ≫= λ v, removal_calls (package v))
    ∧ pending_marks s' = pending_marks s.
Proof.
  revert held s. induction removals as [| v rest IH]; intros held s.
  - exists held, s. simpl. by rewrite app_nil_r.
  - cbn [mark_removals]. rewrite run_get. cbv zeta.
    destruct (decide (package v ∈ package_upgrades)) as [Hup | Hup].
    + rewrite (bool_decide_eq_true_2 _ Hup).
      rewrite filter_cons_False by (by intros Hnot).
      rewrite (run_bind_ok (mret tt) _ s s tt eq_refl).
      apply IH.
    + rewrite (bool_decide_eq_false_2 _ Hup).
      rewrite filter_cons_True by done.
      rewrite run_bind.
      match goal with
      | |- context [match ?body s with _ => _ end] =>
          destruct (body s) as [r s1] eqn:Hbody
      end.
      injection Hbody as <- <-.
      match goal with
      | |- context [mark_removals rest package_upgrades ?h ?s1] =>
          destruct (IH h s1) as (held' & s' & -> & Hcalls & Hmarks)
      end.
      exists held', s'. split; [done |]. rewrite Hcalls, Hmarks.
      split; [| done].
      rewrite bind_cons. simpl. by rewrite <- !app_assoc.
Qed.

Lemma mark_versions_calls (package_upgrades : gset Package) (s : State) :
  ∃ r s',
    mark_versions package_upgrades s = (r, s')
    ∧ pending_marks s' = pending_marks s
    ∧ (calls s' = calls s ++ marking_calls package_upgrades s
       ∨ calls s'
         = calls s ++ marking_calls package_upgrades s ++ [CallFixerResolve]).
Proof.
  unfold mark_versions.
  set (sa := set_cache (fixer_new (_cache s)) (add_call CallFixerNew s)).
  rewrite (run_bind_ok (cache_call CallFixerNew fixer_new) _ s sa tt eq_refl).
  rewrite run_get. cbv zeta.
  destruct (install_marks_run (_version_installs sa) sa)
    as (sb & Hb & Hbcalls & Hbmarks).
  rewrite (run_bind_ok _ _ _ _ _ Hb).
  assert (∃ sc,
            (if _global_upgrade sa then cache_call CallUpgrade cache_upgrade
             else mret tt) sb = (Ok tt, sc)
            ∧ calls sc
              = calls sb ++ (if _global_upgrade s then [CallUpgrade] else [])
            ∧ pending_marks sc = pending_marks sb) as (sc & Hc & Hccalls & Hcmarks).
  { change (_global_upgrade sa) with (_global_upgrade s).
    destruct (_global_upgrade s).
    - eexists. split; [reflexivity |]. done.
    - exists sb. by rewrite app_nil_r. }
  rewrite (run_bind_ok _ _ _ _ _ Hc).
  destruct (mark_removals_calls (_version_removals sa) package_upgrades ∅ sc)
    as (held & sd & Hd & Hdcalls & Hdmarks).
  rewrite (run_bind_ok _ _ _ _ _ Hd).
  assert (calls sd = calls s ++ marking_calls package_upgrades s) as Hcalls.
  { rewrite Hdcalls, Hccalls, Hbcalls. unfold marking_calls. simpl.
    by rewrite <- !app_assoc. }
  assert (pending_marks sd = pending_marks s) as Hmarks.
  { by rewrite Hdmarks, Hcmarks, Hbmarks. }
  destruct (bool_decide (held = ∅)); simpl.
  - rewrite (run_bind_ok (mret tt) _ sd sd tt eq_refl). rewrite run_get.
    destruct (bool_decide _); simpl.
    + exists (Ok tt), sd. split; [done |]. split; [done | by left].
    + destruct (resolve_problems_state sd) as [r Hres].
      eexists _, _. split; [exact Hres |]. split; [done |]. right.
      simpl. by rewrite Hcalls, <- app_assoc.
  - eexists _, sd. split; [reflexivity |]. split; [done | by left].
Qed.

Lemma check_changes_state (requested_changes : list Version) (s : State) :
  (_check_changes requested_changes s).2 = s.
Proof.
  unfold _check_changes. rewrite run_get. cbv zeta. rewrite run_bind.
  unfold lift. destruct (collect_changes _ _ _); [| done].
  by destruct (negb _).
Qed.

Lemma commit_changes_run (s : State) :
  let done := cache_commit (_cache s) in
  commit_changes s
  = (match commit_error done with
     | Some message =>
         Raise (TransactionError
                  (message
                   +:+ (Py.newline +:+ Py.newline +:+ "Package operation log:"
                        +:+ Py.newline)
                   +:+ (fetch_output done +:+ install_output done)))
     | None =>
         if dpkg_exited done
         then Ok (Some (fetch_output done +:+ install_output done))
         else Raise (TransactionError
                       ("dpkg didn't exit cleanly."
                        +:+ (Py.newline +:+ Py.newline
                             +:+ "Package operation log:" +:+ Py.newline)
                        +:+ (fetch_output done +:+ install_output done)))
     end,
     set_cache (commit_cache done) (add_call CallCommit s)).
Proof.
  cbv zeta. unfold commit_changes. rewrite run_get. cbv zeta.
  rewrite run_bind. simpl.
  destruct (commit_error (cache_commit (_cache s))); [done |].
  by destruct (dpkg_exited (cache_commit (_cache s))).
Qed.

Lemma hold_block_run (s : State) :
  holds_not_installed s = [] →
  (if negb (bool_decide
              (_version_hold_creations s ++ _version_hold_removals s = []))
   then change_holds else mret tt) (non_interactive s)
  = (Ok tt, with_calls (hold_calls s) (non_interactive s)).
Proof.
  intros Hnone. destruct (bool_decide _) eqn:Hholds; simpl.
  - apply bool_decide_eq_true in Hholds.
    apply app_eq_nil in Hholds as [Hc Hr]. unfold hold_calls.
    rewrite Hc, Hr. simpl. by rewrite with_calls_nil.
  - by rewrite (change_holds_run (non_interactive s)).
Qed.

Lemma commit_not_in_hold_calls (s : State) : CallCommit ∉ hold_calls s.
Proof.
  unfold hold_calls. rewrite elem_of_app, !list_elem_of_fmap.
  intros [(v & Heq & _) | (v & Heq & _)]; discriminate Heq.
Qed.

Lemma commit_not_in_marking_calls (package_upgrades : gset Package)
    (s : State) :
  CallCommit ∉ marking_calls package_upgrades s.
Proof.
  unfold marking_calls. rewrite !elem_of_app, !list_elem_of_bind.
  intros [Hin | [(v & Hin & _) | [Hin | (v & Hin & _)]]].
  - apply list_elem_of_singleton in Hin. discriminate Hin.
  - unfold install_calls in Hin. rewrite !elem_of_cons in Hin.
    destruct Hin as [Hin | [Hin | [Hin | [Hin | Hin]]]]; try discriminate Hin.
    by apply elem_of_nil in Hin.
  - destruct (_global_upgrade s).
    + apply list_elem_of_singleton in Hin. discriminate Hin.
    + by apply elem_of_nil in Hin.
  - unfold removal_calls in Hin. rewrite !elem_of_cons in Hin.
    destruct Hin as [Hin | [Hin | [Hin | [Hin | [Hin | Hin]]]]];
      try discriminate Hin.
    by apply elem_of_nil in Hin.
Qed.

#[local] Arguments marking_calls : simpl never.
#[local] Arguments hold_calls : simpl never.

Ltac calls_eq H :=
  cbn [snd calls set_cache add_call negb mret M_ret]; rewrite H;
  repeat match goal with
         | |- context [(?l ++ ?m) ++ ?n] => rewrite <- (app_assoc l m n)
         end;
  reflexivity.

(** The runs of [perform_changes], by the calls they make. *)
Lemma perform_changes_calls (s : State) :
  (holds_not_installed s ≠ []
   ∧ (∃ message,
        perform_changes s
        = (Raise (TransactionError message), non_interactive s)))
  ∨ (holds_not_installed s = []
     ∧ ∃ tail,
         calls (perform_changes s).2 = calls s ++ hold_calls s ++ tail
         ∧ (tail = []
            ∨ ∃ last,
                tail = marking_calls (package_upgrades_of s) s ++ last
                ∧ (((last = [] ∨ last = [CallFixerResolve])
                    ∧ ∀ text, (perform_changes s).1 ≠ Ok (Some text))
                   ∨ ((last = [CallCommit]
                       ∨ last = [CallFixerResolve; CallCommit])
                      ∧ ((∃ text, (perform_changes s).1 = Ok (Some text))
                         ∨ ∃ message,
                             (perform_changes s).1
                             = Raise (TransactionError message)))))).
Proof.
  rewrite perform_changes_after_settings. cbv zeta.
  set (s0 := non_interactive s).
  change (_version_installs s0) with (_version_installs s).
  change (_version_removals s0) with (_version_removals s).
  change (_version_hold_creations s0) with (_version_hold_creations s).
  change (_version_hold_removals s0) with (_version_hold_removals s).
  change (_global_upgrade s0) with (_global_upgrade s).
  change (package_upgrades_of s0) with (package_upgrades_of s).
  subst s0.
  destruct (holds_not_installed s) as [| w ws] eqn:Hni.
  - right. split; [done |].
    destruct (bool_decide _ && bool_decide _ && negb _) eqn:Hnothing.
    + apply andb_true_iff in Hnothing as [Hnothing _].
      apply andb_true_iff in Hnothing as [Hholds _].
      apply bool_decide_eq_true in Hholds.
      apply app_eq_nil in Hholds as [Hc Hr].
      exists []. unfold hold_calls. rewrite Hc, Hr. simpl.
      split; [by rewrite app_nil_r | by left].
    + rewrite (run_bind_ok _ _ _ _ _ (hold_block_run s Hni)).
      destruct (negb _ || _) eqn:Hversions.
      * destruct (mark_versions_calls (package_upgrades_of s)
                    (with_calls (hold_calls s) (non_interactive s)))
          as (r & s2 & Hmark & _ & Hcalls).
        change (calls (with_calls (hold_calls s) (non_interactive s)))
          with (calls s ++ hold_calls s) in Hcalls.
        change (marking_calls (package_upgrades_of s)
                  (with_calls (hold_calls s) (non_interactive s)))
          with (marking_calls (package_upgrades_of s) s) in Hcalls.
        rewrite <- !(app_assoc (calls s) (hold_calls s)) in Hcalls.
        rewrite run_bind, Hmark. destruct r as [[] | e].
        -- rewrite run_bind.
           pose proof (check_changes_state
                         (_version_installs s ++ _version_removals s) s2)
             as Hstate.
           destruct (_check_changes _ s2) as [[changed | e] s3].
           ++ simpl in Hstate. subst s3. destruct changed; simpl negb; cbv iota.
              ** rewrite commit_changes_run. cbv zeta.
                 destruct Hcalls as [Hcalls | Hcalls].
                 --- exists (marking_calls (package_upgrades_of s) s
                             ++ [CallCommit]).
                     split; [calls_eq Hcalls |].
                     right. exists [CallCommit]. split; [done |]. right.
                     split; [by left |]. simpl.
                     destruct (commit_error _); [right; by eexists |].
                     destruct (dpkg_exited _);
                       [left; by eexists | right; by eexists].
                 --- exists (marking_calls (package_upgrades_of s) s
                             ++ [CallFixerResolve; CallCommit]).
                     split; [calls_eq Hcalls |].
                     right. exists [CallFixerResolve; CallCommit].
                     split; [done |]. right.
                     split; [by right |]. simpl.
                     destruct (commit_error _); [right; by eexists |].
                     destruct (dpkg_exited _);
                       [left; by eexists | right; by eexists].
              ** destruct Hcalls as [Hcalls | Hcalls].
                 --- exists (marking_calls (package_upgrades_of s) s).
                     split; [calls_eq Hcalls |].
                     right. exists []. split; [by rewrite app_nil_r |].
                     left. split; [by left | done].
                 --- exists (marking_calls (package_upgrades_of s) s
                             ++ [CallFixerResolve]).
                     split; [calls_eq Hcalls |].
                     right. exists [CallFixerResolve]. split; [done |].
                     left. split; [by right | done].
           ++ simpl in Hstate. subst s3.
              destruct Hcalls as [Hcalls | Hcalls].
              ** exists (marking_calls (package_upgrades_of s) s).
                 split; [calls_eq Hcalls |].
                 right. exists []. split; [by rewrite app_nil_r |].
                 left. split; [by left | done].
              ** exists (marking_calls (package_upgrades_of s) s
                         ++ [CallFixerResolve]).
                 split; [calls_eq Hcalls |].
                 right. exists [CallFixerResolve]. split; [done |].
                 left. split; [by right | done].
        -- destruct Hcalls as [Hcalls | Hcalls].
           ++ exists (marking_calls (package_upgrades_of s) s).
              split; [calls_eq Hcalls |].
              right. exists []. split; [by rewrite app_nil_r |].
              left. split; [by left | done].
           ++ exists (marking_calls (package_upgrades_of s) s
                      ++ [CallFixerResolve]).
              split; [calls_eq Hcalls |].
              right. exists [CallFixerResolve]. split; [done |].
              left. split; [by right | done].
      * exists []. split; [simpl; by rewrite app_nil_r | by left].
  - left. split; [done |].
    assert (_version_hold_creations s ++ _version_hold_removals s ≠ [])
      as Hholds.
    { intros [Hc _]%app_eq_nil. unfold holds_not_installed in Hni.
      by rewrite Hc in Hni. }
    rewrite (bool_decide_eq_false_2 _ Hholds). simpl andb. cbv iota.
    simpl negb. cbv iota. rewrite run_bind.
    rewrite (change_holds_not_installed (non_interactive s)).
    + by eexists.
    + change (holds_not_installed s ≠ []). by rewrite Hni.
Qed.

Lemma holds_installed_none (s : State) :
  (∀ w, w ∈ _version_hold_creations s →
        installed (_cache s) (package w) = Some w) →
  holds_not_installed s = [].
Proof.
  intros Hall. apply filter_none. intros w Hw.
  unfold is_package_installed. rewrite bool_decide_eq_true_2; [done |].
  by apply Hall.
Qed.

(** X4: a transaction of hold changes only.  With no version marked for
    install or removal, no global upgrade, and every version queued for a
    hold installed, [perform_changes] returns the text about the holds; it
    gives dpkg the selection [hold] for every queued hold, then [install]
    for every queued removal of a hold whose version is installed and held,
    in this order, and makes no other call: the cache and the marks are as
    before. *)
Theorem perform_changes_holds_only (s : State) :
  _version_installs s = [] →
  _version_removals s = [] →
  _global_upgrade s = false →
  _version_hold_creations s ++ _version_hold_removals s ≠ [] →
  (∀ w, w ∈ _version_hold_creations s →
        installed (_cache s) (package w) = Some w) →
  ∃ s',
    perform_changes s = (Ok (Some "Package holds successfully changed."), s')
    ∧ calls s'
      = calls s
        ++ ((λ v, CallDpkgSetSelections (name (package v) +:+ " hold"))
              <$> _version_hold_creations s)
        ++ ((λ v, CallDpkgSetSelections (name (package v) +:+ " install"))
              <$> filter (λ v, installed (_cache s) (package v) = Some v
                               ∧ selected_state (_cache s) (package v)
                                 = SELSTATE_HOLD)
                         (_version_hold_removals s))
    ∧ _cache s' = _cache s
    ∧ pending_marks s' = pending_marks s.
Proof.
  intros Hi Hr Hg Hholds Hinstalled.
  exists (with_calls (hold_calls s) (non_interactive s)).
  split; [| split; [| done]].
  - rewrite perform_changes_after_settings. cbv zeta.
    change (_version_installs (non_interactive s)) with (_version_installs s).
    change (_version_removals (non_interactive s)) with (_version_removals s).
    change (_global_upgrade (non_interactive s)) with (_global_upgrade s).
    change (_version_hold_creations (non_interactive s))
      with (_version_hold_creations s).
    change (_version_hold_removals (non_interactive s))
      with (_version_hold_removals s).
    rewrite Hi, Hr, Hg. rewrite (bool_decide_eq_false_2 _ Hholds).
    cbn [andb negb app]. rewrite bool_decide_eq_true_2 by done.
    cbn [negb orb].
    rewrite (run_bind_ok _ _ _ _ _
               (change_holds_run (non_interactive s)
                  (holds_installed_none s Hinstalled))).
    done.
  - cbn [calls with_calls non_interactive]. unfold hold_calls.
    do 3 f_equal. apply list_filter_iff. intros v.
    unfold is_package_installed, _is_package_held.
    rewrite andb_true_iff, bool_decide_eq_true, Z.eqb_eq. done.
Qed.

(** X5: the calls of [perform_changes] come in one order: the selections
    of the hold block; then the making of the resolver, the four calls for
    every version marked for install in the order of the marks, the global
    upgrade if it was marked, and the five calls for every version marked
    for removal whose package is not upgraded; then the resolver, if it
    runs; then the commit, if it is made.  A call that stops early has made
    none of them, or the hold selections only, or all up to the removals.
    The commit is made at most once and is the last call, and it is made
    only in runs that return a text or raise [TransactionError];
    [cache.clear] is never called. *)
Theorem perform_changes_call_order (s : State) :
  ∃ made : list call,
    calls (perform_changes s).2 = calls s ++ made
    ∧ (made = []
       ∨ made = hold_calls s
       ∨ ∃ last,
           made = hold_calls s ++ marking_calls (package_upgrades_of s) s
                  ++ last
           ∧ (last = [] ∨ last = [CallFixerResolve] ∨ last = [CallCommit]
              ∨ last = [CallFixerResolve; CallCommit]))
    ∧ (CallCommit ∈ made →
       (∃ before, made = before ++ [CallCommit] ∧ CallCommit ∉ before)
       ∧ ((∃ text, (perform_changes s).1 = Ok (Some text))
          ∨ ∃ message,
              (perform_changes s).1 = Raise (TransactionError message)))
    ∧ CallClear ∉ made.
Proof.
  assert (∀ before : list call,
            CallClear ∉ before → CallCommit ∉ before →
            ∀ last,
              last = [] ∨ last = [CallFixerResolve] ∨ last = [CallCommit]
              ∨ last = [CallFixerResolve; CallCommit] →
              (CallClear ∉ before ++ last)
              ∧ (CallCommit ∈ before ++ last →
                 (last = [CallCommit] ∨ last = [CallFixerResolve; CallCommit])
                 ∧ ∃ front, before ++ last = front ++ [CallCommit]
                            ∧ CallCommit ∉ front)) as Hlast.
  { intros before Hclear Hcommit last Hcases. split.
    - rewrite elem_of_app. intros [Hin | Hin]; [done |].
      destruct Hcases as [-> | [-> | [-> | ->]]];
        rewrite ?elem_of_cons in Hin; rewrite ?elem_of_nil in Hin;
        naive_solver.
    - rewrite elem_of_app. intros [Hin | Hin]; [done |].
      destruct Hcases as [-> | [-> | [-> | ->]]].
      + by apply elem_of_nil in Hin.
      + apply list_elem_of_singleton in Hin. discriminate Hin.
      + split; [by left |]. by exists before.
      + split; [by right |]. exists (before ++ [CallFixerResolve]).
        split; [by rewrite <- app_assoc |].
        rewrite elem_of_app, list_elem_of_singleton. naive_solver. }
  assert (CallClear ∉ hold_calls s) as Hclear_hold.
  { unfold hold_calls. rewrite elem_of_app, !list_elem_of_fmap.
    intros [(v & Heq & _) | (v & Heq & _)]; discriminate Heq. }
  assert (CallClear ∉ marking_calls (package_upgrades_of s) s)
    as Hclear_marking.
  { unfold marking_calls. rewrite !elem_of_app, !list_elem_of_bind.
    intros [Hin | [(v & Hin & _) | [Hin | (v & Hin & _)]]].
    - apply list_elem_of_singleton in Hin. discriminate Hin.
    - unfold install_calls in Hin. rewrite !elem_of_cons in Hin.
      rewrite elem_of_nil in Hin. naive_solver.
    - destruct (_global_upgrade s).
      + apply list_elem_of_singleton in Hin. discriminate Hin.
      + by apply elem_of_nil in Hin.
    - unfold removal_calls in Hin. rewrite !elem_of_cons in Hin.
      rewrite elem_of_nil in Hin. naive_solver. }
  destruct (perform_changes_calls s)
    as [(_ & message & Hrun) | (_ & tail & Hcalls & Htail)].
  - exists []. rewrite Hrun. simpl. rewrite app_nil_r.
    split; [done |]. split; [by left |].
    split; [| apply not_elem_of_nil].
    intros Hin. by apply elem_of_nil in Hin.
  - exists (hold_calls s ++ tail). split; [done |].
    destruct Htail as [-> | (last & -> & Hlasts)].
    + rewrite app_nil_r. split; [by right; left |].
      split; [| done]. intros Hin. by apply commit_not_in_hold_calls in Hin.
    + assert (last = [] ∨ last = [CallFixerResolve] ∨ last = [CallCommit]
              ∨ last = [CallFixerResolve; CallCommit]) as Hcases
        by naive_solver.
      split; [right; right; by exists last |].
      rewrite (app_assoc (hold_calls s)).
      destruct (Hlast (hold_calls s ++ marking_calls (package_upgrades_of s) s))
        with (last := last) as [Hnoclear Hcommit]; [| | done |].
      * rewrite elem_of_app. naive_solver.
      * rewrite elem_of_app.
        intros [Hin | Hin];
          [by apply commit_not_in_hold_calls in Hin
          | by apply commit_not_in_marking_calls in Hin].
      * split; [| done]. intros Hin.
        destruct (Hcommit Hin) as [Hwith Hfront]. split; [done |].
        destruct Hlasts as [[Hwithout _] | [_ Houtcome]]; [| done].
        destruct Hwithout as [-> | ->], Hwith as [Hw | Hw]; discriminate Hw.
Qed.

(** X6: hold changes are made before the version changes are tried, and
    they stay when these fail.  When every version queued for a hold is
    installed, the calls of [perform_changes] begin with the selections of
    the hold block, whatever the outcome: also in a call that raises for
    the removal of a held package, for unmet dependencies or for changes
    that were not requested. *)
Theorem hold_changes_not_undone (s s' : State) (r : result (option string)) :
  (∀ w, w ∈ _version_hold_creations s →
        installed (_cache s) (package w) = Some w) →
  perform_changes s = (r, s') →
  ∃ later, calls s' = calls s ++ hold_calls s ++ later.
Proof.
  intros Hinstalled Hrun.
  destruct (perform_changes_calls s)
    as [(Hnot & _) | (_ & tail & Hcalls & _)].
  - destruct Hnot. by apply holds_installed_none.
  - rewrite Hrun in Hcalls. by exists tail.
Qed.

(** ** The outcomes of the check *)

Lemma collect_changes_cases (c : Cache) (packages : list Package)
    (found : gset (Package * option Version)) :
  (∃ plan,
     collect_changes c packages found = Ok plan
     ∧ ∀ p, p ∈ packages → _is_main_architecture p = true →
            is_Some (_get_changed_versions c p))
  ∨ (collect_changes c packages found = Raise TypeError
     ∧ ∃ p, p ∈ packages ∧ _is_main_architecture p = true
            ∧ _get_changed_versions c p = None).
Proof.
  revert found. induction packages as [| p rest IH]; intros found; simpl.
  - left. exists found. split; [done |]. intros p Hp.
    by apply elem_of_nil in Hp.
  - destruct (_is_main_architecture p) eqn:Hmain; simpl.
    + destruct (_get_changed_versions c p) as [versions |] eqn:Hversions.
      * destruct (IH (found ∪ list_to_set ((λ v, (p, v)) <$> versions)))
          as [(plan & Hrun & Hall) | (Hrun & q & Hq & Hqmain & Hnone)].
        -- left. exists plan. split; [done |].
           intros q [-> | Hq]%elem_of_cons Hqmain; [by rewrite Hversions |].
           by apply Hall.
        -- right. split; [done |]. exists q. split; [by right | done].
      * right. split; [done |]. exists p. split; [by left | done].
    + destruct (IH found)
        as [(plan & Hrun & Hall) | (Hrun & q & Hq & Hqmain & Hnone)].
      * left. exists plan. split; [done |].
        intros q [-> | Hq]%elem_of_cons Hqmain; [congruence |].
        by apply Hall.
      * right. split; [done |]. exists q. split; [by right | done].
Qed.

Lemma check_changes_unfold (requested_changes : list Version) (s : State) :
  _check_changes requested_changes s
  = match collect_changes (_cache s) (get_changes (_cache s)) ∅ with
    | Ok plan =>
        let dependencies :=
          plan ∖ list_to_set ((λ v, (package v, Some v))
                                <$> requested_changes) in
        if bool_decide (dependencies = ∅)
        then (Ok (bool_decide (0 < size plan)%nat), s)
        else (Raise (DependencyError ((elements dependencies).*2)), s)
    | Raise e => (Raise e, s)
    end.
Proof.
  unfold _check_changes. rewrite run_get. cbv zeta. rewrite run_bind.
  unfold lift. destruct (collect_changes _ _ _); [| done].
  by destruct (bool_decide _).
Qed.

Lemma unmarked_changed_versions (c : Cache) (p : Package) :
  _get_changed_versions c p = None ↔ ¬ marked c p.
Proof.
  pose proof (get_changed_versions_marks c p) as Hspec.
  destruct (_get_changed_versions c p); [| done].
  split; [done |]. intros Hnot. by destruct Hspec.
Qed.

(** X7: [_check_changes] only reads: the facade is as before, whatever
    the outcome.  It raises [TypeError] exactly when Apt's list of changes
    holds a package of the main architecture that has none of the marks
    install, upgrade, downgrade and delete; every other exception it
    raises is a [DependencyError].  When it returns, every version that
    Apt will change of a main-architecture package was requested, and the
    value is [True] exactly when there is such a version.  Its outcome
    depends on the requested versions as a set: their order and
    repetitions do not matter. *)
Theorem check_changes_outcome (s : State) (requested_changes : list Version) :
  (_check_changes requested_changes s).2 = s
  ∧ ((_check_changes requested_changes s).1 = Raise TypeError
     ↔ ∃ p, p ∈ get_changes (_cache s)
            ∧ _is_main_architecture p = true
            ∧ ¬ marked (_cache s) p)
  ∧ (∀ e, (_check_changes requested_changes s).1 = Raise e →
          e = TypeError ∨ ∃ packages, e = DependencyError packages)
  ∧ (∀ changed : bool,
       (_check_changes requested_changes s).1 = Ok changed →
       (changed = true ↔ ∃ pv, planned (_cache s) pv)
       ∧ ∀ pv, planned (_cache s) pv →
               ∃ v, v ∈ requested_changes ∧ pv = (package v, Some v))
  ∧ (∀ other_changes : list Version,
       (∀ v, v ∈ other_changes ↔ v ∈ requested_changes) →
       _check_changes other_changes s = _check_changes requested_changes s).
Proof.
  split; [apply check_changes_state |].
  split; [| split; [| split]].
  - rewrite check_changes_unfold.
    destruct (collect_changes_cases (_cache s) (get_changes (_cache s)) ∅)
      as [(plan & -> & Hall) | (-> & p & Hp & Hmain & Hnone)].
    + cbv zeta. split.
      * by destruct (bool_decide _).
      * intros (p & Hp & Hmain & Hnot).
        apply unmarked_changed_versions in Hnot.
        destruct (Hall p Hp Hmain) as [versions Hsome]. congruence.
    + split; [| done]. intros _. exists p. split; [done |].
      split; [done |]. by apply unmarked_changed_versions.
  - intros e. rewrite check_changes_unfold.
    destruct (collect_changes_cases (_cache s) (get_changes (_cache s)) ∅)
      as [(plan & -> & _) | (-> & _)].
    + cbv zeta. destruct (bool_decide _); [done |].
      intros [= <-]. right. by eexists.
    + intros [= <-]. by left.
  - intros changed. rewrite check_changes_unfold.
    destruct (collect_changes_cases (_cache s) (get_changes (_cache s)) ∅)
      as [(plan & Hcollect & Hall) | (-> & _)]; [| done].
    destruct (collect_changes_spec (_cache s) (get_changes (_cache s)) ∅ Hall)
      as (plan' & Hcollect' & Hplan).
    assert (plan' = plan) as -> by congruence.
    rewrite Hcollect. cbv zeta.
    assert (∀ pv, pv ∈ plan ↔ planned (_cache s) pv) as Hplanned.
    { intros pv. rewrite Hplan. unfold planned.
      rewrite changed_versions_apt_changes. split; [| by right].
      intros [Hempty | Hp]; [| done]. by apply not_elem_of_empty in Hempty. }
    destruct (bool_decide _) eqn:Hdeps; [| done].
    apply bool_decide_eq_true in Hdeps. intros [= <-]. split.
    + rewrite bool_decide_eq_true. split.
      * intros Hsize. apply size_pos_elem_of in Hsize as (pv & Hpv).
        exists pv. by apply Hplanned.
      * intros (pv & Hpv). apply Hplanned in Hpv.
        destruct (size plan) eqn:Hsize; [| lia].
        apply size_empty_inv in Hsize. by apply Hsize in Hpv.
    + intros pv Hpv.
      destruct (decide (pv ∈ (list_to_set
                                ((λ v, (package v, Some v))
                                   <$> requested_changes)
                              : gset (Package * option Version))))
        as [Hin | Hnot].
      * apply elem_of_list_to_set, list_elem_of_fmap in Hin
          as (v & -> & Hv). by exists v.
      * assert (pv ∈ plan ∖ (list_to_set
                               ((λ v, (package v, Some v))
                                  <$> requested_changes)
                             : gset (Package * option Version))) as Hdiff.
        { apply elem_of_difference. split; [by apply Hplanned | done]. }
        rewrite Hdeps in Hdiff. by apply not_elem_of_empty in Hdiff.
  - intros other_changes Hsame. rewrite !check_changes_unfold.
    destruct (collect_changes _ _ _) as [plan |]; [| done].
    assert ((list_to_set ((λ v, (package v, Some v)) <$> other_changes)
               : gset (Package * option Version))
            = list_to_set ((λ v, (package v, Some v)) <$> requested_changes))
      as ->; [| done].
    apply set_eq. intros pv.
    rewrite !elem_of_list_to_set, !list_elem_of_fmap.
    split; intros (v & -> & Hv); exists v; (split; [done | by apply Hsame]).
Qed.

(** X8: what a successful transaction of version changes means.  When
    [perform_changes] returns a text with version changes or the global
    upgrade queued, the steps before the check all passed, Apt planned at
    least one change of a main-architecture package and every such change
    was marked for install or for removal; the commit raised no
    [SystemError] and dpkg exited; the text is the output of the fetch
    followed by the output of dpkg; and the cache is the one the commit
    left, with the commit as the last call. *)
Theorem perform_changes_success (s s' : State) (text : string) :
  _version_installs s ++ _version_removals s ≠ []
  ∨ _global_upgrade s = true →
  perform_changes s = (Ok (Some text), s') →
  let s2 := (before_check s).2 in
  let done := cache_commit (_cache s2) in
  (before_check s).1 = Ok tt
  ∧ (∃ pv, planned (_cache s2) pv)
  ∧ (∀ pv, planned (_cache s2) pv → requested s pv)
  ∧ commit_error done = None
  ∧ dpkg_exited done = true
  ∧ text = fetch_output done +:+ install_output done
  ∧ s' = set_cache (commit_cache done) (add_call CallCommit s2).
Proof.
  intros Hversions Hrun. cbv zeta.
  rewrite (perform_changes_with_versions s Hversions) in Hrun.
  rewrite run_bind in Hrun.
  destruct (before_check s) as [[[] | e] s2]; [| discriminate Hrun].
  simpl. split; [done |]. rewrite run_bind in Hrun.
  rewrite check_changes_unfold in Hrun.
  destruct (collect_changes_cases (_cache s2) (get_changes (_cache s2)) ∅)
    as [(plan & Hcollect & Hall) | (Hcollect & _)];
    rewrite Hcollect in Hrun; [| discriminate Hrun].
  destruct (collect_changes_spec (_cache s2) (get_changes (_cache s2)) ∅ Hall)
    as (plan' & Hcollect' & Hplan).
  assert (plan' = plan) as -> by congruence.
  cbv zeta in Hrun.
  destruct (bool_decide _) eqn:Hdeps in Hrun; [| discriminate Hrun].
  apply bool_decide_eq_true in Hdeps.
  destruct (bool_decide (0 < size plan)%nat) eqn:Hsize in Hrun;
    simpl in Hrun; [| discriminate Hrun].
  apply bool_decide_eq_true in Hsize.
  assert (∀ pv, pv ∈ plan ↔ planned (_cache s2) pv) as Hplanned.
  { intros pv. rewrite Hplan. unfold planned.
    rewrite changed_versions_apt_changes. split; [| by right].
    intros [Hempty | Hp]; [| done]. by apply not_elem_of_empty in Hempty. }
  split.
  { apply size_pos_elem_of in Hsize as (pv & Hpv). exists pv.
    by apply Hplanned. }
  split.
  { intros pv Hpv. apply requested_elem_of.
    destruct (decide (pv ∈ (list_to_set
                              ((λ v, (package v, Some v))
                                 <$> (_version_installs s
                                      ++ _version_removals s))
                            : gset (Package * option Version))))
      as [Hin | Hnot]; [done |].
    assert (pv ∈ plan ∖ (list_to_set
                           ((λ v, (package v, Some v))
                              <$> (_version_installs s
                                   ++ _version_removals s))
                         : gset (Package * option Version))) as Hdiff.
    { apply elem_of_difference. split; [by apply Hplanned | done]. }
    rewrite Hdeps in Hdiff. by apply not_elem_of_empty in Hdiff. }
  rewrite commit_changes_run in Hrun. cbv zeta in Hrun.
  destruct (commit_error (cache_commit (_cache s2)));
    [discriminate Hrun |].
  destruct (dpkg_exited (cache_commit (_cache s2)));
    [| discriminate Hrun].
  injection Hrun as <- <-. done.
Qed.

(** ** The lines of the internal sources file *)

Lemma lines_text_app (lines : list string) (line : string) :
  lines_text (lines ++ [line]) = lines_text lines +:+ (line +:+ Py.newline).
Proof.
  induction lines as [| l rest IH]; simpl.
  - by rewrite str_app_nil_r.
  - rewrite IH. by rewrite !str_app_assoc.
Qed.

Lemma split_lines_text (lines : list string) :
  (∀ l, l ∈ lines → Py.has_char Py.LF l = false) →
  Py.split Py.LF (lines_text lines) = lines ++ [""].
Proof.
  induction lines as [| l rest IH]; intros Hlines; [done |].
  change (lines_text (l :: rest))
    with (l +:+ String Py.LF (lines_text rest)).
  rewrite split_at_separator.
  rewrite split_without_separator by (apply Hlines; by left).
  rewrite IH; [done |]. intros l' Hl'. apply Hlines. by right.
Qed.

Lemma lines_text_nil (lines : list string) :
  lines_text lines = "" → lines = [].
Proof.
  destruct lines as [| l rest]; [done |]. simpl.
  destruct l; discriminate.
Qed.

Lemma sources_line_not_empty (url codename : string)
    (components : option (list string)) :
  sources_line url codename components ≠ "".
Proof. unfold sources_line. by destruct components as [[| c cs] |]. Qed.

(** One call of [add_channel_apt_deb] on a file of whole lines. *)
Lemma add_channel_apt_deb_line (s : State) (lines : list string)
    (url codename : string) (components : option (list string)) :
  let line := sources_line url codename components in
  from_option id "" (sources_file s) = lines_text lines →
  (∀ l, l ∈ lines → Py.has_char Py.LF l = false) →
  add_channel_apt_deb url codename components s
  = (Ok tt,
     if bool_decide (line ∈ lines) then s
     else set_sources_file (Some (lines_text (lines ++ [line]))) s).
Proof.
  intros line Hfile Hlines. unfold add_channel_apt_deb. rewrite run_get.
  cbv zeta. fold line.
  assert (match sources_file s with
          | Some current => Py.contains line (Py.split Py.LF current)
          | None => false
          end = bool_decide (line ∈ lines)) as ->.
  { destruct (sources_file s) as [current |] eqn:Hcurrent; simpl in Hfile.
    - rewrite Hfile, split_lines_text by done.
      apply eq_true_iff_eq.
      rewrite contains_elem_of, bool_decide_eq_true, elem_of_app.
      rewrite list_elem_of_singleton. split; [| by left].
      intros [Hin | Hempty]; [done |].
      by apply sources_line_not_empty in Hempty.
    - symmetry in Hfile. apply lines_text_nil in Hfile. subst lines.
      symmetry. apply bool_decide_eq_false. apply not_elem_of_nil. }
  destruct (bool_decide _); [done |].
  unfold append_file, modify. by rewrite lines_text_app, Hfile.
Qed.

Lemma add_channels_cons (s : State)
    (channel : string * string * option (list string))
    (channels : list (string * string * option (list string))) :
  add_channels (channel :: channels) s
  = add_channels channels
      (add_channel_apt_deb channel.1.1 channel.1.2 channel.2 s).2.
Proof. by destruct channel as [[url codename] components]. Qed.

Lemma add_channels_file
    (channels : list (string * string * option (list string)))
    (s : State) (lines : list string) :
  from_option id "" (sources_file s) = lines_text lines →
  NoDup lines →
  (∀ l, l ∈ lines → Py.has_char Py.LF l = false) →
  (∀ channel, channel ∈ channels →
              Py.has_char Py.LF (channel_line channel) = false) →
  ∃ new,
    from_option id "" (sources_file (add_channels channels s))
    = lines_text (lines ++ new)
    ∧ NoDup (lines ++ new)
    ∧ (∀ l, l ∈ new ↔ l ∈ channel_line <$> channels ∧ l ∉ lines)
    ∧ new `sublist_of` (channel_line <$> channels)
    ∧ (channels ≠ [] → is_Some (sources_file (add_channels channels s)))
    ∧ (is_Some (sources_file s) →
       is_Some (sources_file (add_channels channels s))).
Proof.
  revert s lines. induction channels as [| channel rest IH];
    intros s lines Hfile Hnodup Hlines Hchannels.
  - exists []. rewrite app_nil_r. simpl.
    split; [done |]. split; [done |]. split; [| done].
    intros l. rewrite elem_of_nil. naive_solver.
  - rewrite add_channels_cons.
    rewrite (add_channel_apt_deb_line s lines) by done.
    fold (channel_line channel). cbn [snd].
    assert (Py.has_char Py.LF (channel_line channel) = false) as Hline
      by (apply Hchannels; by left).
    assert (∀ c, c ∈ rest → Py.has_char Py.LF (channel_line c) = false)
      as Hrest by (intros c Hc; apply Hchannels; by right).
    destruct (decide (channel_line channel ∈ lines)) as [Hin | Hnot].
    + rewrite (bool_decide_eq_true_2 _ Hin).
      destruct (IH s lines Hfile Hnodup Hlines Hrest)
        as (new & Htext & Hnew & Hmem & Hsub & _ & Hsome).
      exists new. split; [done |]. split; [done |].
      split; [| split; [by apply sublist_cons | split]].
      * intros l. rewrite Hmem, fmap_cons, elem_of_cons.
        split; [naive_solver |]. intros [[-> | Hl] Hout]; done.
      * intros _. apply Hsome. destruct (sources_file s) eqn:Hs; [done |].
        simpl in Hfile. symmetry in Hfile. apply lines_text_nil in Hfile.
        subst lines. by apply elem_of_nil in Hin.
      * done.
    + rewrite (bool_decide_eq_false_2 _ Hnot).
      destruct (IH (set_sources_file
                      (Some (lines_text (lines ++ [channel_line channel]))) s)
                   (lines ++ [channel_line channel]))
        as (new & Htext & Hnew & Hmem & Hsub & _ & Hsome); [done | | | done |].
      * apply NoDup_app. split; [done |]. split; [| apply NoDup_singleton].
        intros l Hl ->%list_elem_of_singleton. done.
      * intros l [Hl | ->%list_elem_of_singleton]%elem_of_app;
          [by apply Hlines | done].
      * exists (channel_line channel :: new).
        rewrite <- app_assoc in Htext, Hnew. simpl in Htext, Hnew.
        split; [done |]. split; [done |].
        split; [| split; [by apply sublist_skip | split]].
        -- intros l. rewrite fmap_cons, !elem_of_cons, Hmem.
           rewrite elem_of_app, list_elem_of_singleton.
           destruct (decide (l = channel_line channel)) as [-> | Hne];
             naive_solver.
        -- intros _. by apply Hsome.
        -- intros _. by apply Hsome.
Qed.

(** X9: the internal sources file over a run of [add_channel_apt_deb]
    calls.  Starting from a file that does not exist (as after
    [clear_channels]) or that holds whole lines without repetition, and
    with channel lines that have no line feed, the file afterwards holds
    the old lines followed by the new ones: every line of a channel that
    was added is in the file exactly once, however often the channel was
    added, the new lines come in the order in which they were added, and
    nothing else is written.  The file exists once a channel was added. *)
Theorem add_channels_lines
    (channels : list (string * string * option (list string)))
    (s : State) (lines : list string) :
  from_option id "" (sources_file s) = lines_text lines →
  NoDup lines →
  (∀ l, l ∈ lines → Py.has_char Py.LF l = false) →
  (∀ channel, channel ∈ channels →
              Py.has_char Py.LF (channel_line channel) = false) →
  ∃ new,
    from_option id "" (sources_file (add_channels channels s))
    = lines_text (lines ++ new)
    ∧ NoDup (lines ++ new)
    ∧ (∀ l, l ∈ new ↔ l ∈ channel_line <$> channels ∧ l ∉ lines)
    ∧ new `sublist_of` (channel_line <$> channels)
    ∧ (channels ≠ [] → is_Some (sources_file (add_channels channels s))).
Proof.
  intros Hfile Hnodup Hlines Hchannels.
  destruct (add_channels_file channels s lines Hfile Hnodup Hlines Hchannels)
    as (new & Htext & Hnew & Hmem & Hsub & Hsome & _).
  by exists new.
Qed.

End FacadeFacts.

(** ** The small cache plans like Apt *)

#[global] Instance toy_planning : Facade.Planning Toy.cache.
Proof.
  split; try (intros ? c p); try (intros c p); try done.
  - unfold Facade.package_mark_install; simpl. unfold Toy.toy_mark_install.
    by destruct (Toy.installable c _).
  - unfold Facade.package_mark_delete; simpl. unfold Toy.toy_mark_delete.
    by destruct (bool_decide _).
Qed.

(** ** The properties on the small cache *)

Section Examples.
Import Facade Toy.

Example dependencies_of_vim :
  _is_dependency_satisfied broken_machine needs_bash "Depends" = true
  ∧ _is_dependency_satisfied broken_machine needs_bash "Conflicts" = false
  ∧ _is_dependency_satisfied broken_machine needs_runtime "Depends" = false
  ∧ _is_dependency_satisfied broken_machine needs_runtime "Breaks" = true.
Proof. repeat split; reflexivity. Qed.

Example unmet_dependencies_of_vim :
  _get_unmet_dependency_info (facade broken_machine catalogue)
  = Ok ("The following packages have unmet dependencies:" +:+ Py.newline
        +:+ "  vim: Depends: vim-runtime (>= 8.0) but is not installable").
Proof. vm_compute. reflexivity. Qed.

Lemma unrequested_changes_rejected_witness :
  (_version_installs wants_vim ++ _version_removals wants_vim ≠ []
   ∨ _global_upgrade wants_vim = true)
  ∧ (before_check wants_vim).1 = Ok tt
  ∧ (∃ excess : list (Package * option Version),
       perform_changes wants_vim
       = (Raise (DependencyError (excess.*2)), (before_check wants_vim).2)
       ∧ NoDup excess
       ∧ ∀ pv, pv ∈ excess
               ↔ planned (_cache (before_check wants_vim).2) pv
                 ∧ ¬ requested wants_vim pv)
  ∧ no_commit wants_vim (before_check wants_vim).2.
Proof.
  assert (_version_installs wants_vim ++ _version_removals wants_vim ≠ []
          ∨ _global_upgrade wants_vim = true) as Hversions.
  { left. vm_compute. discriminate. }
  assert ((before_check wants_vim).1 = Ok tt) as Hbefore.
  { vm_compute. reflexivity. }
  split; [exact Hversions |]. split; [exact Hbefore |].
  pose proof (unrequested_changes_rejected wants_vim Hversions) as Hthm.
  cbv zeta in Hthm. rewrite Hbefore in Hthm.
  destruct Hthm as [Hquiet Hcheck]. split; [| exact Hquiet].
  apply Hcheck.
  - intros p Hp _. apply list_elem_of_In in Hp. vm_compute in Hp.
    destruct Hp as [<- | [<- | []]]; left; vm_compute; reflexivity.
  - exists (pkg "vim-runtime", Some (ver "vim-runtime" "8.0")). split.
    + split; [| split].
      * vm_compute. apply list_elem_of_further, list_elem_of_here.
      * reflexivity.
      * left. split; vm_compute; reflexivity.
    + intros (v & Hin & Heq). vm_compute in Hin.
      apply list_elem_of_singleton in Hin. subst v. discriminate Heq.
Defined.

(** Apt plans to install a library of a foreign architecture that was not
    marked; the check does not look at it, and the commit is made. *)
Lemma unrequested_foreign_change_counterexample :
  ¬ (∀ s : State cache,
       _version_installs s ++ _version_removals s ≠ []
       ∨ _global_upgrade s = true →
       (before_check s).1 = Ok tt →
       (∃ pv, in_change_plan (_cache (before_check s).2) pv
              ∧ ¬ requested s pv) →
       ∃ packages, (perform_changes s).1 = Raise (DependencyError packages)).
Proof.
  intros Hclaim. destruct (Hclaim wants_wget) as [packages Hraised].
  - left. vm_compute. discriminate.
  - vm_compute. reflexivity.
  - exists (libfoo_i386, Some (mkVersion libfoo_i386 "1.0")). split.
    + split.
      * vm_compute. apply list_elem_of_further, list_elem_of_here.
      * left. split; vm_compute; reflexivity.
    + intros (v & Hin & Heq). vm_compute in Hin.
      apply list_elem_of_singleton in Hin. subst v. discriminate Heq.
  - vm_compute in Hraised. discriminate Hraised.
Qed.

(** A marked version that is installed already is no change: the commit is
    made for fewer versions than were marked. *)
Lemma commit_of_fewer_than_marked :
  (∃ text, (perform_changes wants_vim_and_curl).1 = Ok (Some text))
  ∧ CallCommit ∈ calls (perform_changes wants_vim_and_curl).2
  ∧ requested wants_vim_and_curl (pkg "curl", Some (ver "curl" "7.0"))
  ∧ ¬ in_change_plan (_cache (before_check wants_vim_and_curl).2)
        (pkg "curl", Some (ver "curl" "7.0")).
Proof.
  split; [| split; [| split]].
  - eexists. vm_compute. reflexivity.
  - apply list_elem_of_In. vm_compute. tauto.
  - exists (ver "curl" "7.0"). split; [| done].
    apply list_elem_of_In. vm_compute. tauto.
  - intros [Hin _]. apply list_elem_of_In in Hin. vm_compute in Hin.
    destruct Hin as [Hin | [Hin | []]]; discriminate Hin.
Qed.

Lemma held_removal_rejected_witness :
  ver "bash" "5.0" ∈ _version_removals removes_bash
  ∧ _is_package_held removes_bash (pkg "bash") = true
  ∧ ∃ (names : list string) (s' : State cache),
      perform_changes removes_bash
      = (Raise (TransactionError
                  ("Can't perform the changes, since the following packages are held: "
                   +:+ Py.join ", " names)),
         s')
      ∧ "bash" ∈ names
      ∧ no_commit removes_bash s'
      ∧ is_package_installed s' (ver "bash" "5.0") = true.
Proof.
  assert (ver "bash" "5.0" ∈ _version_removals removes_bash) as Hmarked.
  { vm_compute. apply list_elem_of_here. }
  assert (_is_package_held removes_bash (package (ver "bash" "5.0")) = true)
    as Hheld by reflexivity.
  split; [exact Hmarked |]. split; [exact Hheld |].
  destruct (held_removal_rejected removes_bash (ver "bash" "5.0")
              Hmarked Hheld)
    as (names & s' & Hrun & _ & Hnamed & _ & Hquiet & Hinstalled & _).
  - intros w Hw. vm_compute in Hw. by apply elem_of_nil in Hw.
  - exists names, s'. split; [exact Hrun |]. split; [exact Hnamed |].
    split; [exact Hquiet |]. rewrite Hinstalled. reflexivity.
Defined.

(** With a hold queued for a version that is not installed, the error is
    the one about that version; it does not name the held package whose
    removal is queued as well. *)
Lemma held_removal_not_named_counterexample :
  ¬ (∀ (s : State cache) (v : Version),
       v ∈ _version_removals s →
       _is_package_held s (package v) = true →
       ∃ message,
         (perform_changes s).1 = Raise (TransactionError message)
         ∧ Py.occurs (name (package v)) message = true).
Proof.
  intros Hclaim.
  destruct (Hclaim holds_vim_removes_bash (ver "bash" "5.0"))
    as (message & Hraised & Hnamed).
  - vm_compute. apply list_elem_of_here.
  - reflexivity.
  - vm_compute in Hraised. injection Hraised as <-.
    vm_compute in Hnamed. discriminate Hnamed.
Qed.

Lemma hold_creation_of_not_installed_rejected_witness :
  ver "vim" "8.0" ∈ _version_hold_creations holds_vim
  ∧ installed (_cache holds_vim) (pkg "vim") ≠ Some (ver "vim" "8.0")
  ∧ ∃ names : list string,
      perform_changes holds_vim
      = (Raise (TransactionError
                  ("Cannot perform the changes, since the following packages are not installed: "
                   +:+ Py.join ", " names)),
         non_interactive holds_vim)
      ∧ "vim" ∈ names
      ∧ calls (non_interactive holds_vim) = calls holds_vim.
Proof.
  assert (ver "vim" "8.0" ∈ _version_hold_creations holds_vim) as Hqueued.
  { vm_compute. apply list_elem_of_here. }
  assert (installed (_cache holds_vim) (package (ver "vim" "8.0"))
          ≠ Some (ver "vim" "8.0")) as Hnot.
  { vm_compute. discriminate. }
  split; [exact Hqueued |]. split; [exact Hnot |].
  destruct (hold_creation_of_not_installed_rejected holds_vim
              (ver "vim" "8.0") Hqueued Hnot)
    as (names & Hrun & _ & Hnamed & Hcalls & _).
  exists names. split; [exact Hrun |]. split; [exact Hnamed | exact Hcalls].
Defined.

Lemma perform_changes_nothing_marked_witness :
  pending_marks idle = ([], [], [], [], false)
  ∧ perform_changes idle = (Ok None, non_interactive idle)
  ∧ calls (non_interactive idle) = calls idle
  ∧ _cache (non_interactive idle) = _cache idle.
Proof.
  assert (pending_marks idle = ([], [], [], [], false)) as Hnothing
    by reflexivity.
  split; [exact Hnothing |].
  destruct (perform_changes_nothing_marked idle Hnothing)
    as (Hrun & Hcalls & Hcache & _).
  split; [exact Hrun |]. split; [exact Hcalls | exact Hcache].
Defined.

(** The call with nothing marked sets the environment: the state after it
    is not the state before it. *)
Lemma perform_changes_nothing_marked_counterexample :
  ¬ (∀ s : State cache,
       pending_marks s = ([], [], [], [], false) →
       ∃ r, perform_changes s = (r, s)).
Proof.
  intros Hclaim. destruct (Hclaim idle eq_refl) as [r Hrun].
  assert (environ (perform_changes idle).2 !! "DEBIAN_FRONTEND"
          = Some "noninteractive") as Henv.
  { vm_compute. reflexivity. }
  rewrite Hrun in Henv. vm_compute in Henv. discriminate Henv.
Qed.

Lemma failed_perform_changes_keeps_marks_witness :
  (perform_changes holds_vim).1
  = Raise (TransactionError
             "Cannot perform the changes, since the following packages are not installed: vim")
  ∧ pending_marks (perform_changes holds_vim).2 = pending_marks holds_vim.
Proof.
  assert ((perform_changes holds_vim).1
          = Raise (TransactionError
                     "Cannot perform the changes, since the following packages are not installed: vim"))
    as Hraised.
  { vm_compute. reflexivity. }
  split; [exact Hraised |].
  destruct (perform_changes holds_vim) as [r s'] eqn:Hrun.
  simpl in Hraised. subst r.
  exact (proj1 (@failed_perform_changes_keeps_marks cache _) holds_vim s' _
               Hrun).
Defined.

Lemma add_channel_apt_deb_twice_witness :
  Py.has_char Py.LF
    (sources_line "http://archive.ubuntu.com/ubuntu" "lucid"
                  (Some ["main"; "universe"])) = false
  ∧ sources_file idle = None
  ∧ ∃ s1,
      add_channel_apt_deb "http://archive.ubuntu.com/ubuntu" "lucid"
        (Some ["main"; "universe"]) idle = (Ok tt, s1)
      ∧ add_channel_apt_deb "http://archive.ubuntu.com/ubuntu" "lucid"
          (Some ["main"; "universe"]) s1 = (Ok tt, s1).
Proof.
  assert (Py.has_char Py.LF
            (sources_line "http://archive.ubuntu.com/ubuntu" "lucid"
                          (Some ["main"; "universe"])) = false) as Hline
    by reflexivity.
  split; [exact Hline |]. split; [reflexivity |].
  destruct (add_channel_apt_deb_twice idle
              "http://archive.ubuntu.com/ubuntu" "lucid"
              (Some ["main"; "universe"]) Hline (or_introl eq_refl))
    as (s1 & Hfirst & Hsecond & _).
  exists s1. split; [exact Hfirst | exact Hsecond].
Defined.

(** A component that ends with a line feed: the line is never found among
    the pieces of the file, and the second call writes it again. *)
Lemma add_channel_apt_deb_twice_counterexample :
  ¬ (∀ (s : State cache) (url codename : string)
       (components : option (list string)),
       let s1 := (add_channel_apt_deb url codename components s).2 in
       (add_channel_apt_deb url codename components s1).2 = s1).
Proof.
  intros Hclaim.
  specialize (Hclaim idle "http://archive.ubuntu.com/ubuntu" "lucid"
                (Some ["main" +:+ Py.newline])).
  cbv zeta in Hclaim. apply (f_equal (sources_file)) in Hclaim.
  vm_compute in Hclaim. discriminate Hclaim.
Qed.

End Examples.

(** * Further properties *)

#[local] Set Warnings "-clear-no-such-hyp".

(** ** Skeletons made by [build_skeleton_apt] *)

Lemma parse_record_field_elem_of
    (parse_depends : string → list (list (string * string * string)))
    (record : string → string) (field : string)
    (relation_type : Z) (or_relation_type : option Z)
    (r : Skeleton.record_relation) :
  r ∈ Skeleton.parse_record_field parse_depends record field relation_type
        or_relation_type
  ↔ ∃ value,
      value ∈ parse_depends (record field)
      ∧ r = (if (1 <? length value)%nat then or_relation_type
             else Some relation_type,
             Py.join " | " (Skeleton.relation_to_string <$> value)).
Proof.
  unfold Skeleton.parse_record_field. cbv zeta.
  generalize (parse_depends (record field)) as values.
  assert (∀ values (found : gset Skeleton.record_relation),
            r ∈ fold_left
                  (λ (relations : gset Skeleton.record_relation) value,
                     relations
                     ∪ {[ (if (1 <? length (map Skeleton.relation_to_string
                                              value))%nat
                           then or_relation_type else Some relation_type,
                           Py.join " | "
                             (map Skeleton.relation_to_string value)) ]})
                  values found
            ↔ r ∈ found
              ∨ ∃ value,
                  value ∈ values
                  ∧ r = (if (1 <? length value)%nat then or_relation_type
                         else Some relation_type,
                         Py.join " | " (Skeleton.relation_to_string <$> value)))
    as Hfold.
  { induction values as [| value values IH]; intros found; simpl.
    - split; [by left |]. intros [? | (value & Hin & _)]; [done |].
      by apply elem_of_nil in Hin.
    - rewrite IH, elem_of_union, elem_of_singleton, length_map. split.
      + intros [[Hf | ->] | (w & Hw & ->)].
        * by left.
        * right. exists value. split; [by left | done].
        * right. exists w. split; [by right | done].
      + intros [Hf | (w & [-> | Hw]%elem_of_cons & ->)].
        * by left; left.
        * by left; right.
        * right. by exists w. }
  intros values. rewrite Hfold. split; [| by right].
  intros [Hempty | H]; [| done]. by apply not_elem_of_empty in Hempty.
Qed.

(** The relations of a built skeleton are the sorted elements of a set
    that holds the two relations made of the name and, when there is a
    record, one relation for every entry of its five fields. *)
Lemma build_skeleton_apt_relation_set
    (parse_depends : string → list (list (string * string * string)))
    (version : Skeleton.AptVersion) (with_info with_unicode : bool) :
  ∃ relations : gset Skeleton.record_relation,
    Skeleton.apt_relations
      (Skeleton.build_skeleton_apt parse_depends version with_info
         with_unicode)
    = Py.sorted Skeleton.record_relation_lt (elements relations)
    ∧ ∀ r,
        r ∈ relations
        ↔ r = (Some Skeleton.DEB_NAME_PROVIDES,
               Skeleton.v_package_name version +:+ " = "
               +:+ Skeleton.v_str version)
          ∨ r = (Some Skeleton.DEB_UPGRADES,
                 Skeleton.v_package_name version +:+ " < "
                 +:+ Skeleton.v_str version)
          ∨ ∃ record field value,
              Skeleton.v_record version = Some record
              ∧ field ∈ Skeleton.record_fields
              ∧ value ∈ parse_depends (record field)
              ∧ r = (Skeleton.field_type field (length value),
                     Py.join " | " (Skeleton.relation_to_string <$> value)).
Proof.
  eexists. split.
  - unfold Skeleton.build_skeleton_apt. cbv zeta.
    destruct with_info; reflexivity.
  - intros r. rewrite !elem_of_union, !elem_of_singleton.
    unfold Skeleton.record_relations.
    destruct (Skeleton.v_record version) as [record |].
    + rewrite !parse_record_field_elem_of. split.
      * intros [[[[[[[Hempty | (value & Hin & ->)] | ->]
                    | (value & Hin & ->)] | (value & Hin & ->)] | ->]
                 | (value & Hin & ->)] | (value & Hin & ->)].
        -- by apply not_elem_of_empty in Hempty.
        -- right; right. exists record, "Provides", value.
           split_and!; [done | set_solver | done |].
           unfold Skeleton.field_type; simpl.
           by destruct (1 <? length value)%nat.
        -- by left.
        -- right; right. exists record, "Pre-Depends", value.
           split_and!; [done | set_solver | done |].
           unfold Skeleton.field_type; simpl.
           by destruct (1 <? length value)%nat.
        -- right; right. exists record, "Depends", value.
           split_and!; [done | set_solver | done |].
           unfold Skeleton.field_type; simpl.
           by destruct (1 <? length value)%nat.
        -- by right; left.
        -- right; right. exists record, "Conflicts", value.
           split_and!; [done | set_solver | done |].
           unfold Skeleton.field_type; simpl.
           by destruct (1 <? length value)%nat.
        -- right; right. exists record, "Breaks", value.
           split_and!; [done | set_solver | done |].
           unfold Skeleton.field_type; simpl.
           by destruct (1 <? length value)%nat.
      * intros [-> | [-> | (record' & field & value & [= <-] & Hfield & Hin
                            & ->)]].
        -- do 5 left; by right.
        -- do 2 left; by right.
        -- unfold Skeleton.record_fields in Hfield.
           rewrite !elem_of_cons, elem_of_nil in Hfield.
           destruct Hfield as [-> | [-> | [-> | [-> | [-> | []]]]]];
             unfold Skeleton.field_type; simpl.
           ++ do 6 left; right. exists value. split; [done |].
              by destruct (1 <? length value)%nat.
           ++ do 4 left; right. exists value. split; [done |].
              by destruct (1 <? length value)%nat.
           ++ do 3 left; right. exists value. split; [done |].
              by destruct (1 <? length value)%nat.
           ++ left; right. exists value. split; [done |].
              by destruct (1 <? length value)%nat.
           ++ right. exists value. split; [done |].
              by destruct (1 <? length value)%nat.
    + split.
      * intros [[[[[[[Hempty | Hempty] | ->] | Hempty] | Hempty] | ->]
                 | Hempty] | Hempty];
          try (by apply not_elem_of_empty in Hempty);
          [by left | by right; left].
      * intros [-> | [-> | (record' & _ & _ & [=] & _)]].
        -- do 5 left; by right.
        -- do 2 left; by right.
Qed.

(** *** The order of Python 2 on relations whose type may be [None] *)

Lemma record_relation_lt_asym (a b : Skeleton.record_relation) :
  Skeleton.record_relation_lt a b = true
  → Skeleton.record_relation_lt b a = false.
Proof.
  intros Hab. destruct (Skeleton.record_relation_lt b a) eqn:Hba; [| done].
  unfold Skeleton.record_relation_lt in *.
  destruct a as [k1 d1], b as [k2 d2]; simpl in *.
  assert (String.ltb d1 d2 = true → String.ltb d2 d1 = true → False)
    as Hstr.
  { unfold String.ltb. rewrite (String.compare_antisym d2 d1).
    by destruct (String.compare d1 d2). }
  apply orb_true_iff in Hab as [Hab | [Hab Hab']%andb_true_iff];
    apply orb_true_iff in Hba as [Hba | [Hba Hba']%andb_true_iff].
  - destruct k1, k2; simpl in *; try done; lia.
  - apply bool_decide_eq_true in Hba. subst k2.
    destruct k1; simpl in *; try done; lia.
  - apply bool_decide_eq_true in Hab. subst k2.
    destruct k1; simpl in *; try done; lia.
  - by destruct Hstr.
Qed.

Lemma record_relation_le (a b : Skeleton.record_relation) :
  Skeleton.record_relation_lt b a = false → record_le a b.
Proof.
  unfold Skeleton.record_relation_lt, record_le, String.le.
  rewrite string_ltb_leb. destruct a as [k1 d1], b as [k2 d2]; simpl.
  intros [Hlt Heq]%orb_false_iff.
  destruct k1 as [x |], k2 as [y |]; simpl in *; try done.
  - destruct (decide (x = y)) as [-> | Hne].
    + right. split; [done |]. rewrite bool_decide_eq_true_2 in Heq by done.
      simpl in Heq. apply negb_false_iff in Heq. by rewrite Heq.
    + left. lia.
  - apply negb_false_iff in Heq. by rewrite Heq.
Qed.

(** Sorting a sorted list changes nothing. *)
Lemma sorted_fixed {A : Type} (lt : A → A → bool) (xs : list A) :
  Sorted (λ x y, lt y x = false) xs → Py.sorted lt xs = xs.
Proof.
  induction 1 as [| x xs Hs IH Hhd]; simpl; [done |].
  rewrite IH. destruct Hhd as [| y ys Hxy]; simpl; [done |].
  by rewrite Hxy.
Qed.

(** Sorting goes through a function that keeps the order. *)
Lemma sorted_fmap {A B : Type} (lt : A → A → bool) (lt' : B → B → bool)
    (f : A → B) (xs : list A) :
  (∀ x y, lt' (f x) (f y) = lt x y) →
  Py.sorted lt' (f <$> xs) = f <$> Py.sorted lt xs.
Proof.
  intros Hf. induction xs as [| x xs IH]; [done |].
  change (Py.insort lt' (f x) (Py.sorted lt' (f <$> xs))
          = f <$> Py.insort lt x (Py.sorted lt xs)).
  rewrite IH. generalize (Py.sorted lt xs) as ys.
  induction ys as [| y ys IHys]; [done |].
  change (Py.insort lt' (f x) (f y :: (f <$> ys))
          = f <$> Py.insort lt x (y :: ys)).
  cbn [Py.insort]. rewrite Hf.
  destruct (lt y x); [| done].
  change (f y :: Py.insort lt' (f x) (f <$> ys)
          = f y :: (f <$> Py.insort lt x ys)).
  by rewrite IHys.
Qed.

Lemma typed_lt (a b : Skeleton.relation) :
  Skeleton.record_relation_lt (Skeleton.typed a) (Skeleton.typed b)
  = Py.pair_lt a b.
Proof.
  unfold Skeleton.record_relation_lt, Py.pair_lt, Skeleton.typed; simpl.
  f_equal. f_equal.
  destruct (Z.eqb_spec a.1 b.1) as [-> | Hne].
  - by apply bool_decide_eq_true_2.
  - apply bool_decide_eq_false_2. by intros [=].
Qed.

(** *** [get_hash] on a built skeleton *)

Lemma update_all_typed (relations : list Skeleton.relation)
    (digest : SHA1.t) :
  Skeleton.update_all digest (Skeleton.typed <$> relations)
  = Some (fold_left (λ d pair, SHA1.update d (Skeleton.fmt_pair pair))
            relations digest).
Proof.
  revert digest. induction relations as [| [type info] rest IH]; intros digest;
    [done |].
  cbn [fmap list_fmap Skeleton.typed fst snd Skeleton.update_all fold_left].
  apply IH.
Qed.

Lemma update_all_None (relations : list Skeleton.record_relation)
    (digest : SHA1.t) :
  Skeleton.update_all digest relations = None
  ↔ ∃ info, (None, info) ∈ relations.
Proof.
  revert digest.
  induction relations as [| [[type |] info] rest IH]; intros digest;
    cbn [Skeleton.update_all].
  - split; [done |]. intros (info & Hin). by apply elem_of_nil in Hin.
  - rewrite IH. split.
    + intros (i & Hin). exists i. by right.
    + intros (i & [[=] | Hin]%elem_of_cons). by exists i.
  - split; [| done]. intros _. exists info. by left.
Qed.

Lemma all_typed (relations : list Skeleton.record_relation) :
  (∀ info, (None, info) ∉ relations) →
  ∃ typed_relations : list Skeleton.relation,
    relations = Skeleton.typed <$> typed_relations.
Proof.
  induction relations as [| [[type |] info] rest IH]; intros Hall.
  - by exists [].
  - destruct IH as (typed_rest & ->).
    { intros i Hin. apply (Hall i). by right. }
    by exists ((type, info) :: typed_rest).
  - exfalso. apply (Hall info). by left.
Qed.

(** On a skeleton whose relation types all are numbers, the model of
    [get_hash] for built skeletons is [get_hash]. *)
Lemma get_hash_apt_of_skeleton (s : Skeleton.PackageSkeleton) :
  Skeleton.get_hash_apt (Skeleton.of_skeleton s)
  = (Some (Skeleton.get_hash s).1,
     Skeleton.of_skeleton (Skeleton.get_hash s).2).
Proof.
  unfold Skeleton.get_hash_apt, Skeleton.get_hash, Skeleton.of_skeleton,
    Skeleton.set_apt_relations, Skeleton.set_relations.
  cbn [Skeleton.apt_type Skeleton.apt_name Skeleton.apt_version
       Skeleton.apt_relations Skeleton.apt_section Skeleton.apt_summary
       Skeleton.apt_description Skeleton.apt_size
       Skeleton.apt_installed_size Skeleton.type Skeleton.name
       Skeleton.version Skeleton.relations Skeleton.section Skeleton.summary
       Skeleton.description Skeleton.size Skeleton.installed_size fst snd].
  rewrite (sorted_fmap Py.pair_lt _ Skeleton.typed) by apply typed_lt.
  by rewrite update_all_typed.
Qed.

Lemma of_skeleton_inj (s t : Skeleton.PackageSkeleton) :
  Skeleton.of_skeleton s = Skeleton.of_skeleton t → s = t.
Proof.
  destruct s, t; unfold Skeleton.of_skeleton; simpl.
  intros [= -> -> -> Hrelations -> -> -> -> ->]. f_equal.
  revert Hrelations. apply list_fmap_eq_inj.
  by intros [type info] [type' info'] [= -> ->].
Qed.

(** Where [get_hash] returns and leaves the skeleton as it is, the
    skeleton is a [PackageSkeleton] with numbers for types, and the result
    is the hash of that one. *)
Lemma get_hash_apt_typed (s : Skeleton.AptSkeleton) (digest : list Z) :
  Skeleton.get_hash_apt s = (Some digest, s) →
  ∃ typed_skeleton : Skeleton.PackageSkeleton,
    s = Skeleton.of_skeleton typed_skeleton
    ∧ Skeleton.get_hash typed_skeleton = (digest, typed_skeleton).
Proof.
  intros Hhash.
  destruct (all_typed (Skeleton.apt_relations s))
    as (typed_relations & Htyped).
  { intros info Hin.
    assert (Skeleton.update_all
              (SHA1.new (Skeleton.fmt_header (Skeleton.apt_type s)
                           (Skeleton.apt_name s) (Skeleton.apt_version s)))
              (Skeleton.apt_relations s) = None) as Hnone.
    { apply update_all_None. by exists info. }
    apply (f_equal snd) in Hhash as Hsame. cbn [snd] in Hsame.
    apply (f_equal fst) in Hhash. rewrite <- Hsame in Hhash at 2.
    unfold Skeleton.get_hash_apt in Hhash. cbn [fst snd] in Hhash.
    unfold Skeleton.get_hash_apt in Hsame. cbn [snd] in Hsame.
    rewrite Hsame in Hhash.
    by rewrite Hnone in Hhash. }
  destruct s as [type name version relations section summary description
                   size installed_size].
  cbn [Skeleton.apt_relations] in Htyped. subst relations.
  exists (Skeleton.mkSkeleton type name version typed_relations section
            summary description size installed_size).
  split; [done |].
  change (Skeleton.get_hash_apt
            (Skeleton.of_skeleton
               (Skeleton.mkSkeleton type name version typed_relations section
                  summary description size installed_size))
          = (Some digest,
             Skeleton.of_skeleton
               (Skeleton.mkSkeleton type name version typed_relations section
                  summary description size installed_size))) in Hhash.
  rewrite get_hash_apt_of_skeleton in Hhash.
  pose proof (f_equal fst Hhash) as Hdigest.
  pose proof (f_equal snd Hhash) as Hskeleton.
  cbn [fst snd] in Hdigest, Hskeleton. injection Hdigest as Hdigest.
  apply of_skeleton_inj in Hskeleton.
  rewrite (surjective_pairing (Skeleton.get_hash _)).
  f_equal; [exact Hdigest | exact Hskeleton].
Qed.

Lemma build_skeleton_apt_Sorted
    (parse_depends : string → list (list (string * string * string)))
    (version : Skeleton.AptVersion) (with_info with_unicode : bool) :
  Sorted (λ a b, Skeleton.record_relation_lt b a = false)
    (Skeleton.apt_relations
       (Skeleton.build_skeleton_apt parse_depends version with_info
          with_unicode)).
Proof.
  destruct (build_skeleton_apt_relation_set parse_depends version with_info
              with_unicode) as (relations & -> & _).
  apply sorted_Sorted, record_relation_lt_asym.
Qed.

Lemma get_hash_apt_built
    (parse_depends : string → list (list (string * string * string)))
    (version : Skeleton.AptVersion) (with_info with_unicode : bool) :
  let skeleton :=
    Skeleton.build_skeleton_apt parse_depends version with_info with_unicode in
  Skeleton.get_hash_apt skeleton
  = (SHA1.digest
       <$> Skeleton.update_all
             (SHA1.new (Skeleton.fmt_header (Skeleton.apt_type skeleton)
                          (Skeleton.apt_name skeleton)
                          (Skeleton.apt_version skeleton)))
             (Skeleton.apt_relations skeleton),
     skeleton).
Proof.
  cbv zeta. unfold Skeleton.get_hash_apt.
  rewrite (sorted_fixed _ _ (build_skeleton_apt_Sorted parse_depends version
                               with_info with_unicode)).
  by destruct (Skeleton.build_skeleton_apt parse_depends version with_info
                 with_unicode).
Qed.

(** A built relation without a type comes from an entry with alternatives
    of [Provides], [Conflicts] or [Breaks]. *)
Lemma build_skeleton_apt_untyped
    (parse_depends : string → list (list (string * string * string)))
    (version : Skeleton.AptVersion) (with_info with_unicode : bool)
    (info : string) :
  (None, info)
  ∈ Skeleton.apt_relations
      (Skeleton.build_skeleton_apt parse_depends version with_info
         with_unicode)
  ↔ ∃ record field value,
      Skeleton.v_record version = Some record
      ∧ field ∈ ["Provides"; "Conflicts"; "Breaks"]
      ∧ value ∈ parse_depends (record field)
      ∧ (1 < length value)%nat
      ∧ info = Py.join " | " (Skeleton.relation_to_string <$> value).
Proof.
  destruct (build_skeleton_apt_relation_set parse_depends version with_info
              with_unicode) as (relations & -> & Hrel).
  rewrite sorted_perm, elem_of_elements, Hrel. split.
  - intros [[=] | [[=] | (record & field & value & Hrecord & Hfield & Hin
                          & Heq)]].
    exists record, field, value.
    unfold Skeleton.record_fields in Hfield.
    rewrite !elem_of_cons, elem_of_nil in Hfield.
    rewrite !elem_of_cons, elem_of_nil.
    destruct Hfield as [-> | [-> | [-> | [-> | [-> | []]]]]];
      unfold Skeleton.field_type in Heq; simpl in Heq;
      destruct (Nat.ltb_spec 1 (length value)); try discriminate Heq;
      injection Heq as ->; repeat split; auto.
  - intros (record & field & value & Hrecord & Hfield & Hin & Hlen & ->).
    right; right. exists record, field, value.
    split_and!; [done | | done |].
    + unfold Skeleton.record_fields. set_solver.
    + rewrite !elem_of_cons, elem_of_nil in Hfield.
      apply Nat.ltb_lt in Hlen.
      destruct Hfield as [-> | [-> | [-> | []]]];
        unfold Skeleton.field_type; simpl; by rewrite Hlen.
Qed.

(** X1: the relations of a skeleton made by [build_skeleton_apt] are in
    the order of Python 2 on (type, description), where the type [None]
    comes first, and hold no relation twice, so [get_hash] leaves such a
    skeleton as it is.  [get_hash] raises [TypeError] on it exactly when a
    relation has the type [None], which is when an entry of [Provides],
    [Conflicts] or [Breaks] has alternatives.  Otherwise the skeleton is a
    [PackageSkeleton] with numbers for types, and the result is the hash of
    that one. *)
Theorem build_skeleton_apt_is_canonical
    (parse_depends : string → list (list (string * string * string)))
    (version : Skeleton.AptVersion) (with_info with_unicode : bool) :
  let skeleton :=
    Skeleton.build_skeleton_apt parse_depends version with_info with_unicode in
  Sorted record_le (Skeleton.apt_relations skeleton)
  ∧ NoDup (Skeleton.apt_relations skeleton)
  ∧ (Skeleton.get_hash_apt skeleton).2 = skeleton
  ∧ ((Skeleton.get_hash_apt skeleton).1 = None
     ↔ ∃ info, (None, info) ∈ Skeleton.apt_relations skeleton)
  ∧ (∀ info,
       (None, info) ∈ Skeleton.apt_relations skeleton
       ↔ ∃ record field value,
           Skeleton.v_record version = Some record
           ∧ field ∈ ["Provides"; "Conflicts"; "Breaks"]
           ∧ value ∈ parse_depends (record field)
           ∧ (1 < length value)%nat
           ∧ info = Py.join " | " (Skeleton.relation_to_string <$> value))
  ∧ ∀ digest,
      (Skeleton.get_hash_apt skeleton).1 = Some digest →
      ∃ typed_skeleton : Skeleton.PackageSkeleton,
        skeleton = Skeleton.of_skeleton typed_skeleton
        ∧ Skeleton.get_hash typed_skeleton = (digest, typed_skeleton).
Proof.
  cbv zeta.
  pose proof (get_hash_apt_built parse_depends version with_info with_unicode)
    as Hhash. cbv zeta in Hhash.
  pose proof (build_skeleton_apt_Sorted parse_depends version with_info
                with_unicode) as Hsorted.
  split; [| split; [| split; [| split; [| split]]]].
  - apply (Sorted_weaken _ _ _ record_relation_le Hsorted).
  - destruct (build_skeleton_apt_relation_set parse_depends version with_info
                with_unicode) as (relations & -> & _).
    rewrite sorted_perm. apply NoDup_elements.
  - by rewrite Hhash.
  - rewrite Hhash. cbn [fst]. rewrite fmap_None. apply update_all_None.
  - intros info. apply build_skeleton_apt_untyped.
  - intros digest Hdigest. apply get_hash_apt_typed.
    rewrite Hhash in Hdigest |- *. cbn [fst] in Hdigest. by rewrite Hdigest.
Qed.

(** X2: a skeleton made by [build_skeleton_apt] has type [DEB_PACKAGE] and
    the name and version text of the Apt version.  Its relations are
    exactly: the name-provides relation ["name = V"] and the upgrades
    relation ["name < V"], where [V] is the text that ["%s"] gives for the
    [Version] object itself and not the version text; and, with a record,
    one relation for every entry of [Provides], [Pre-Depends], [Depends],
    [Conflicts] and [Breaks], the alternatives joined by [" | "], whose type
    is [DEB_PROVIDES], [DEB_REQUIRES] or [DEB_CONFLICTS] for a single
    alternative and [DEB_OR_REQUIRES] for several in the two dependency
    fields, and [None] for several in the other three.  For an object
    without a [record] the two name relations are the only ones, in this
    order.  The information fields are set only with [with_info], and
    [installed_size] only when it is positive. *)
Theorem build_skeleton_apt_relations
    (parse_depends : string → list (list (string * string * string)))
    (version : Skeleton.AptVersion) (with_info with_unicode : bool) :
  let skeleton :=
    Skeleton.build_skeleton_apt parse_depends version with_info with_unicode in
  let name := Skeleton.v_package_name version in
  let name_provides :=
    (Some Skeleton.DEB_NAME_PROVIDES,
     name +:+ " = " +:+ Skeleton.v_str version) in
  let upgrades :=
    (Some Skeleton.DEB_UPGRADES, name +:+ " < " +:+ Skeleton.v_str version) in
  Skeleton.apt_type skeleton = Skeleton.DEB_PACKAGE
  ∧ Skeleton.apt_name skeleton = name
  ∧ Skeleton.apt_version skeleton = Skeleton.v_version version
  ∧ (∀ r,
       r ∈ Skeleton.apt_relations skeleton
       ↔ r = name_provides ∨ r = upgrades
         ∨ ∃ record field value,
             Skeleton.v_record version = Some record
             ∧ field ∈ ["Provides"; "Pre-Depends"; "Depends"; "Conflicts";
                        "Breaks"]
             ∧ value ∈ parse_depends (record field)
             ∧ r.1
               = (if (1 <? length value)%nat
                  then (if bool_decide (field = "Pre-Depends"
                                        ∨ field = "Depends")
                        then Some Skeleton.DEB_OR_REQUIRES else None)
                  else Some (if bool_decide (field = "Provides")
                             then Skeleton.DEB_PROVIDES
                             else if bool_decide (field = "Pre-Depends"
                                                  ∨ field = "Depends")
                             then Skeleton.DEB_REQUIRES
                             else Skeleton.DEB_CONFLICTS))
             ∧ r.2 = Py.join " | " (Skeleton.relation_to_string <$> value))
  ∧ (Skeleton.v_record version = None →
     Skeleton.apt_relations skeleton = [name_provides; upgrades])
  ∧ (if with_info
     then Skeleton.apt_section skeleton = Some (Skeleton.v_section version)
          ∧ Skeleton.apt_summary skeleton = Some (Skeleton.v_summary version)
          ∧ Skeleton.apt_description skeleton
            = Some (Skeleton.v_description version)
          ∧ Skeleton.apt_size skeleton = Some (Skeleton.v_size version)
          ∧ Skeleton.apt_installed_size skeleton
            = (if bool_decide (0 < Skeleton.v_installed_size version)
               then Some (Skeleton.v_installed_size version) else None)
     else Skeleton.apt_section skeleton = None
          ∧ Skeleton.apt_summary skeleton = None
          ∧ Skeleton.apt_description skeleton = None
          ∧ Skeleton.apt_size skeleton = None
          ∧ Skeleton.apt_installed_size skeleton = None).
Proof.
  cbv zeta.
  destruct (build_skeleton_apt_relation_set parse_depends version with_info
              with_unicode) as (relations & Hrel & Hin).
  split; [by destruct with_info |]. split; [by destruct with_info |].
  split; [by destruct with_info |].
  assert (∀ field (n : nat),
            field ∈ Skeleton.record_fields →
            Skeleton.field_type field n
            = (if (1 <? n)%nat
               then (if bool_decide (field = "Pre-Depends"
                                     ∨ field = "Depends")
                     then Some Skeleton.DEB_OR_REQUIRES else None)
               else Some (if bool_decide (field = "Provides")
                          then Skeleton.DEB_PROVIDES
                          else if bool_decide (field = "Pre-Depends"
                                               ∨ field = "Depends")
                          then Skeleton.DEB_REQUIRES
                          else Skeleton.DEB_CONFLICTS))) as Htype.
  { intros field n Hfield. unfold Skeleton.record_fields in Hfield.
    rewrite !elem_of_cons, elem_of_nil in Hfield.
    destruct Hfield as [-> | [-> | [-> | [-> | [-> | []]]]]];
      unfold Skeleton.field_type; by destruct (1 <? n)%nat. }
  assert (∀ r,
            r ∈ Skeleton.apt_relations
                  (Skeleton.build_skeleton_apt parse_depends version with_info
                     with_unicode)
            ↔ r ∈ relations) as Helem.
  { intros r. by rewrite Hrel, sorted_perm, elem_of_elements. }
  split; [| split].
  - intros r. rewrite Helem, Hin. split.
    + intros [-> | [-> | (record & field & value & Hrecord & Hfield & Hvalue
                          & ->)]]; [by left | by right; left |].
      right; right. exists record, field, value.
      split_and!; [done | done | done | | done].
      cbn [fst]. by apply Htype.
    + intros [-> | [-> | (record & field & value & Hrecord & Hfield & Hvalue
                          & Hfst & Hsnd)]]; [by left | by right; left |].
      right; right. exists record, field, value.
      split_and!; [done | done | done |].
      destruct r as [type info]; simpl in *. subst info. f_equal.
      rewrite Hfst. symmetry. by apply Htype.
  - intros Hrecord.
    set (a := (Some Skeleton.DEB_NAME_PROVIDES, _)).
    set (b := (Some Skeleton.DEB_UPGRADES, _)).
    assert (Skeleton.record_relation_lt a b = true) as Hlt by reflexivity.
    pose proof (record_relation_lt_asym _ _ Hlt) as Hgt.
    rewrite Hrel.
    match goal with
    | |- Py.sorted _ ?found = _ => assert ([a; b] ≡ₚ found) as Hperm
    end.
    { apply NoDup_Permutation.
      - apply NoDup_cons. split; [| apply NoDup_singleton].
        rewrite list_elem_of_singleton. subst a b. intros [= Hkind].
      - apply NoDup_elements.
      - intros r. rewrite elem_of_elements, Hin, !elem_of_cons, elem_of_nil.
        split.
        + intros [-> | [-> | []]]; [by left | by right; left].
        + intros [-> | [-> | (record & _ & _ & Hsome & _)]];
            [by left | by right; left |].
          by rewrite Hrecord in Hsome. }
    destruct (Permutation_length_2_inv Hperm) as [-> | ->];
      cbn [Py.sorted Py.insort]; by rewrite ?Hgt, ?Hlt.
  - destruct with_info; simpl; [| done].
    repeat split. destruct (Z.ltb_spec 0 (Skeleton.v_installed_size version)).
    + by rewrite bool_decide_eq_true_2.
    + rewrite bool_decide_eq_false_2; [done | lia].
Qed.

(** X3: the header of the hash joins name and version with a space, so a
    space can move between them: a skeleton named ["a b"] with version
    ["c"] has the hash of the skeleton named ["a"] with version ["b c"] and
    the same relations. *)
Theorem get_hash_name_version_boundary
    (type : Z) (a b c : string) (relations : list Skeleton.relation)
    (section summary description : option string)
    (size installed_size : option Z) :
  (Skeleton.get_hash
     (Skeleton.mkSkeleton type (a +:+ " " +:+ b) c relations
        section summary description size installed_size)).1
  = (Skeleton.get_hash
       (Skeleton.mkSkeleton type a (b +:+ " " +:+ c) relations
          section summary description size installed_size)).1.
Proof.
  rewrite !get_hash_unfold. simpl. unfold Skeleton.fmt_header.
  do 3 f_equal. by rewrite !str_app_assoc.
Qed.

(** ** The channels and the index of hashes *)

Section CatalogueFacts.
Import Facade Catalogue.
Context {Cache : Type} `{!Apt Cache} `{!Channels Cache}.

(** The hash of a version where there is one, the entry that the loops
    make for a version that has a hash, and the versions that the loops
    reach, in the order of the loops. *)
#[local] Abbreviation hash_of c v := (default [] (version_hash c v)).

#[local] Abbreviation enter c :=
  (λ (index : Index) (pv : Package * Version),
     (<[(pv.1, pv.2) := hash_of c pv.2]> index.1,
      <[hash_of c pv.2 := pv.2]> index.2)).

#[local] Abbreviation reach c packages :=
  (packages ≫= λ p : Package,
     if _is_main_architecture p
     then (λ v, (p, v)) <$> package_versions c p else []).

#[local] Abbreviation hashable c :=
  (λ pv : Package * Version, is_Some (version_hash c pv.2)).

Lemma version_hash_length (c : Cache) (v : Version) (h : list Z) :
  version_hash c v = Some h → length h = 20%nat.
Proof.
  unfold version_hash, get_package_skeleton. intros Hhash.
  pose proof (get_hash_apt_built parse_depends (apt_version c v) false true)
    as Hbuilt. cbv zeta in Hbuilt.
  destruct (get_hash_apt_typed
              (Skeleton.build_skeleton_apt parse_depends (apt_version c v)
                 false true) h) as (typed_skeleton & _ & Htyped).
  { rewrite Hbuilt in Hhash |- *. cbn [fst] in Hhash. by rewrite Hhash. }
  apply (f_equal fst) in Htyped. cbn [fst] in Htyped. subst h.
  rewrite get_hash_unfold. apply sha1_length.
Qed.

#[local] Opaque version_hash.

Lemma apt_index_versions_run (c : Cache) (p : Package) (versions : list Version)
    (index : Index) :
  (Forall (λ v, is_Some (version_hash c v)) versions
   ∧ index_versions c p versions index
     = (Ok tt, foldl (enter c) index ((λ v, (p, v)) <$> versions)))
  ∨ (∃ entered v rest,
       versions = entered ++ v :: rest
       ∧ Forall (λ v, is_Some (version_hash c v)) entered
       ∧ version_hash c v = None
       ∧ index_versions c p versions index
         = (Raise TypeError,
            foldl (enter c) index ((λ v, (p, v)) <$> entered))).
Proof.
  revert index. induction versions as [| v versions IH]; intros index.
  - left. by split.
  - cbn [index_versions]. unfold index_version.
    destruct (version_hash c v) as [h |] eqn:Hv.
    + destruct (IH (<[(p, v) := h]> index.1, <[h := v]> index.2))
        as [[Hall Hrun] | (entered & w & rest & -> & Hall & Hw & Hrun)].
      * left. split; [by constructor |].
        rewrite Hrun. cbn [fmap list_fmap foldl fst snd]. by rewrite Hv.
      * right. exists (v :: entered), w, rest. split; [done |].
        split; [by constructor |]. split; [done |].
        rewrite Hrun. cbn [app fmap list_fmap foldl fst snd]. by rewrite Hv.
    + right. exists [], v, versions. by repeat split.
Qed.

Lemma apt_index_packages_run (c : Cache) (packages : list Package)
    (index : Index) :
  (Forall (hashable c) (reach c packages)
   ∧ index_packages c packages index
     = (Ok tt, foldl (enter c) index (reach c packages)))
  ∨ (∃ entered pv rest,
       reach c packages = entered ++ pv :: rest
       ∧ Forall (hashable c) entered
       ∧ version_hash c pv.2 = None
       ∧ index_packages c packages index
         = (Raise TypeError, foldl (enter c) index entered)).
Proof.
  revert index. induction packages as [| p packages IH]; intros index.
  - left. by split.
  - rewrite bind_cons. cbn [index_packages].
    destruct (_is_main_architecture p); cbn [negb].
    + destruct (apt_index_versions_run c p (package_versions c p) index)
        as [[Hall Hrun] | (entered & v & rest & Hversions & Hall & Hv & Hrun)].
      * rewrite Hrun.
        assert (Forall (hashable c) ((λ v, (p, v)) <$> package_versions c p))
          as Hall' by (by apply Forall_fmap).
        destruct (IH (foldl (enter c) index
                        ((λ v, (p, v)) <$> package_versions c p)))
          as [[Hrest Hrun'] | (entered & pv & rest & Hreach & Hrest & Hpv
                               & Hrun')].
        -- left. split; [by apply Forall_app |].
           by rewrite Hrun', foldl_app.
        -- right. exists (((λ v, (p, v)) <$> package_versions c p) ++ entered),
             pv, rest.
           split; [by rewrite Hreach, app_assoc |].
           split; [by apply Forall_app |]. split; [done |].
           by rewrite Hrun', foldl_app.
      * rewrite Hrun. right.
        exists ((λ v, (p, v)) <$> entered), (p, v),
          (((λ v, (p, v)) <$> rest) ++ reach c packages).
        split; [by rewrite Hversions, fmap_app, <- app_assoc |].
        split; [by apply Forall_fmap |]. by split.
    + apply IH.
Qed.

Lemma reached_indexed (c : Cache) (pv : Package * Version) :
  pv ∈ reach c (cache_packages c) ↔ indexed c pv.
Proof.
  rewrite list_elem_of_bind. unfold indexed. split.
  - intros (p & Hin & Hp). destruct (_is_main_architecture p) eqn:Hmain.
    + apply list_elem_of_fmap in Hin as (v & -> & Hv). done.
    + by apply elem_of_nil in Hin.
  - intros (Hp & Hmain & Hv). exists pv.1. rewrite Hmain. split; [| done].
    apply list_elem_of_fmap. exists pv.2. split; [by destruct pv | done].
Qed.

Lemma index_pkg2hash (c : Cache) (reached : list (Package * Version))
    (index : Index) (pv : Package * Version) (h : list Z) :
  (foldl (enter c) index reached).1 !! pv = Some h
  ↔ (pv ∈ reached ∧ h = hash_of c pv.2)
    ∨ ((pv ∉ reached) ∧ index.1 !! pv = Some h).
Proof.
  induction reached as [| x reached IH] using rev_ind.
  - simpl. split.
    + intros Hold. right. split; [apply not_elem_of_nil | done].
    + intros [[Hin _] | [_ Hold]]; [by apply elem_of_nil in Hin | done].
  - rewrite foldl_app. cbn [foldl fst snd].
    rewrite elem_of_app, list_elem_of_singleton.
    destruct (decide (pv = x)) as [-> | Hne].
    + replace (x.1, x.2) with x by (by destruct x).
      rewrite lookup_insert_eq. split.
      * intros [= <-]. left. split; [by right | done].
      * intros [[_ ->] | [Hnot _]]; [done |]. destruct Hnot. by right.
    + rewrite lookup_insert_ne by (by destruct x; intros <-).
      rewrite IH. split.
      * intros [[Hin ->] | [Hnot Hold]]; [left | right].
        -- split; [by left | done].
        -- split; [| done]. intros [Hin | Heq]; done.
      * intros [[[Hin | Heq] ->] | [Hnot Hold]]; [by left | done |].
        right. split; [| done]. intros Hin. apply Hnot. by left.
Qed.

Lemma index_hash2pkg (c : Cache) (reached : list (Package * Version))
    (index : Index) (h : list Z) (w : Version) :
  (foldl (enter c) index reached).2 !! h = Some w →
  (hash_of c w = h ∧ ∃ p, (p, w) ∈ reached) ∨ index.2 !! h = Some w.
Proof.
  induction reached as [| x reached IH] using rev_ind; [by right |].
  rewrite foldl_app. cbn [foldl fst snd].
  destruct (decide (hash_of c x.2 = h)) as [<- | Hne].
  - rewrite lookup_insert_eq. intros [= <-]. left. split; [done |].
    exists x.1. rewrite elem_of_app, list_elem_of_singleton. right.
    by destruct x.
  - rewrite lookup_insert_ne by done. intros Hlook.
    destruct (IH Hlook) as [[Hhash (p & Hp)] | Hold]; [left | by right].
    split; [done |]. exists p. rewrite elem_of_app. by left.
Qed.

Lemma index_hash_resolves (c : Cache) (reached : list (Package * Version))
    (index : Index) (pv : Package * Version) :
  pv ∈ reached →
  ∃ w, (foldl (enter c) index reached).2 !! hash_of c pv.2 = Some w.
Proof.
  induction reached as [| x reached IH] using rev_ind.
  - intros Hin. by apply elem_of_nil in Hin.
  - rewrite foldl_app. cbn [foldl fst snd].
    rewrite elem_of_app, list_elem_of_singleton. intros Hin.
    destruct (decide (hash_of c x.2 = hash_of c pv.2)) as [Heq | Hne].
    + exists x.2. rewrite Heq. apply lookup_insert_eq.
    + rewrite lookup_insert_ne by done. apply IH.
      destruct Hin as [Hin | ->]; done.
Qed.

(** The two dictionaries that the loops fill from empty ones with versions
    that all have a hash. *)
Lemma entered_dictionaries (c : Cache) (entered : list (Package * Version)) :
  Forall (hashable c) entered →
  let index := foldl (enter c) (∅, ∅) entered in
  (∀ pv h, index.1 !! pv = Some h
           ↔ pv ∈ entered ∧ version_hash c pv.2 = Some h)
  ∧ (∀ h w, index.2 !! h = Some w →
            version_hash c w = Some h ∧ ∃ p, (p, w) ∈ entered)
  ∧ (∀ pv h, pv ∈ entered → version_hash c pv.2 = Some h →
             ∃ w, index.2 !! h = Some w ∧ version_hash c w = Some h).
Proof.
  intros Hall. cbv zeta. rewrite Forall_forall in Hall.
  assert (∀ h w,
            (foldl (enter c) (∅, ∅) entered).2 !! h = Some w →
            version_hash c w = Some h ∧ ∃ p, (p, w) ∈ entered) as Hback.
  { intros h w Hlook.
    destruct (index_hash2pkg c entered (∅, ∅) h w Hlook)
      as [[Hhash (p & Hp)] | Hold].
    - split; [| by exists p].
      destruct (Hall _ Hp) as [h' Hh']. cbn [snd] in Hh'.
      rewrite Hh' in Hhash |- *. cbn [default] in Hhash. by subst.
    - cbn [snd] in Hold. by rewrite lookup_empty in Hold. }
  split; [| split; [exact Hback |]].
  - intros pv h. rewrite index_pkg2hash. cbn [fst]. rewrite lookup_empty.
    split.
    + intros [[Hin ->] | [_ ?]]; [| done]. split; [done |].
      by destruct (Hall _ Hin) as [h' ->].
    + intros [Hin Hh]. left. split; [done |]. by rewrite Hh.
  - intros pv h Hin Hh.
    destruct (index_hash_resolves c entered (∅, ∅) pv Hin) as [w Hw].
    rewrite Hh in Hw. cbn [default] in Hw.
    exists w. split; [done |]. by apply Hback in Hw as [? _].
Qed.

(** [reload_channels] by its runs: the update raises; or the loops enter
    every version; or the hash of a version raises. *)
Lemma reload_channels_run (force_reload_binaries : bool)
    (f : AptFacade Cache) :
  (∃ e c,
     reload_channels force_reload_binaries f = (Raise e, with_cache c f)
     ∧ update_tried force_reload_binaries f
     ∧ (e = TypeError ∨ ∃ message, e = ChannelError message))
  ∨ (∃ c,
       (¬ update_tried force_reload_binaries f →
        c = cache_open (_cache (base f)))
       ∧ ((Forall (hashable c) (reach c (cache_packages c))
           ∧ let index :=
               foldl (enter c) (∅, ∅) (reach c (cache_packages c)) in
             reload_channels force_reload_binaries f
             = (Ok tt,
                mkAptFacade (set_hash2pkg index.2 (set_cache c (base f)))
                  index.1 true (refetch_package_index f)))
          ∨ (∃ entered pv rest,
               reach c (cache_packages c) = entered ++ pv :: rest
               ∧ Forall (hashable c) entered
               ∧ version_hash c pv.2 = None
               ∧ let index := foldl (enter c) (∅, ∅) entered in
                 reload_channels force_reload_binaries f
                 = (Raise TypeError,
                    mkAptFacade (set_hash2pkg index.2 (set_cache c (base f)))
                      index.1 (_channels_loaded f)
                      (refetch_package_index f))))).
Proof.
  assert (∀ c,
            (Forall (hashable c) (reach c (cache_packages c))
             ∧ let index :=
                 foldl (enter c) (∅, ∅) (reach c (cache_packages c)) in
               match index_packages c (cache_packages c) (∅, ∅) with
               | (Ok _, index) =>
                   (Ok tt,
                    mkAptFacade (set_hash2pkg index.2 (set_cache c (base f)))
                      index.1 true (refetch_package_index f))
               | (Raise e, index) =>
                   (Raise e,
                    mkAptFacade (set_hash2pkg index.2 (set_cache c (base f)))
                      index.1 (_channels_loaded f) (refetch_package_index f))
               end
               = (Ok tt,
                  mkAptFacade (set_hash2pkg index.2 (set_cache c (base f)))
                    index.1 true (refetch_package_index f)))
            ∨ (∃ entered pv rest,
                 reach c (cache_packages c) = entered ++ pv :: rest
                 ∧ Forall (hashable c) entered
                 ∧ version_hash c pv.2 = None
                 ∧ let index := foldl (enter c) (∅, ∅) entered in
                   match index_packages c (cache_packages c) (∅, ∅) with
                   | (Ok _, index) =>
                       (Ok tt,
                        mkAptFacade
                          (set_hash2pkg index.2 (set_cache c (base f)))
                          index.1 true (refetch_package_index f))
                   | (Raise e, index) =>
                       (Raise e,
                        mkAptFacade
                          (set_hash2pkg index.2 (set_cache c (base f)))
                          index.1 (_channels_loaded f)
                          (refetch_package_index f))
                   end
                   = (Raise TypeError,
                      mkAptFacade
                        (set_hash2pkg index.2 (set_cache c (base f)))
                        index.1 (_channels_loaded f)
                        (refetch_package_index f)))) as Hloops.
  { intros c.
    destruct (apt_index_packages_run c (cache_packages c) (∅, ∅))
      as [[Hall ->] | (entered & pv & rest & Hreach & Hall & Hpv & ->)].
    - left. by split.
    - right. exists entered, pv, rest. by repeat split. }
  unfold reload_channels. cbv zeta.
  change (refetch_package_index (with_cache _ f))
    with (refetch_package_index f).
  change (sources_file (base (with_cache (cache_open (_cache (base f))) f)))
    with (sources_file (base f)).
  destruct (refetch_package_index f
            || force_reload_binaries
               && bool_decide (is_Some (sources_file (base f)))) eqn:Htried.
  - assert (update_tried force_reload_binaries f) as Hupdate.
    { unfold update_tried.
      apply orb_true_iff in Htried as [Hrefetch | Hforce]; [by left |].
      apply andb_true_iff in Hforce as [Hforce Hfile].
      apply bool_decide_eq_true in Hfile. by right. }
    destruct (update_channels _ _) as [[[] | e] c] eqn:Hrun.
    + right. exists (cache_open c). split; [done |]. apply Hloops.
    + left. exists e, c. split; [done |]. split; [done |].
      unfold update_channels in Hrun. cbv zeta in Hrun.
      destruct (cache_update _ _) as [c1 | c1 | c1]; [done | |].
      * destruct (cache_update None c1) as [c2 | c2 | c2]; [done | |];
          injection Hrun as <- <-; [by left | right; by eexists].
      * injection Hrun as <- <-. right. by eexists.
  - right. exists (cache_open (_cache (base f))). split; [done |].
    apply Hloops.
Qed.

(** The two dictionaries after a [reload_channels] that returned. *)
Lemma reload_channels_dictionaries (force_reload_binaries : bool)
    (f f' : AptFacade Cache) :
  reload_channels force_reload_binaries f = (Ok tt, f') →
  let c := _cache (base f') in
  (∀ pv, indexed c pv → is_Some (version_hash c pv.2))
  ∧ (∀ pv h, _pkg2hash f' !! pv = Some h
             ↔ indexed c pv ∧ version_hash c pv.2 = Some h)
  ∧ (∀ h w, _hash2pkg (base f') !! h = Some w →
            version_hash c w = Some h ∧ ∃ p, indexed c (p, w))
  ∧ (∀ pv h, indexed c pv → version_hash c pv.2 = Some h →
             ∃ w, _hash2pkg (base f') !! h = Some w
                  ∧ version_hash c w = Some h).
Proof.
  intros Hrun.
  destruct (reload_channels_run force_reload_binaries f)
    as [(e & c & Hfail & _)
       | (c & _ & [[Hall Hok] | (entered & pv & rest & _ & _ & _ & Hfail)])];
    [congruence | | cbv zeta in Hfail; congruence].
  cbv zeta in Hok. rewrite Hok in Hrun. injection Hrun as <-.
  cbn [base _cache set_hash2pkg set_cache _pkg2hash _hash2pkg].
  destruct (entered_dictionaries c _ Hall) as (Hpkg & Hback & Hresolves).
  split; [| split; [| split]].
  - intros pv Hpv. apply reached_indexed in Hpv.
    rewrite Forall_forall in Hall. by apply Hall.
  - intros pv h. by rewrite Hpkg, reached_indexed.
  - intros h w Hlook. destruct (Hback h w Hlook) as [Hhash (p & Hp)].
    split; [done |]. exists p. by apply reached_indexed.
  - intros pv h Hpv Hh. apply reached_indexed in Hpv.
    by apply (Hresolves pv h).
Qed.

Lemma reload_channels_loaded (force_reload_binaries : bool)
    (f f' : AptFacade Cache) :
  reload_channels force_reload_binaries f = (Ok tt, f') →
  _channels_loaded f' = true
  ∧ pending_marks (base f') = pending_marks (base f)
  ∧ refetch_package_index f' = refetch_package_index f.
Proof.
  intros Hrun.
  destruct (reload_channels_run force_reload_binaries f)
    as [(e & c & Hfail & _)
       | (c & _ & [[_ Hok] | (entered & pv & rest & _ & _ & _ & Hfail)])];
    [congruence | | cbv zeta in Hfail; congruence].
  cbv zeta in Hok. rewrite Hok in Hrun. by injection Hrun as <-.
Qed.

(** A [reload_channels] that raised: in the update, or in the loops. *)
Lemma reload_channels_failure_cases (force_reload_binaries : bool)
    (f f' : AptFacade Cache) (e : exn) :
  reload_channels force_reload_binaries f = (Raise e, f') →
  _channels_loaded f' = _channels_loaded f
  ∧ ((update_tried force_reload_binaries f
      ∧ (e = TypeError ∨ ∃ message, e = ChannelError message)
      ∧ _pkg2hash f' = _pkg2hash f
      ∧ _hash2pkg (base f') = _hash2pkg (base f))
     ∨ (e = TypeError
        ∧ ∃ pv, indexed (_cache (base f')) pv
                ∧ version_hash (_cache (base f')) pv.2 = None)).
Proof.
  intros Hrun.
  destruct (reload_channels_run force_reload_binaries f)
    as [(e' & c & Hfail & Htried & He)
       | (c & Hcache & [[_ Hok] | (entered & pv & rest & Hreach & Hall & Hpv
                                   & Hfail)])].
  - rewrite Hfail in Hrun. injection Hrun as <- <-. split; [done |]. by left.
  - cbv zeta in Hok. congruence.
  - cbv zeta in Hfail. rewrite Hfail in Hrun. injection Hrun as <- <-.
    cbn [base _cache set_hash2pkg set_cache _channels_loaded].
    split; [done |]. right. split; [done |]. exists pv. split; [| done].
    apply reached_indexed. rewrite Hreach, elem_of_app. right. by left.
Qed.

(** X10: what a successful [reload_channels] leaves.  The channels count
    as loaded.  Every version of every main-architecture package of the
    cache has a hash: [get_hash] raised for none of them.  [_pkg2hash] has
    an entry exactly for every such version, under the package it was
    reached from, and the entry is the hash of the version's skeleton;
    entries of an earlier load are gone, and packages of a foreign
    architecture are left out.  Every entry of [_hash2pkg] is such a
    version under its own hash, every hash of [_pkg2hash] is a key of
    [_hash2pkg] (of a version with that hash: the last one indexed), and
    [get_packages] lists no version twice.  The marks are as before. *)
Theorem reload_channels_index (force_reload_binaries : bool)
    (f f' : AptFacade Cache) :
  reload_channels force_reload_binaries f = (Ok tt, f') →
  let c := _cache (base f') in
  _channels_loaded f' = true
  ∧ (∀ pv, indexed c pv → is_Some (version_hash c pv.2))
  ∧ (∀ pv h, _pkg2hash f' !! pv = Some h
             ↔ indexed c pv ∧ version_hash c pv.2 = Some h)
  ∧ (∀ h w, _hash2pkg (base f') !! h = Some w →
            version_hash c w = Some h ∧ ∃ p, indexed c (p, w))
  ∧ (∀ pv h, indexed c pv → version_hash c pv.2 = Some h →
             ∃ w, _hash2pkg (base f') !! h = Some w
                  ∧ version_hash c w = Some h)
  ∧ NoDup (get_packages (base f'))
  ∧ pending_marks (base f') = pending_marks (base f)
  ∧ refetch_package_index f' = refetch_package_index f.
Proof.
  intros Hrun. cbv zeta.
  destruct (reload_channels_dictionaries force_reload_binaries f f' Hrun)
    as (Hall & Hpkg & Hback & Hresolves).
  destruct (reload_channels_loaded force_reload_binaries f f' Hrun)
    as (Hloaded & Hmarks & Hflag).
  split; [done |]. split; [done |]. split; [done |]. split; [done |].
  split; [done |]. split; [| done].
  unfold get_packages. apply NoDup_fmap_2_strong; [| apply NoDup_map_to_list].
  intros [h w] [h' w'] Hw Hw' Heq. cbn [snd] in Heq. subst w'.
  apply elem_of_map_to_list in Hw, Hw'.
  apply Hback in Hw as [Hw _]. apply Hback in Hw' as [Hw' _]. congruence.
Qed.


(** X12: the two dictionaries agree after a reload that returned, for a
    cache in which the versions of a package name that package.  The
    version that [get_package_by_hash] gives for a hash has this hash by
    [get_package_hash], and the hash has the 20 bytes of a SHA-1 digest;
    the hash that [get_package_hash] gives for a version leads back by
    [get_package_by_hash] to a version with the same hash; and a version
    of a package of a foreign architecture has no hash. *)
Theorem package_hash_round_trip (force_reload_binaries : bool)
    (f f' : AptFacade Cache) :
  reload_channels force_reload_binaries f = (Ok tt, f') →
  (∀ p v, v ∈ package_versions (_cache (base f')) p → package v = p) →
  (∀ h w, get_package_by_hash f' h = Some w →
          get_package_hash f' w = Some h ∧ length h = 20%nat)
  ∧ (∀ v h, get_package_hash f' v = Some h →
            ∃ w, get_package_by_hash f' h = Some w
                 ∧ get_package_hash f' w = Some h)
  ∧ (∀ v, _is_main_architecture (package v) = false →
          get_package_hash f' v = None).
Proof.
  intros Hrun Hlaw.
  destruct (reload_channels_dictionaries force_reload_binaries f f' Hrun)
    as (_ & Hpkg & Hback & Hresolves).
  assert (∀ h w, get_package_by_hash f' h = Some w →
                 get_package_hash f' w = Some h) as Hround.
  { intros h w Hw. apply Hback in Hw as [Hh (p & Hp)].
    apply Hpkg. split; [| done].
    assert (package w = p) as -> by (apply Hlaw; apply Hp). done. }
  split; [| split].
  - intros h w Hw. split; [by apply Hround |].
    apply Hback in Hw as [Hh _]. by apply version_hash_length in Hh.
  - intros v h Hv. apply Hpkg in Hv as [Hindexed Hh].
    destruct (Hresolves _ _ Hindexed Hh) as (w & Hw & Hsame).
    exists w. split; [done |]. by apply Hround.
  - intros v Hforeign. unfold get_package_hash.
    destruct (_pkg2hash f' !! (package v, v)) as [h |] eqn:Hlook; [| done].
    apply Hpkg in Hlook as [(_ & Hmain & _) _]. cbn [fst] in Hmain.
    congruence.
Qed.

(** X13: [ensure_channels_reloaded] loads the channels once.  With the
    channels loaded it does nothing; after a call that returned, a second
    call does nothing; a call that raised has left the flag unset, so the
    next call tries again.  It raises [ChannelError] or [TypeError] for an
    update that failed, which is tried only when the package index is to
    be fetched again, and [TypeError] where [get_hash] raises for a version
    of a main-architecture package.  So a facade that does not fetch the
    index again returns here exactly when it has loaded the channels or
    every such version has a hash, and raises [TypeError] otherwise. *)
Theorem ensure_channels_reloaded_once (f : AptFacade Cache) :
  let c := cache_open (_cache (base f)) in
  (_channels_loaded f = true → ensure_channels_reloaded f = (Ok tt, f))
  ∧ (∀ f', ensure_channels_reloaded f = (Ok tt, f') →
           _channels_loaded f' = true
           ∧ ensure_channels_reloaded f' = (Ok tt, f'))
  ∧ (∀ e f', ensure_channels_reloaded f = (Raise e, f') →
             _channels_loaded f = false
             ∧ _channels_loaded f' = false
             ∧ ((refetch_package_index f = true
                 ∧ (e = TypeError ∨ ∃ message, e = ChannelError message)
                 ∧ _pkg2hash f' = _pkg2hash f
                 ∧ _hash2pkg (base f') = _hash2pkg (base f))
                ∨ (e = TypeError
                   ∧ ∃ pv, indexed (_cache (base f')) pv
                           ∧ version_hash (_cache (base f')) pv.2 = None)))
  ∧ (refetch_package_index f = false →
     ((∃ f', ensure_channels_reloaded f = (Ok tt, f'))
      ↔ _channels_loaded f = true
        ∨ ∀ pv, indexed c pv → is_Some (version_hash c pv.2))
     ∧ ((∃ f', ensure_channels_reloaded f = (Raise TypeError, f'))
        ↔ _channels_loaded f = false
          ∧ ∃ pv, indexed c pv ∧ version_hash c pv.2 = None)).
Proof.
  cbv zeta. unfold ensure_channels_reloaded.
  split; [by intros -> |]. split; [| split].
  - intros f' Hrun.
    assert (_channels_loaded f' = true) as Hloaded.
    { destruct (_channels_loaded f) eqn:Hf; [congruence |].
      by destruct (reload_channels_loaded false f f' Hrun). }
    by rewrite Hloaded.
  - intros e f' Hrun. destruct (_channels_loaded f) eqn:Hf; [done |].
    split; [done |].
    destruct (reload_channels_failure_cases false f f' e Hrun)
      as (Hflag & [(Htried & He & Hpkg & Hhash) | (-> & Hpv)]).
    + split; [congruence |]. left.
      split; [by destruct Htried as [? | [? _]] | done].
    + split; [congruence |]. by right.
  - intros Hrefetch.
    assert (¬ update_tried false f) as Hnot.
    { intros [? | [? _]]; congruence. }
    destruct (_channels_loaded f) eqn:Hf.
    { split.
      - split; [by left | intros _; by exists f].
      - split; [by intros (f' & [=]) | by intros [[=] _]]. }
    destruct (reload_channels_run false f)
      as [(e & c & _ & Htried & _)
         | (c & Hcache & [[Hall Hok] | (entered & pv & rest & Hreach & Hall
                                        & Hpv & Hfail)])]; [done | |].
    + rewrite (Hcache Hnot) in Hall, Hok. cbv zeta in Hok. rewrite Hok.
      rewrite Forall_forall in Hall. split.
      * split; [| intros _; by eexists].
        intros _. right. intros pv Hpv. by apply Hall, reached_indexed.
      * split; [by intros (f' & [=]) |].
        intros (_ & pv & Hpv & Hnone). apply reached_indexed, Hall in Hpv.
        rewrite Hnone in Hpv. by destruct Hpv.
    + rewrite (Hcache Hnot) in Hreach, Hpv, Hfail. cbv zeta in Hfail.
      rewrite Hfail.
      assert (indexed (cache_open (_cache (base f))) pv) as Hindexed.
      { apply reached_indexed. rewrite Hreach, elem_of_app. right. by left. }
      split.
      * split; [by intros (f' & [=]) |].
        intros [[=] | Hall']. apply Hall' in Hindexed.
        rewrite Hpv in Hindexed. by destruct Hindexed.
      * split; [| intros _; by eexists].
        intros _. split; [done |]. by exists pv.
Qed.

End CatalogueFacts.

(** ** The Smart facade *)

Section SmartFacts.
Import Smart.
Context {Pkg Ctrl : Type} `{Backend Pkg Ctrl}.

Lemma scan_marks_snoc (items : list (Pkg * Oper)) (item : Pkg * Oper) :
  scan_marks (items ++ [item])
  = (if bool_decide (item.2 = UPGRADE) then PolicyUpgrade
     else (scan_marks items).1,
     if negb (bool_decide (item.2 = REMOVE)) then false
     else (scan_marks items).2).
Proof. unfold scan_marks. by rewrite foldl_app. Qed.

Lemma scan_marks_spec (items : list (Pkg * Oper)) :
  ((scan_marks items).2 = true ↔ ∀ item, item ∈ items → item.2 = REMOVE)
  ∧ ((scan_marks items).1 = PolicyUpgrade
     ↔ ∃ item, item ∈ items ∧ item.2 = UPGRADE)
  ∧ ((scan_marks items).1 = PolicyUpgrade
     ∨ (scan_marks items).1 = PolicyInstall).
Proof.
  induction items as [| item items (IHremove & IHupgrade & IHpolicy)]
    using rev_ind.
  - split; [| split; [| by right]].
    + split; [| done]. intros _ item Hitem. by apply elem_of_nil in Hitem.
    + split; [done |]. intros (item & Hitem & _).
      by apply elem_of_nil in Hitem.
  - rewrite scan_marks_snoc. cbn [fst snd]. split; [| split].
    + destruct (decide (item.2 = REMOVE)) as [Hremove | Hother].
      * rewrite (bool_decide_eq_true_2 _ Hremove). cbn [negb].
        rewrite IHremove. split.
        -- intros Hall x [Hx | ->%list_elem_of_singleton]%elem_of_app;
             [by apply Hall | done].
        -- intros Hall x Hx. apply Hall, elem_of_app. by left.
      * rewrite (bool_decide_eq_false_2 _ Hother). cbn [negb].
        split; [done |]. intros Hall. destruct Hother. apply Hall.
        apply elem_of_app. right. by apply list_elem_of_singleton.
    + destruct (decide (item.2 = UPGRADE)) as [Hupgrade | Hother].
      * rewrite (bool_decide_eq_true_2 _ Hupgrade). split; [| done].
        intros _. exists item. split; [| done].
        apply elem_of_app. right. by apply list_elem_of_singleton.
      * rewrite (bool_decide_eq_false_2 _ Hother). rewrite IHupgrade. split.
        -- intros (x & Hx & Hup). exists x. split; [| done].
           apply elem_of_app. by left.
        -- intros (x & [Hx | ->%list_elem_of_singleton]%elem_of_app & Hup);
             [by exists x | done].
    + destruct (bool_decide (item.2 = UPGRADE)); [by left | done].
Qed.

Lemma choose_policy_cases (items : list (Pkg * Oper)) :
  (choose_policy items = PolicyRemove
   ↔ ∀ item, item ∈ items → item.2 = REMOVE)
  ∧ (choose_policy items = PolicyUpgrade
     ↔ ∃ item, item ∈ items ∧ item.2 = UPGRADE)
  ∧ (choose_policy items = PolicyInstall
     ↔ (∃ item, item ∈ items ∧ item.2 ≠ REMOVE)
       ∧ ∀ item, item ∈ items → item.2 ≠ UPGRADE).
Proof.
  destruct (scan_marks_spec items) as (Hremove & Hupgrade & Hpolicy).
  assert ((∃ item, item ∈ items ∧ item.2 = UPGRADE) →
          (scan_marks items).2 = false) as Hnot_only.
  { intros (item & Hitem & Hup).
    destruct ((scan_marks items).2) eqn:Honly; [| done].
    assert (item.2 = REMOVE) as Hrem by (by apply Hremove). congruence. }
  assert ((scan_marks items).2 = false →
          ∃ item, item ∈ items ∧ item.2 ≠ REMOVE) as Hsome.
  { intros Honly.
    destruct (decide (Exists (λ item : Pkg * Oper, item.2 ≠ REMOVE) items))
      as [Hex | Hnone].
    - by apply Exists_exists in Hex.
    - apply not_Exists_Forall in Hnone; [| apply _].
      assert ((scan_marks items).2 = true) as Hall; [| congruence].
      apply Hremove. intros item Hitem.
      pose proof (proj1 (Forall_forall _ _) Hnone item Hitem) as Hitem'.
      cbn beta in Hitem'. by destruct (decide (item.2 = REMOVE)). }
  unfold choose_policy.
  destruct (scan_marks items) as [policy only_remove] eqn:Hscan.
  cbn [fst snd] in *. destruct only_remove.
  - split; [| split].
    + split; [intros _; by apply Hremove | done].
    + split; [done |]. intros Hup. by apply Hnot_only in Hup.
    + split; [done |]. intros [(item & Hitem & Hnot) _].
      destruct Hnot. by apply Hremove.
  - split; [| split].
    + split.
      * intros ->. by destruct Hpolicy.
      * intros Hall. by apply Hremove in Hall.
    + done.
    + split.
      * intros ->. split; [by apply Hsome |].
        intros item Hitem Hup.
        assert (PolicyInstall = PolicyUpgrade) as Heq; [| done].
        apply Hupgrade. by exists item.
      * intros [_ Hnone]. destruct Hpolicy as [-> | ->]; [| done].
        destruct (proj1 Hupgrade eq_refl) as (item & Hitem & Hup).
        by destruct (Hnone item Hitem).
Qed.

(** X14: the policy of a Smart transaction.  [perform_changes] sets
    [PolicyRemove] exactly when every mark is [REMOVE] (so also when
    nothing is marked), [PolicyUpgrade] exactly when some mark is
    [UPGRADE], and [PolicyInstall] in the remaining case: some mark is not
    [REMOVE] and none is [UPGRADE].  So the policy does not depend on the
    order in which the dictionary gives its items. *)
Theorem choose_policy_spec (items : list (Pkg * Oper)) :
  (choose_policy items = PolicyRemove
   ↔ ∀ item, item ∈ items → item.2 = REMOVE)
  ∧ (choose_policy items = PolicyUpgrade
     ↔ ∃ item, item ∈ items ∧ item.2 = UPGRADE)
  ∧ (choose_policy items = PolicyInstall
     ↔ (∃ item, item ∈ items ∧ item.2 ≠ REMOVE)
       ∧ ∀ item, item ∈ items → item.2 ≠ UPGRADE)
  ∧ (∀ others, others ≡ₚ items → choose_policy others = choose_policy items).
Proof.
  destruct (choose_policy_cases items) as (Hremove & Hupgrade & Hinstall).
  split; [done |]. split; [done |]. split; [done |].
  intros others Hperm.
  destruct (choose_policy_cases others) as (Hremove' & Hupgrade' & Hinstall').
  destruct (choose_policy items) eqn:Hpolicy.
  - apply Hinstall'. destruct (proj1 Hinstall eq_refl) as [(x & Hx & Hne) Hno].
    split; [exists x; by rewrite Hperm |].
    intros y Hy. apply Hno. by rewrite <- Hperm.
  - apply Hupgrade'. destruct (proj1 Hupgrade eq_refl) as (x & Hx & Hup).
    exists x. by rewrite Hperm.
  - apply Hremove'. intros y Hy. apply (proj1 Hremove eq_refl).
    by rewrite <- Hperm.
Qed.

Lemma missing_marks_elem_of (marks : gmap Pkg Oper)
    (changeset : list (Pkg * Oper)) (pkg : Pkg) :
  pkg ∈ missing_marks marks changeset
  ↔ ∃ op, (pkg, op) ∈ changeset ∧ marks !! pkg ≠ Some op.
Proof.
  unfold missing_marks. rewrite list_elem_of_fmap. split.
  - intros ([pkg' op] & -> & [Hne Hin]%list_elem_of_filter). by exists op.
  - intros (op & Hin & Hne). exists (pkg, op). split; [done |].
    by apply list_elem_of_filter.
Qed.

Lemma missing_marks_nil (marks : gmap Pkg Oper)
    (changeset : list (Pkg * Oper)) :
  missing_marks marks changeset = [] →
  ∀ pkg op, (pkg, op) ∈ changeset → marks !! pkg = Some op.
Proof.
  intros Hnil pkg op Hin.
  destruct (decide (marks !! pkg = Some op)) as [Hmark | Hne]; [done |].
  assert (pkg ∈ missing_marks marks changeset) as Hmissing.
  { apply missing_marks_elem_of. by exists op. }
  rewrite Hnil in Hmissing. by apply elem_of_nil in Hmissing.
Qed.

(** X15: what a Smart transaction commits.  [perform_changes] leaves the
    marks as they are, whatever the outcome.  It gives [commitChangeSet]
    at most one change set, and only one that is not empty and in which
    every change was marked with that very operation.  When it raises
    [DependencyError], nothing was committed and the facade is as before,
    and the packages of the error are exactly those with a change that was
    not marked so; when it returns [None], the facade is as before too. *)
Theorem smart_perform_changes (f f' : SmartFacade Pkg Ctrl)
    (r : result Pkg (option string)) :
  perform_changes f = (r, f') →
  _marks f' = _marks f
  ∧ (committed f' = committed f
     ∨ ∃ changeset,
         committed f' = committed f ++ [changeset]
         ∧ changeset ≠ []
         ∧ transaction_run (_ctrl f) (choose_policy (map_to_list (_marks f)))
             (map_to_list (_marks f)) = inr changeset
         ∧ ∀ pkg op, (pkg, op) ∈ changeset → _marks f !! pkg = Some op)
  ∧ (∀ missing,
       r = Raise (DependencyError missing) →
       f' = f
       ∧ missing ≠ []
       ∧ ∃ changeset,
           transaction_run (_ctrl f) (choose_policy (map_to_list (_marks f)))
             (map_to_list (_marks f)) = inr changeset
           ∧ ∀ pkg, pkg ∈ missing
                    ↔ ∃ op, (pkg, op) ∈ changeset
                            ∧ _marks f !! pkg ≠ Some op)
  ∧ (r = Ok None → f' = f).
Proof.
  unfold perform_changes. cbv zeta.
  destruct (transaction_run _ _ _) as [message | changeset] eqn:Hrun.
  { intros [= <- <-]. split; [done |]. split; [by left |]. done. }
  destruct (decide (changeset = [])) as [Hempty | Hchanges].
  { rewrite (bool_decide_eq_true_2 _ Hempty). intros [= <- <-].
    split; [done |]. split; [by left |]. done. }
  rewrite (bool_decide_eq_false_2 _ Hchanges).
  destruct (decide (missing_marks (_marks f) changeset = []))
    as [Hnone | Hmissing].
  - rewrite (bool_decide_eq_true_2 _ Hnone). cbn [negb].
    assert (∃ changes,
              committed f ++ [changeset] = committed f ++ [changes]
              ∧ changes ≠ []
              ∧ inr changeset = (inr changes : string + list (Pkg * Oper))
              ∧ ∀ pkg op, (pkg, op) ∈ changes → _marks f !! pkg = Some op)
      as Hcommitted.
    { exists changeset. split; [done |]. split; [done |]. split; [done |].
      by apply missing_marks_nil. }
    destruct (commit_error _).
    + intros [= <- <-]. split; [done |]. split; [by right |]. done.
    + destruct (commit_failed _); intros [= <- <-];
        (split; [done |]; split; [by right |]; done).
  - rewrite (bool_decide_eq_false_2 _ Hmissing). cbn [negb].
    intros [= <- <-]. split; [done |]. split; [by left |]. split; [| done].
    intros missing [= <-]. split; [done |]. split; [done |].
    exists changeset. split; [done |]. apply missing_marks_elem_of.
Qed.

Lemma scan_provides_packages_spec (packages : list Pkg) (is_upgrade : bool) :
  let found := ∃ pkg, pkg ∈ packages ∧ pkg_installed pkg = true in
  (found ∧ scan_provides_packages packages is_upgrade = (true, true))
  ∨ (¬ found
     ∧ scan_provides_packages packages is_upgrade = (is_upgrade, false)).
Proof.
  cbv zeta. induction packages as [| pkg rest IH]; simpl.
  - right. split; [| done]. intros (pkg & Hpkg & _).
    by apply elem_of_nil in Hpkg.
  - destruct (pkg_installed pkg) eqn:Hinstalled.
    + left. split; [| done]. exists pkg. split; [by left | done].
    + destruct IH as [[(q & Hq & Hi) Hrun] | [Hnone Hrun]].
      * left. split; [| done]. exists q. split; [by right | done].
      * right. split; [| done].
        intros (q & [-> | Hq]%elem_of_cons & Hi); [congruence |].
        apply Hnone. by exists q.
Qed.

Lemma scan_providedby_spec (provides : list (list Pkg)) (is_upgrade : bool) :
  let found :=
    ∃ packages pkg,
      packages ∈ provides ∧ pkg ∈ packages ∧ pkg_installed pkg = true in
  (found ∧ scan_providedby provides is_upgrade = (true, true))
  ∨ (¬ found ∧ scan_providedby provides is_upgrade = (is_upgrade, false)).
Proof.
  cbv zeta. induction provides as [| packages rest IH]; simpl.
  - right. split; [| done]. intros (packages & pkg & Hin & _).
    by apply elem_of_nil in Hin.
  - destruct (scan_provides_packages_spec packages is_upgrade)
      as [[(pkg & Hpkg & Hi) ->] | [Hnone ->]]; cbn [negb].
    + left. split; [| done]. exists packages, pkg. split; [by left | done].
    + destruct IH as [[(ps & q & Hps & Hq & Hi) Hrun] | [Hnot Hrun]].
      * left. split; [| done]. exists ps, q. split; [by right | done].
      * right. split; [| done].
        intros (ps & q & [-> | Hps]%elem_of_cons & Hq & Hi).
        -- apply Hnone. by exists q.
        -- apply Hnot. by exists ps, q.
Qed.

Lemma scan_upgrades_spec (upgrades : list (Upgrade Pkg)) (is_upgrade : bool) :
  let found :=
    ∃ upgrade packages pkg,
      upgrade ∈ upgrades ∧ packages ∈ providedby upgrade ∧ pkg ∈ packages
      ∧ pkg_installed pkg = true in
  (found ∧ scan_upgrades upgrades is_upgrade = (true, true))
  ∨ (¬ found ∧ scan_upgrades upgrades is_upgrade = (is_upgrade, false)).
Proof.
  cbv zeta. induction upgrades as [| upgrade rest IH]; simpl.
  - right. split; [| done]. intros (upgrade & ps & pkg & Hin & _).
    by apply elem_of_nil in Hin.
  - destruct (scan_providedby_spec (providedby upgrade) is_upgrade)
      as [[(ps & pkg & Hps & Hpkg & Hi) ->] | [Hnone ->]]; cbn [negb].
    + left. split; [| done]. exists upgrade, ps, pkg.
      split; [by left | done].
    + destruct IH as [[(u & ps & q & Hu & Hps & Hq & Hi) Hrun] | [Hnot Hrun]].
      * left. split; [| done]. exists u, ps, q. split; [by right | done].
      * right. split; [| done].
        intros (u & ps & q & [-> | Hu]%elem_of_cons & Hps & Hq & Hi).
        -- apply Hnone. by exists ps, q.
        -- apply Hnot. by exists u, ps, q.
Qed.

(** X16: the loops of [is_package_upgrade] and [is_package_available].
    The three loops with their [break] and [else: continue] give [True]
    exactly when some package that provides what the package upgrades is
    installed; and a package is available exactly when one of its loaders
    is not the loader of the installed packages. *)
Theorem is_package_upgrade_spec (package : Pkg) :
  (is_package_upgrade package = true ↔ upgrades_installed package)
  ∧ (is_package_available package = true
     ↔ false ∈ loaders_installed package).
Proof.
  split.
  - unfold is_package_upgrade, upgrades_installed.
    destruct (scan_upgrades_spec (pkg_upgrades package) false)
      as [[Hfound ->] | [Hnone ->]]; cbn [fst]; [done |].
    split; [done |]. intros Hfound. by destruct Hnone.
  - unfold is_package_available.
    induction (loaders_installed package) as [| installed rest IH]; simpl.
    + split; [done |]. intros Hin. by apply elem_of_nil in Hin.
    + destruct installed; cbn [negb].
      * rewrite IH, elem_of_cons. split; [by right |].
        by intros [? | ?].
      * split; [| done]. intros _. by left.
Qed.

Lemma foldl_union_elem_of {A : Type}
    (f : gset Skeleton.relation → A → gset Skeleton.relation)
    (g : A → Skeleton.relation) (xs : list A)
    (found : gset Skeleton.relation) (r : Skeleton.relation) :
  (∀ relations x, f relations x = relations ∪ {[ g x ]}) →
  r ∈ foldl f found xs ↔ r ∈ found ∨ ∃ x, x ∈ xs ∧ r = g x.
Proof.
  intros Hf. revert found. induction xs as [| x xs IH]; intros found; simpl.
  - split; [by left |]. intros [? | (x & Hx & _)]; [done |].
    by apply elem_of_nil in Hx.
  - rewrite IH, Hf, elem_of_union, elem_of_singleton. split.
    + intros [[Hfound | ->] | (y & Hy & ->)].
      * by left.
      * right. exists x. split; [by left | done].
      * right. exists y. split; [by right | done].
    + intros [Hfound | (y & [-> | Hy]%elem_of_cons & ->)].
      * by left; left.
      * by left; right.
      * right. by exists y.
Qed.

(** X17: [build_skeleton], the builder for Smart packages.  It raises
    [PackageTypeError] exactly for a package that is not a [DebPackage].
    For a [DebPackage] and without the information, it returns a skeleton
    of type [DEB_PACKAGE] with the name and the version of the package;
    its relations are in the lexicographic order of (kind, description)
    without repetition, so [get_hash] leaves it as it is; and they are
    exactly: the provides as [DEB_NAME_PROVIDES] or [DEB_PROVIDES], the
    requires as [DEB_OR_REQUIRES] or [DEB_REQUIRES], the upgrades as
    [DEB_UPGRADES] and the conflicts as [DEB_CONFLICTS], each with its
    text.  With the information, the call raises [IndexError] when the
    package has no loader, and otherwise gives the same relations, and as
    size the sum of the sizes of the URLs. *)
Theorem build_skeleton_spec (pkg : Pkg) (with_unicode : bool) :
  (is_deb_package pkg = false →
   ∀ with_info, build_skeleton pkg with_info with_unicode
                = Raise PackageTypeError)
  ∧ (is_deb_package pkg = true →
     ∃ skeleton,
       build_skeleton pkg false with_unicode = Ok skeleton
       ∧ Skeleton.type skeleton = Skeleton.DEB_PACKAGE
       ∧ Skeleton.name skeleton = pkg_name pkg
       ∧ Skeleton.version skeleton = pkg_version pkg
       ∧ Sorted lex_le (Skeleton.relations skeleton)
       ∧ NoDup (Skeleton.relations skeleton)
       ∧ (Skeleton.get_hash skeleton).2 = skeleton
       ∧ (∀ r,
            r ∈ Skeleton.relations skeleton
            ↔ (∃ provides : bool * string,
                 provides ∈ pkg_provides pkg
                 ∧ r = (if provides.1 then Skeleton.DEB_NAME_PROVIDES
                        else Skeleton.DEB_PROVIDES, provides.2))
              ∨ (∃ requires : bool * string,
                   requires ∈ pkg_requires pkg
                   ∧ r = (if requires.1 then Skeleton.DEB_OR_REQUIRES
                          else Skeleton.DEB_REQUIRES, requires.2))
              ∨ (∃ upgrade,
                   upgrade ∈ pkg_upgrades pkg
                   ∧ r = (Skeleton.DEB_UPGRADES, upgrade_str upgrade))
              ∨ (∃ conflict,
                   conflict ∈ pkg_conflicts pkg
                   ∧ r = (Skeleton.DEB_CONFLICTS, conflict)))
       ∧ match pkg_info pkg with
         | None => build_skeleton pkg true with_unicode = Raise IndexError
         | Some info =>
             ∃ informed,
               build_skeleton pkg true with_unicode = Ok informed
               ∧ Skeleton.relations informed = Skeleton.relations skeleton
               ∧ Skeleton.size informed = Some (foldl Z.add 0 (sizes info))
         end).
Proof.
  unfold build_skeleton. split.
  - intros ->. done.
  - intros ->. cbn [negb]. cbv zeta.
    set (relations :=
           foldl (λ relations (relation : string), _)
             (foldl (λ relations (relation : Upgrade Pkg), _)
                (foldl (λ relations (relation : bool * string), _)
                   (foldl (λ relations (relation : bool * string), _) ∅
                      (pkg_provides pkg))
                   (pkg_requires pkg))
                (pkg_upgrades pkg))
             (pkg_conflicts pkg)).
    eexists. split; [reflexivity |]. cbn [Skeleton.type Skeleton.name
      Skeleton.version Skeleton.relations Skeleton.set_relations
      Skeleton.new].
    split; [done |]. split; [done |]. split; [done |].
    split; [| split; [| split; [| split]]].
    + apply (Sorted_weaken pair_le); [| apply sorted_relations_Sorted].
      intros a b. by rewrite pair_le_lex.
    + rewrite sorted_perm. apply NoDup_elements.
    + rewrite get_hash_skeleton.
      cbn [Skeleton.relations Skeleton.set_relations Skeleton.type
           Skeleton.name Skeleton.version Skeleton.section Skeleton.summary
           Skeleton.description Skeleton.size Skeleton.installed_size
           Skeleton.new].
      by rewrite sorted_relations_idem.
    + intros r. rewrite sorted_perm, elem_of_elements. subst relations.
      rewrite (foldl_union_elem_of _
                 (λ relation, (Skeleton.DEB_CONFLICTS, relation))) by done.
      rewrite (foldl_union_elem_of _
                 (λ relation : Upgrade Pkg,
                    (Skeleton.DEB_UPGRADES, upgrade_str relation))) by done.
      rewrite (foldl_union_elem_of _
                 (λ relation : bool * string,
                    (if relation.1 then Skeleton.DEB_OR_REQUIRES
                     else Skeleton.DEB_REQUIRES, relation.2)))
        by (intros ? [[] ?]; done).
      rewrite (foldl_union_elem_of _
                 (λ relation : bool * string,
                    (if relation.1 then Skeleton.DEB_NAME_PROVIDES
                     else Skeleton.DEB_PROVIDES, relation.2)))
        by (intros ? [[] ?]; done).
      rewrite elem_of_empty. tauto.
    + destruct (pkg_info pkg) as [info |]; [| done].
      eexists. split; [reflexivity |]. done.
Qed.

Lemma mark_upgrades_marks (packages : list Pkg) (f : SmartFacade Pkg Ctrl) :
  let f' :=
    foldl (λ f package,
             if is_package_installed package then mark_upgrade package f
             else f)
          f packages in
  (∀ pkg,
     _marks f' !! pkg
     = if bool_decide (pkg ∈ packages ∧ pkg_installed pkg = true)
       then Some UPGRADE else _marks f !! pkg)
  ∧ set_marks (_marks f) f' = f.
Proof.
  cbv zeta. revert f. induction packages as [| package rest IH]; intros f.
  - cbn [foldl]. split; [| by destruct f]. intros pkg.
    rewrite bool_decide_eq_false_2; [done |].
    intros [Hin _]. by apply elem_of_nil in Hin.
  - cbn [foldl].
    change (is_package_installed package) with (pkg_installed package).
    destruct (pkg_installed package) eqn:Hinstalled.
    + destruct (IH (mark_upgrade package f)) as [Hmarks Hrest].
      split.
      * intros pkg. rewrite Hmarks. cbn [_marks mark_upgrade set_marks].
        destruct (decide (pkg = package)) as [-> | Hne].
        -- rewrite lookup_insert_eq.
           rewrite (bool_decide_eq_true_2 (package ∈ package :: rest ∧ _));
             [by destruct (bool_decide _) |].
           split; [by left | done].
        -- rewrite lookup_insert_ne by done.
           apply (f_equal (λ b : bool, if b then Some UPGRADE
                                       else _marks f !! pkg)).
           apply bool_decide_ext. rewrite elem_of_cons. naive_solver.
      * transitivity (set_marks (_marks f) (mark_upgrade package f));
          [exact (f_equal (set_marks (_marks f)) Hrest) | by destruct f].
    + destruct (IH f) as [Hmarks Hrest]. split; [| done].
      intros pkg. rewrite Hmarks.
      apply (f_equal (λ b : bool, if b then Some UPGRADE
                                  else _marks f !! pkg)).
      apply bool_decide_ext. rewrite elem_of_cons.
      split; [naive_solver |].
      intros [[-> | Hin] Hi]; [congruence | done].
Qed.

(** X18: [mark_global_upgrade] marks exactly the installed packages of the
    channels for upgrade: such a package gets the mark [UPGRADE] whatever
    mark it had, every other mark stays, and nothing else of the facade
    changes.  If some package is installed, the transaction that follows
    is run with [PolicyUpgrade]. *)
Theorem mark_global_upgrade_marks (f : SmartFacade Pkg Ctrl) :
  (∀ pkg,
     _marks (mark_global_upgrade f) !! pkg
     = if bool_decide (pkg ∈ get_packages f ∧ pkg_installed pkg = true)
       then Some UPGRADE else _marks f !! pkg)
  ∧ set_marks (_marks f) (mark_global_upgrade f) = f
  ∧ ((∃ pkg, pkg ∈ get_packages f ∧ pkg_installed pkg = true) →
     choose_policy (map_to_list (_marks (mark_global_upgrade f)))
     = PolicyUpgrade).
Proof.
  destruct (mark_upgrades_marks (get_packages f) f) as [Hmarks Hrest].
  split; [exact Hmarks |]. split; [exact Hrest |].
  intros (pkg & Hpkg & Hinstalled).
  apply choose_policy_cases. exists (pkg, UPGRADE). split; [| done].
  apply elem_of_map_to_list. unfold mark_global_upgrade. rewrite Hmarks.
  by rewrite bool_decide_eq_true_2.
Qed.

#[local] Opaque Skeleton.get_hash.

Lemma package_hash_deb (pkg : Pkg) :
  is_deb_package pkg = true →
  ∃ skeleton,
    get_package_skeleton pkg false = Ok skeleton
    ∧ package_hash pkg = Some (Skeleton.get_hash skeleton).1.
Proof.
  intros Hdeb. unfold package_hash, get_package_skeleton, build_skeleton.
  rewrite Hdeb. cbn [negb]. cbv zeta. eexists. split; reflexivity.
Qed.

Lemma package_hash_length (pkg : Pkg) (h : list Z) :
  package_hash pkg = Some h → length h = 20%nat.
Proof.
  unfold package_hash. destruct (get_package_skeleton pkg false); [| done].
  intros [= <-]. rewrite get_hash_unfold. apply sha1_length.
Qed.

(** The loop over the packages, for packages that are all [DebPackage]s. *)
Lemma index_packages_run (packages : list Pkg)
    (index : gmap (list Z) Pkg * gmap Pkg (list Z)) :
  (∀ pkg, pkg ∈ packages → is_deb_package pkg = true) →
  ∃ index',
    index_packages packages index = (Ok tt, index')
    ∧ (∀ pkg h, index'.2 !! pkg = Some h
                ↔ (pkg ∈ packages ∧ package_hash pkg = Some h)
                  ∨ ((pkg ∉ packages) ∧ index.2 !! pkg = Some h))
    ∧ (∀ h w, index'.1 !! h = Some w →
              (w ∈ packages ∧ package_hash w = Some h)
              ∨ index.1 !! h = Some w)
    ∧ (∀ h, is_Some (index.1 !! h) → is_Some (index'.1 !! h))
    ∧ (∀ pkg h, pkg ∈ packages → package_hash pkg = Some h →
                is_Some (index'.1 !! h)).
Proof.
  revert index. induction packages as [| pkg rest IH]; intros index Hdeb.
  - exists index. split; [done |]. split; [| split; [| split]].
    + intros pkg h. split.
      * intros Hold. right. split; [apply not_elem_of_nil | done].
      * intros [[Hin _] | [_ Hold]]; [by apply elem_of_nil in Hin | done].
    + intros h w Hw. by right.
    + done.
    + intros pkg h Hin. by apply elem_of_nil in Hin.
  - destruct (package_hash_deb pkg) as (skeleton & Hskeleton & Hhash);
      [apply Hdeb; by left |].
    cbn [index_packages]. rewrite Hskeleton.
    set (hash := (Skeleton.get_hash skeleton).1) in *.
    destruct (IH (<[hash := pkg]> index.1, <[pkg := hash]> index.2))
      as (index' & Hrun & Hpkg & Hback & Hkeys & Hresolves).
    { intros q Hq. apply Hdeb. by right. }
    exists index'. split; [exact Hrun |]. cbn [fst snd] in *.
    split; [| split; [| split]].
    + intros q h. rewrite Hpkg, elem_of_cons.
      destruct (decide (q = pkg)) as [-> | Hne].
      * rewrite lookup_insert_eq. split.
        -- intros [[Hin Hq] | [Hnot [= <-]]]; left; (split; [auto | done]).
        -- intros [[_ Hq] | [Hnot _]]; [| destruct Hnot; by left].
           destruct (decide (pkg ∈ rest)) as [Hin | Hnot]; [by left |].
           right. split; [done |]. congruence.
      * rewrite lookup_insert_ne by done. split.
        -- intros [[Hin Hq] | [Hnot Hold]]; [left | right].
           ++ split; [by right | done].
           ++ split; [| done]. by intros [? | ?].
        -- intros [[[? | Hin] Hq] | [Hnot Hold]]; [done | by left |].
           right. split; [| done]. intros Hin. apply Hnot. by right.
    + intros h w Hw. destruct (Hback h w Hw) as [[Hin Hq] | Hold].
      * left. split; [by right | done].
      * destruct (decide (hash = h)) as [<- | Hne].
        -- rewrite lookup_insert_eq in Hold. injection Hold as <-.
           left. split; [by left | done].
        -- rewrite lookup_insert_ne in Hold by done. by right.
    + intros h Hsome. apply Hkeys.
      destruct (decide (hash = h)) as [<- | Hne].
      * by rewrite lookup_insert_eq.
      * by rewrite lookup_insert_ne.
    + intros q h [-> | Hin]%elem_of_cons Hq.
      * apply Hkeys. assert (hash = h) as <- by congruence.
        by rewrite lookup_insert_eq.
      * by eapply Hresolves.
Qed.

Lemma get_packages_deb (f : SmartFacade Pkg Ctrl) (pkg : Pkg) :
  pkg ∈ get_packages f → is_deb_package pkg = true.
Proof. unfold get_packages. by intros [? _]%list_elem_of_filter. Qed.

(** [reload_channels] by its two runs. *)
Lemma smart_reload_channels_run (f : SmartFacade Pkg Ctrl) :
  let ctrl := (reload_channels_ctrl (_caching f) (_ctrl f)).2 in
  let reloaded :=
    mkSmartFacade ctrl (_pkg2hash f) (_hash2pkg f) (_marks f) (_caching f)
      (_channels_reloaded f) (committed f) in
  (∃ message,
     reload_channels f = (Raise (ChannelError message), reloaded))
  ∨ (∃ index,
       reload_channels f = (Ok tt, set_index index.2 index.1 reloaded)
       ∧ index_packages (get_packages reloaded) (∅, ∅) = (Ok tt, index)).
Proof.
  cbv zeta. unfold reload_channels.
  destruct (reload_channels_ctrl (_caching f) (_ctrl f))
    as [reload_result ctrl]. cbn [snd].
  match goal with
  | |- context [if ?failed then _ else _] => destruct failed
  end.
  - left. by eexists.
  - right.
    set (reloaded := mkSmartFacade ctrl _ _ _ _ _ _).
    destruct (index_packages_run (get_packages reloaded) (∅, ∅))
      as (index & Hrun & _); [apply get_packages_deb |].
    exists index. by rewrite Hrun.
Qed.

(** X19: [SmartFacade.ensure_channels_reloaded] sets its flag before it
    loads the channels.  The only exception of a load is [ChannelError]
    (the skeleton of a listed package is always made); the load then
    leaves the two dictionaries as they were, the flag is set all the
    same, and the next call returns without loading again.  After a call
    that returned the flag is set as well. *)
Theorem smart_ensure_channels_reloaded (f f' : SmartFacade Pkg Ctrl)
    (r : result Pkg unit) :
  ensure_channels_reloaded f = (r, f') →
  _channels_reloaded f' = true
  ∧ ensure_channels_reloaded f' = (Ok tt, f')
  ∧ (∀ e, r = Raise e →
          (∃ message, e = ChannelError message)
          ∧ _channels_reloaded f = false
          ∧ _pkg2hash f' = _pkg2hash f
          ∧ _hash2pkg f' = _hash2pkg f
          ∧ _marks f' = _marks f).
Proof.
  unfold ensure_channels_reloaded at 1.
  destruct (_channels_reloaded f) eqn:Hflag.
  - intros [= <- <-]. split; [done |].
    unfold ensure_channels_reloaded. rewrite Hflag. done.
  - intros Hrun.
    assert (_channels_reloaded f' = true
            ∧ ∀ e, r = Raise e →
                   (∃ message, e = ChannelError message)
                   ∧ _pkg2hash f' = _pkg2hash f
                   ∧ _hash2pkg f' = _hash2pkg f
                   ∧ _marks f' = _marks f) as [Hset Hraise].
    { destruct (smart_reload_channels_run
                  (mkSmartFacade (_ctrl f) (_pkg2hash f) (_hash2pkg f)
                     (_marks f) (_caching f) true (committed f)))
        as [(message & Hfail) | (index & Hok & _)].
      - rewrite Hfail in Hrun. injection Hrun as <- <-.
        split; [done |]. intros e [= <-]. split; [by eexists | done].
      - cbv zeta in Hok. rewrite Hok in Hrun. injection Hrun as <- <-.
        done. }
    split; [done |]. split.
    + unfold ensure_channels_reloaded. by rewrite Hset.
    + intros e He. destruct (Hraise e He) as (? & ? & ? & ?). done.
Qed.

(** X20: the index of a Smart facade after [reload_channels] returned.
    [_pkg2hash] has an entry exactly for the [DebPackage]s of the cache,
    with the hash of the package's skeleton, which has 20 bytes; the
    package that [get_package_by_hash] gives for a hash has this hash by
    [get_package_hash]; and the hash of every package leads back to a
    package with the same hash. *)
Theorem smart_reload_channels_index (f f' : SmartFacade Pkg Ctrl) :
  reload_channels f = (Ok tt, f') →
  (∀ pkg h, get_package_hash f' pkg = Some h
            ↔ pkg ∈ get_packages f' ∧ package_hash pkg = Some h)
  ∧ (∀ pkg h, get_package_hash f' pkg = Some h → length h = 20%nat)
  ∧ (∀ h pkg, get_package_by_hash f' h = Some pkg →
              get_package_hash f' pkg = Some h)
  ∧ (∀ pkg h, get_package_hash f' pkg = Some h →
              ∃ other, get_package_by_hash f' h = Some other
                       ∧ get_package_hash f' other = Some h)
  ∧ _marks f' = _marks f.
Proof.
  intros Hrun.
  destruct (smart_reload_channels_run f)
    as [(message & Hfail) | (index & Hok & Hindex)]; [congruence |].
  cbv zeta in Hok, Hindex. rewrite Hok in Hrun. injection Hrun as <-.
  set (reloaded := mkSmartFacade _ _ _ _ _ _ _) in *.
  destruct (index_packages_run (get_packages reloaded) (∅, ∅))
    as (index' & Hrun' & Hpkg & Hback & _ & Hresolves);
    [apply get_packages_deb |].
  assert (index' = index) as -> by congruence.
  unfold get_package_hash, get_package_by_hash.
  cbn [_pkg2hash _hash2pkg set_index _marks] in *.
  change (get_packages (set_index index.2 index.1 reloaded))
    with (get_packages reloaded).
  assert (∀ pkg h, index.2 !! pkg = Some h
                   ↔ pkg ∈ get_packages reloaded ∧ package_hash pkg = Some h)
    as Hentries.
  { intros pkg h. rewrite Hpkg. cbn [snd]. rewrite lookup_empty.
    split; [by intros [? | [_ ?]] | by left]. }
  assert (∀ h pkg, index.1 !! h = Some pkg → index.2 !! pkg = Some h)
    as Hround.
  { intros h pkg Hlook. apply Hentries.
    destruct (Hback h pkg Hlook) as [? | Hold]; [done |].
    cbn [fst] in Hold. by rewrite lookup_empty in Hold. }
  split; [exact Hentries |]. split; [| split; [exact Hround |]].
  - intros pkg h [_ Hhash]%Hentries. by eapply package_hash_length.
  - split; [| done]. intros pkg h Hlook.
    apply Hentries in Hlook as [Hin Hhash].
    destruct (Hresolves pkg h Hin Hhash) as [other Hother].
    exists other. split; [done |]. by apply Hround.
Qed.

End SmartFacts.

(** ** The further properties on the small cache *)

Section FurtherExamples.
Import Facade Toy.

Lemma perform_changes_holds_only_witness :
  _version_installs changes_holds = []
  ∧ _version_hold_creations changes_holds ++ _version_hold_removals changes_holds
    ≠ []
  ∧ ∃ s',
      perform_changes changes_holds
      = (Ok (Some "Package holds successfully changed."), s')
      ∧ calls s'
        = [CallDpkgSetSelections "curl hold";
           CallDpkgSetSelections "bash install"]
      ∧ _cache s' = _cache changes_holds.
Proof.
  assert (_version_hold_creations changes_holds
          ++ _version_hold_removals changes_holds ≠ []) as Hholds.
  { vm_compute. discriminate. }
  split; [reflexivity |]. split; [exact Hholds |].
  destruct (perform_changes_holds_only changes_holds eq_refl eq_refl eq_refl
              Hholds)
    as (s' & Hrun & Hcalls & Hcache & _).
  - intros w Hw. vm_compute in Hw.
    apply list_elem_of_singleton in Hw. subst w. reflexivity.
  - exists s'. split; [exact Hrun |]. split; [| exact Hcache].
    rewrite Hcalls. vm_compute. reflexivity.
Defined.

Lemma hold_changes_not_undone_witness :
  (∃ message,
     (perform_changes holds_curl_removes_bash).1
     = Raise (TransactionError message))
  ∧ ∃ later,
      calls (perform_changes holds_curl_removes_bash).2
      = calls holds_curl_removes_bash
        ++ [CallDpkgSetSelections "curl hold"] ++ later.
Proof.
  split; [eexists; vm_compute; reflexivity |].
  destruct (perform_changes holds_curl_removes_bash) as [r s'] eqn:Hrun.
  destruct (hold_changes_not_undone holds_curl_removes_bash s' r)
    as (later & Hcalls).
  - intros w Hw. vm_compute in Hw.
    apply list_elem_of_singleton in Hw. subst w. reflexivity.
  - exact Hrun.
  - exists later. exact Hcalls.
Defined.

Lemma perform_changes_success_witness :
  (_version_installs wants_vim_and_curl
   ++ _version_removals wants_vim_and_curl ≠ []
   ∨ _global_upgrade wants_vim_and_curl = true)
  ∧ ∃ text s',
      perform_changes wants_vim_and_curl = (Ok (Some text), s')
      ∧ (∀ pv, planned (_cache (before_check wants_vim_and_curl).2) pv →
               requested wants_vim_and_curl pv)
      ∧ dpkg_exited
          (cache_commit (_cache (before_check wants_vim_and_curl).2))
        = true.
Proof.
  assert (_version_installs wants_vim_and_curl
          ++ _version_removals wants_vim_and_curl ≠ []
          ∨ _global_upgrade wants_vim_and_curl = true) as Hversions.
  { left. vm_compute. discriminate. }
  split; [exact Hversions |].
  destruct (perform_changes wants_vim_and_curl) as [r s'] eqn:Hrun.
  assert (∃ text, r = Ok (Some text)) as (text & ->).
  { apply (f_equal fst) in Hrun. vm_compute in Hrun. subst r. by eexists. }
  exists text, s'. split; [reflexivity |].
  destruct (perform_changes_success wants_vim_and_curl s' text Hversions Hrun)
    as (_ & _ & Hrequested & _ & Hexited & _).
  split; [exact Hrequested | exact Hexited].
Defined.

Lemma add_channels_lines_witness :
  sources_file idle = None
  ∧ (∀ channel, channel ∈ channels →
                Py.has_char Py.LF (channel_line channel) = false)
  ∧ ∃ new,
      sources_file (add_channels channels idle) = Some (lines_text new)
      ∧ NoDup new
      ∧ (∀ l, l ∈ new ↔ l ∈ channel_line <$> channels).
Proof.
  assert (∀ channel, channel ∈ channels →
                     Py.has_char Py.LF (channel_line channel) = false)
    as Hlines.
  { apply Forall_forall. repeat constructor. }
  split; [reflexivity |]. split; [exact Hlines |].
  destruct (add_channels_lines channels idle [] eq_refl (NoDup_nil_2 (A := string)))
    as (new & Htext & Hnew & Hmem & _ & Hsome).
  - intros l Hl. by apply elem_of_nil in Hl.
  - exact Hlines.
  - exists new. split; [| split; [exact Hnew |]].
    + destruct Hsome as [text Hfile]; [discriminate |].
      rewrite Hfile in Htext |- *. simpl in Htext. by rewrite Htext.
    + intros l. rewrite Hmem. split; [by intros [Hl _] |].
      intros Hl. split; [exact Hl | apply not_elem_of_nil].
Defined.

Lemma reload_fresh_run :
  Catalogue.reload_channels false ToyCatalogue.fresh
  = (Ok tt, (Catalogue.reload_channels false ToyCatalogue.fresh).2).
Proof. apply injective_projections; [vm_compute; reflexivity | reflexivity]. Qed.

Lemma reload_fresh_cache :
  _cache (Catalogue.base (Catalogue.reload_channels false ToyCatalogue.fresh).2)
  = machine.
Proof. vm_compute. reflexivity. Qed.

Lemma toy_versions_of_package (c : cache) (p : Package) (v : Version) :
  v ∈ Catalogue.package_versions c p → package v = p.
Proof.
  unfold Catalogue.package_versions; simpl.
  rewrite elem_of_remove_dups, list_elem_of_filter. by intros [? _].
Qed.

Lemma reload_channels_index_witness :
  ∃ f',
    Catalogue.reload_channels false ToyCatalogue.fresh = (Ok tt, f')
    ∧ Catalogue._channels_loaded f' = true
    ∧ (∃ h, Catalogue._pkg2hash f' !! (pkg "vim", ver "vim" "8.0") = Some h)
    ∧ Catalogue._pkg2hash f' !! (libfoo_i386, mkVersion libfoo_i386 "1.0")
      = None.
Proof.
  exists (Catalogue.reload_channels false ToyCatalogue.fresh).2.
  split; [exact reload_fresh_run |].
  destruct (reload_channels_index false ToyCatalogue.fresh _ reload_fresh_run)
    as (Hloaded & Hall & Hpkg & _).
  rewrite reload_fresh_cache in Hall, Hpkg.
  split; [exact Hloaded |]. split.
  - assert (Catalogue.indexed machine (pkg "vim", ver "vim" "8.0"))
      as Hindexed.
    { split; [| split; [reflexivity |]].
      - apply list_elem_of_In. vm_compute. tauto.
      - apply list_elem_of_In. vm_compute. tauto. }
    destruct (Hall _ Hindexed) as [h Hh]. exists h. apply Hpkg.
    split; [exact Hindexed | exact Hh].
  - destruct (Catalogue._pkg2hash _ !! _) as [h |] eqn:Hlook; [| reflexivity].
    apply Hpkg in Hlook as [(_ & Hmain & _) _]. discriminate Hmain.
Defined.



Lemma exim_indexed :
  Catalogue.indexed ToyCatalogue.mail_server (pkg "exim", ver "exim" "4.0").
Proof.
  split; [| split; [reflexivity |]].
  - apply list_elem_of_In. vm_compute. tauto.
  - apply list_elem_of_In. vm_compute. tauto.
Qed.

Lemma exim_version_hash :
  Catalogue.version_hash ToyCatalogue.mail_server (ver "exim" "4.0") = None.
Proof. vm_compute. reflexivity. Qed.


Lemma package_hash_round_trip_witness :
  ∃ f',
    Catalogue.reload_channels false ToyCatalogue.fresh = (Ok tt, f')
    ∧ (∀ p v, v ∈ Catalogue.package_versions (_cache (Catalogue.base f')) p →
              package v = p)
    ∧ (∀ h w, Catalogue.get_package_by_hash f' h = Some w →
              Catalogue.get_package_hash f' w = Some h)
    ∧ Catalogue.get_package_hash f' (mkVersion libfoo_i386 "1.0") = None.
Proof.
  exists (Catalogue.reload_channels false ToyCatalogue.fresh).2.
  split; [exact reload_fresh_run |].
  assert (∀ p v,
            v ∈ Catalogue.package_versions
                  (_cache (Catalogue.base
                     (Catalogue.reload_channels false ToyCatalogue.fresh).2))
                  p →
            package v = p) as Hlaw
    by (intros p v; apply toy_versions_of_package).
  split; [exact Hlaw |].
  destruct (package_hash_round_trip false ToyCatalogue.fresh _
              reload_fresh_run Hlaw) as (Hround & _ & Hforeign).
  split.
  - intros h w Hw. by destruct (Hround h w Hw).
  - by apply Hforeign.
Defined.

Lemma ensure_channels_reloaded_once_witness :
  (∃ message,
     (Catalogue.ensure_channels_reloaded Offline.refetching).1
     = Raise (ChannelError message))
  ∧ Catalogue._channels_loaded
      (Catalogue.ensure_channels_reloaded Offline.refetching).2 = false
  ∧ (∃ f', Catalogue.ensure_channels_reloaded ToyCatalogue.fresh = (Ok tt, f'))
  ∧ ∃ f',
      Catalogue.ensure_channels_reloaded ToyCatalogue.fresh_mail
      = (Raise TypeError, f').
Proof.
  split; [by eexists |]. split; [| split].
  - destruct (Catalogue.ensure_channels_reloaded Offline.refetching)
      as [r f'] eqn:Hrun.
    assert (∃ e, r = Raise e) as (e & ->).
    { apply (f_equal fst) in Hrun. simpl in Hrun. subst r. by eexists. }
    destruct (ensure_channels_reloaded_once Offline.refetching)
      as (_ & _ & Hraise & _).
    by destruct (Hraise e f' Hrun) as (_ & Hflag & _).
  - destruct (ensure_channels_reloaded_once ToyCatalogue.fresh)
      as (_ & _ & _ & Hsettled).
    destruct (Hsettled eq_refl) as [Hreturns _]. apply Hreturns. right.
    destruct (reload_channels_dictionaries false ToyCatalogue.fresh _
                reload_fresh_run) as (Hall & _).
    rewrite reload_fresh_cache in Hall. exact Hall.
  - destruct (ensure_channels_reloaded_once ToyCatalogue.fresh_mail)
      as (_ & _ & _ & Hsettled).
    destruct (Hsettled eq_refl) as [_ Hraises]. apply Hraises.
    split; [reflexivity |]. exists (pkg "exim", ver "exim" "4.0").
    split; [exact exim_indexed | exact exim_version_hash].
Defined.

Lemma smart_perform_changes_witness :
  (Smart.perform_changes ToySmart.wants_vim).1
  = Smart.Raise (Smart.DependencyError ["vim-runtime"])
  ∧ (Smart.perform_changes ToySmart.wants_vim).2 = ToySmart.wants_vim
  ∧ ∃ text changeset,
      (Smart.perform_changes ToySmart.wants_vim_with_runtime).1
      = Smart.Ok (Some text)
      ∧ Smart.committed
          (Smart.perform_changes ToySmart.wants_vim_with_runtime).2
        = [changeset]
      ∧ ∀ pkg op,
          (pkg, op) ∈ changeset →
          Smart._marks ToySmart.wants_vim_with_runtime !! pkg = Some op.
Proof.
  assert ((Smart.perform_changes ToySmart.wants_vim).1
          = Smart.Raise (Smart.DependencyError ["vim-runtime"])) as Hraised.
  { vm_compute. reflexivity. }
  split; [exact Hraised |]. split.
  - destruct (Smart.perform_changes ToySmart.wants_vim) as [r f'] eqn:Hrun.
    simpl in Hraised. subst r.
    destruct (smart_perform_changes ToySmart.wants_vim f' _ Hrun)
      as (_ & _ & Hmissing & _).
    by destruct (Hmissing ["vim-runtime"] eq_refl) as [-> _].
  - assert ((Smart.perform_changes ToySmart.wants_vim_with_runtime).1
            = Smart.Ok (Some "done")) as Hdone.
    { vm_compute. reflexivity. }
    assert (Smart.committed ToySmart.wants_vim_with_runtime = []) as Hnone
      by reflexivity.
    assert (Smart.committed
              (Smart.perform_changes ToySmart.wants_vim_with_runtime).2
            ≠ []) as Hsome.
    { vm_compute. discriminate. }
    destruct (Smart.perform_changes ToySmart.wants_vim_with_runtime)
      as [r f'] eqn:Hrun.
    simpl in Hdone, Hsome. subst r. cbn [fst snd].
    destruct (smart_perform_changes ToySmart.wants_vim_with_runtime f' _ Hrun)
      as (_ & [Hsame | (changeset & Hcommitted & _ & _ & Hmarked)] & _).
    + rewrite Hsame, Hnone in Hsome. by destruct Hsome.
    + exists "done", changeset. split; [reflexivity |].
      split; [by rewrite Hcommitted, Hnone | exact Hmarked].
Defined.

Lemma smart_ensure_channels_reloaded_witness :
  ∃ message f',
    Smart.ensure_channels_reloaded ToySmart.fetching
    = (Smart.Raise (Smart.ChannelError message), f')
    ∧ Smart._channels_reloaded f' = true
    ∧ Smart.ensure_channels_reloaded f' = (Smart.Ok tt, f').
Proof.
  destruct (Smart.ensure_channels_reloaded ToySmart.fetching)
    as [r f'] eqn:Hrun.
  assert (∃ message, r = Smart.Raise (Smart.ChannelError message))
    as (message & ->).
  { apply (f_equal fst) in Hrun. vm_compute in Hrun. subst r. by eexists. }
  exists message, f'. split; [reflexivity |].
  destruct (smart_ensure_channels_reloaded ToySmart.fetching f' _ Hrun)
    as (Hflag & Hagain & _).
  split; [exact Hflag | exact Hagain].
Defined.

Lemma smart_reload_channels_index_witness :
  ∃ f',
    Smart.reload_channels ToySmart.fresh = (Smart.Ok tt, f')
    ∧ (∃ h, Smart.get_package_hash f' "vim" = Some h)
    ∧ ∀ h pkg, Smart.get_package_by_hash f' h = Some pkg →
               Smart.get_package_hash f' pkg = Some h.
Proof.
  destruct (Smart.reload_channels ToySmart.fresh) as [r f'] eqn:Hrun.
  assert (r = Smart.Ok tt) as ->.
  { apply (f_equal fst) in Hrun. vm_compute in Hrun. by subst r. }
  assert (is_Some (Smart.get_package_hash f' "vim")) as [h Hvim].
  { apply (f_equal snd) in Hrun. cbn [snd] in Hrun. subst f'.
    vm_compute. by eexists. }
  exists f'. split; [reflexivity |]. split; [by exists h |].
  by destruct (smart_reload_channels_index ToySmart.fresh f' Hrun)
    as (_ & _ & Hround & _).
Defined.

End FurtherExamples.
